(** * bcc_proc.c: process maps, ld.so.cache and mount-namespace helpers

    A shallow embedding of [src/cc/bcc_proc.c] and the properties its
    specification states about it.

    Conventions.
    - A C string ([char *], NUL-terminated) is a [string] holding the
      characters before the terminator; text files are NUL-free.
    - [int], [uint32_t], [uint64_t] and [size_t] values are [Z]; where the C
      code converts between widths the wrap-around is written out.
    - A [FILE *] opened for reading is the text not yet consumed.
    - The memory-mapped ld.so.cache is a [list byte]; a read outside the
      mapping is a fault ([None]).
    - System calls and the files they read are parameters of the model
      ([Variable]s of the section that embeds a function); the calls a
      function makes are collected in an event list where a property is
      about them.
    - A write beyond a local array has no defined behaviour: where input
      can cause one ([buffer] of [bcc_procutils_which], [perm] and [dev] of
      the scans of a maps file) the model gives no result ([None]). *)

From Stdlib Require Import ZArith List String Ascii Bool Lia.
From Stdlib Require Import Strings.Byte.
Import ListNotations.

Local Open Scope string_scope.
Local Open Scope Z_scope.

(* ================================================================= *)
(** * Part I: the model                                               *)
(* ================================================================= *)

(** ** C library functions used by the file *)

Module Libc.

(** [EOF] of <stdio.h>. *)
Definition EOF : Z := -1.

(** [isspace] in the C locale: space, \t, \n, \v, \f, \r. *)
Definition isspace (c : ascii) : bool :=
  let n := nat_of_ascii c in
  (Nat.eqb n 32 || (Nat.leb 9 n && Nat.leb n 13))%bool.

Definition isdigit (c : ascii) : bool :=
  let n := nat_of_ascii c in (Nat.leb 48 n && Nat.leb n 57)%bool.

Definition isxdigit (c : ascii) : bool :=
  let n := nat_of_ascii c in
  (isdigit c || (Nat.leb 65 n && Nat.leb n 70)
             || (Nat.leb 97 n && Nat.leb n 102))%bool.

(** Value of a digit character in bases up to 16. *)
Definition digit_val (c : ascii) : Z :=
  let n := Z.of_nat (nat_of_ascii c) in
  if isdigit c then n - 48
  else if (97 <=? n) then n - 87
  else n - 55.

(** [strchr (s, c)] for [c <> 0]: the suffix of [s] starting at the first
    [c], or [None] for the null pointer. *)
Fixpoint strchr (s : string) (c : ascii) : option string :=
  match s with
  | EmptyString => None
  | String a t => if Ascii.eqb a c then Some s else strchr t c
  end.

(** [strncmp (s1, s2, n)]: zero when the first [n] characters agree (or both
    strings end before), otherwise the difference of the first differing
    pair, the terminator counting as 0. *)
Fixpoint strncmp (s1 s2 : string) (n : nat) {struct n} : Z :=
  match n with
  | O => 0
  | S n' =>
    match s1, s2 with
    | EmptyString, EmptyString => 0
    | EmptyString, String c2 _ => - Z.of_nat (nat_of_ascii c2)
    | String c1 _, EmptyString => Z.of_nat (nat_of_ascii c1)
    | String c1 t1, String c2 t2 =>
      if Ascii.eqb c1 c2 then strncmp t1 t2 n'
      else Z.of_nat (nat_of_ascii c1) - Z.of_nat (nat_of_ascii c2)
    end
  end.

(** [strstr (hay, needle)]: the suffix of [hay] starting at the first
    occurrence of [needle], or [None] for the null pointer. *)
Fixpoint strstr (hay needle : string) : option string :=
  if String.prefix needle hay then Some hay
  else match hay with
       | EmptyString => None
       | String _ t => strstr t needle
       end.

(** Truth value of a pointer. *)
Definition nonnull {A} (p : option A) : bool :=
  match p with Some _ => true | None => false end.

(** The loop [while (isspace(p[0])) p++;]. *)
Fixpoint skip_space (s : string) : string :=
  match s with
  | String c t => if isspace c then skip_space t else s
  | EmptyString => s
  end.

(** Cutting the buffer at the first newline:
    [newline = strchr(buf, '\n'); if (newline) newline[0] = '\0';]. *)
Fixpoint chomp (s : string) : string :=
  match s with
  | EmptyString => EmptyString
  | String c t => if Ascii.eqb c "010" then EmptyString else String c (chomp t)
  end.

(** [fgets (buf, size, fp)]: reads at most [size - 1] characters, stopping
    after a newline; fails ([None]) when the stream is at end of file.
    The second component is the rest of the stream. [fgets_aux] reads at
    most [n] characters. *)
Fixpoint fgets_aux (n : nat) (fp : string) : string * string :=
  match n, fp with
  | O, _ => (EmptyString, fp)
  | _, EmptyString => (EmptyString, EmptyString)
  | S n', String c t =>
    if Ascii.eqb c "010" then (String c EmptyString, t)
    else let '(l, r) := fgets_aux n' t in (String c l, r)
  end.

Definition fgets (size : nat) (fp : string) : option (string * string) :=
  match fp with
  | EmptyString => None
  | _ => Some (fgets_aux (size - 1) fp)
  end.

(** *** [fscanf]

    The format strings of this file use five kinds of directive.  The
    model follows glibc: a conversion first skips white space; an integer
    conversion takes an optional sign, for base 16 an optional [0x] prefix,
    and then the longest run of digits; [%s] takes the longest run of
    non-space characters.  The result is the number of values assigned, or
    [EOF] when the input ends before anything was assigned. *)

Inductive directive :=
| D_space                      (* white space in the format *)
| D_char (c : ascii)           (* an ordinary character *)
| D_hex (assign : bool)        (* %llx, or %*x when not assigning *)
| D_dec (assign : bool)        (* %lld, or %*d *)
| D_str (assign : bool).       (* %s, or %*s *)

Inductive value := V_int (n : Z) | V_str (s : string).

(** Outcome of one directive. *)
Inductive scan1 :=
| Matched (v : option value) (rest : string)
| MatchFail (rest : string)     (* matching failure *)
| InputFail.                    (* end of file *)

(** Longest prefix of characters satisfying [p], and the rest. *)
Fixpoint span (p : ascii -> bool) (s : string) : string * string :=
  match s with
  | String c t =>
    if p c then let '(a, b) := span p t in (String c a, b) else (EmptyString, s)
  | EmptyString => (EmptyString, EmptyString)
  end.

(** Magnitude of a digit string, most significant digit first. *)
Fixpoint digits_val (base : Z) (acc : Z) (s : string) : Z :=
  match s with
  | EmptyString => acc
  | String c t => digits_val base (acc * base + digit_val c) t
  end.

Definition ULLONG_MAX : Z := 2 ^ 64 - 1.
Definition LLONG_MAX : Z := 2 ^ 63 - 1.
Definition LLONG_MIN : Z := - 2 ^ 63.

(** [strtoull]: saturates at [ULLONG_MAX]; a minus sign negates modulo
    2^64. *)
Definition strtoull (base : Z) (neg : bool) (digits : string) : Z :=
  let m := digits_val base 0 digits in
  if ULLONG_MAX <? m then ULLONG_MAX
  else if neg then (- m) mod 2 ^ 64 else m.

(** [strtoll]: saturates at [LLONG_MIN] and [LLONG_MAX]. *)
Definition strtoll (base : Z) (neg : bool) (digits : string) : Z :=
  let m := digits_val base 0 digits in
  if neg then (if 2 ^ 63 <? m then LLONG_MIN else - m)
  else (if LLONG_MAX <? m then LLONG_MAX else m).

(** Optional sign. *)
Definition scan_sign (s : string) : bool * bool * string :=
  match s with
  | String "-" t => (true, true, t)
  | String "+" t => (true, false, t)
  | _ => (false, false, s)
  end.

(** The [0x] prefix of base 16: the 0 counts as a digit already read and
    the x is consumed. *)
Definition scan_0x (s : string) : string * string :=
  match s with
  | String "0" (String "x" t) => ("0", t)
  | String "0" (String "X" t) => ("0", t)
  | _ => (EmptyString, s)
  end.

(** An integer conversion after white space has been skipped: optional
    sign, for base 16 the optional prefix, then the longest run of
    digits. *)
Definition scan_int (hex : bool) (assign : bool) (s : string) : scan1 :=
  match s with
  | EmptyString => InputFail
  | _ =>
    let '(_, neg, s1) := scan_sign s in
    let '(lead, s2) := if hex then scan_0x s1 else (EmptyString, s1) in
    let '(ds, rest) := span (if hex then isxdigit else isdigit) s2 in
    let digits := lead ++ ds in
    match digits with
    | EmptyString => MatchFail rest
    | _ =>
      let v := if hex then strtoull 16 neg digits else strtoll 10 neg digits in
      Matched (if assign then Some (V_int v) else None) rest
    end
  end.

Definition scan_directive (d : directive) (s : string) : scan1 :=
  match d with
  | D_space => Matched None (skip_space s)
  | D_char c =>
    match s with
    | EmptyString => InputFail
    | String a t => if Ascii.eqb a c then Matched None t else MatchFail s
    end
  | D_hex assign => scan_int true assign (skip_space s)
  | D_dec assign => scan_int false assign (skip_space s)
  | D_str assign =>
    match skip_space s with
    | EmptyString => InputFail
    | s' =>
      let '(tok, rest) := span (fun c => negb (isspace c)) s' in
      Matched (if assign then Some (V_str tok) else None) rest
    end
  end.

(** [fscanf (fp, fmt, ...)]: the return value, the values assigned in
    order, and the rest of the stream.  After an input failure the stream
    is at end of file. *)
Fixpoint fscanf (fmt : list directive) (vals : list value) (fp : string)
  : Z * list value * string :=
  match fmt with
  | [] => (Z.of_nat (List.length vals), vals, fp)
  | d :: fmt' =>
    match scan_directive d fp with
    | Matched None rest => fscanf fmt' vals rest
    | Matched (Some v) rest => fscanf fmt' (vals ++ [v]) rest
    | MatchFail rest => (Z.of_nat (List.length vals), vals, rest)
    | InputFail =>
      (match vals with [] => EOF | _ => Z.of_nat (List.length vals) end,
       vals, EmptyString)
    end
  end.

(** Decimal digits of a non-negative number, at most [fuel] of them, in
    front of [acc]. *)
Fixpoint utoa (fuel : nat) (n : Z) (acc : string) : string :=
  match fuel with
  | O => acc
  | S fuel' =>
    let acc' := String (ascii_of_nat (Z.to_nat (48 + n mod 10))) acc in
    if n / 10 =? 0 then acc' else utoa fuel' (n / 10) acc'
  end.

(** [sprintf] with ["%d"] of an [int], and with ["%ld"] of an [int]
    converted to [long]: ten digits are enough. *)
Definition itoa (n : Z) : string :=
  if n <? 0 then String "-" (utoa 10 (- n) EmptyString)
  else utoa 10 n EmptyString.

End Libc.
Import Libc.

(** ** Machine parameters and system calls *)

(** A C [int]: conversion of a 32-bit unsigned value to [int]. *)
Definition to_int32 (x : Z) : Z :=
  let y := x mod 2 ^ 32 in if y <? 2 ^ 31 then y else y - 2 ^ 32.

(** Conversion to [uint64_t]. *)
Definition to_uint64 (x : Z) : Z := x mod 2 ^ 64.

(** System calls recorded by the functions whose properties mention
    them. *)
Inductive event :=
| Ev_open (path : string)
| Ev_fstat (fd : Z)
| Ev_setns (fd : Z)
| Ev_close (fd : Z).

(** ** [is_exe] and [bcc_procutils_which] *)

Section Which.

(** [access (path, X_OK) >= 0]. *)
Variable access_X_OK : string -> bool.
(** [stat (path, &s)]: [None] when it fails, otherwise [S_ISREG (s.st_mode)]. *)
Variable stat_isreg : string -> option bool.
(** [getenv]. *)
Variable getenv : string -> option string.

Definition is_exe (path : string) : bool :=
  if negb (access_X_OK path) then false
  else match stat_isreg path with
       | None => false
       | Some reg => reg
       end.

(** [char buffer[4096]] holds the segment, the '/', the name and the
    terminator: [memcpy] writes [path_len] bytes, the '/' goes to index
    [path_len], and [strcpy] writes the name and its NUL from index
    [path_len + 1] on. *)
Definition buffer_holds (path_len : nat) (binpath : string) : bool :=
  (path_len + 1 + String.length binpath + 1 <=? 4096)%nat.

(** The [while (PATH)] loop.  [next] is the suffix at the first colon, or
    the empty suffix at the terminator; [path_len = next - PATH].  A turn
    that writes beyond [buffer] has no defined behaviour, and the model
    gives no result ([None]) for it.  Every turn moves [PATH] past [next],
    so [fuel] larger than the length of [PATH] is never used up. *)
Fixpoint which_loop (fuel : nat) (binpath PATH : string)
  : option (option string) :=
  match fuel with
  | O => None
  | S fuel' =>
    let next := match strchr PATH ":" with
                | Some p => p
                | None => EmptyString
                end in
    let path_len := (String.length PATH - String.length next)%nat in
    let continue :=
      match next with
      | EmptyString => Some None
      | String _ PATH' => which_loop fuel' binpath PATH'
      end in
    if Nat.eqb path_len 0 then continue
    else if negb (buffer_holds path_len binpath) then None
    else
      let buffer := substring 0 path_len PATH ++ "/" ++ binpath in
      if is_exe buffer then Some (Some buffer) else continue
  end.

(** [None]: the loop wrote beyond [buffer]. *)
Definition bcc_procutils_which (binpath : string) : option (option string) :=
  if nonnull (strchr binpath "/") then
    Some (if is_exe binpath then Some binpath else None)
  else
    match getenv "PATH" with
    | None => Some None
    | Some PATH => which_loop (S (String.length PATH)) binpath PATH
    end.

(** *** The lookup as the specification words it *)

(** Colon-delimited segments. *)
Fixpoint split_colon (acc : string) (s : string) : list string :=
  match s with
  | EmptyString => [acc]
  | String c t =>
    if Ascii.eqb c ":" then acc :: split_colon EmptyString t
    else split_colon (acc ++ String c EmptyString) t
  end.

Definition join_path (dir name : string) : string := dir ++ "/" ++ name.

(** An empty segment stands for the current directory. *)
Definition which_spec_cwd (binpath : string) : option string :=
  if nonnull (strchr binpath "/") then
    (if is_exe binpath then Some binpath else None)
  else
    match getenv "PATH" with
    | None => None
    | Some PATH =>
      List.find is_exe
        (List.map (fun seg => join_path (if String.eqb seg "" then "." else seg)
                                        binpath)
                  (split_colon "" PATH))
    end.

(** An empty segment is passed over. *)
Definition which_spec_skip (binpath : string) : option string :=
  if nonnull (strchr binpath "/") then
    (if is_exe binpath then Some binpath else None)
  else
    match getenv "PATH" with
    | None => None
    | Some PATH =>
      List.find is_exe
        (List.map (fun seg => join_path seg binpath)
                  (List.filter (fun seg => negb (String.eqb seg ""))
                               (split_colon "" PATH)))
    end.

End Which.

(** ** [bcc_mapping_is_file_backed] *)

(** [sizeof (lit) - 1] of a string literal. *)
Definition lit_len (lit : string) : nat := String.length lit.

(** The value of the [&&] chain, as a truth value. *)
Definition bcc_mapping_is_file_backed (mapname : string) : bool :=
  (match mapname with EmptyString => false | _ => true end
   && negb (strncmp mapname "//anon" (lit_len "//anon") =? 0)
   && negb (strncmp mapname "/dev/zero" (lit_len "/dev/zero") =? 0)
   && negb (strncmp mapname "/anon_hugepage" (lit_len "/anon_hugepage") =? 0)
   && negb (strncmp mapname "[stack" (lit_len "[stack") =? 0)
   && negb (strncmp mapname "/SYSV" (lit_len "/SYSV") =? 0)
   && negb (strncmp mapname "[heap]" (lit_len "[heap]") =? 0))%bool.

(** The six excluded prefixes. *)
Definition excluded_prefixes : list string :=
  ["//anon"; "/dev/zero"; "/anon_hugepage"; "[stack"; "/SYSV"; "[heap]"].

(** [mapname] begins with [p]. *)
Definition begins_with (p mapname : string) : Prop :=
  exists rest, mapname = p ++ rest.

(** ** [bcc_procutils_each_module] *)

(** The format ["%llx-%llx %s %llx %s %lld"]; with [assign = false] the
    format ["%*x-%*x %*s %*x %*s %*d"] of [which_so_in_process]. *)
Definition maps_format (assign : bool) : list directive :=
  [D_hex assign; D_char "-"; D_hex assign; D_space; D_str assign; D_space;
   D_hex assign; D_space; D_str assign; D_space; D_dec assign].

(** The variable a conversion assigned; only read when [fscanf] reported
    all six assigned. *)
Definition arg_int (vals : list value) (i : nat) : Z :=
  match nth_error vals i with Some (V_int n) => n | _ => 0 end.

Definition arg_str (vals : list value) (i : nat) : string :=
  match nth_error vals i with Some (V_str s) => s | _ => EmptyString end.

(** [%s] into an array of [size] bytes: every token stored fits with its
    terminator. *)
Definition tokens_fit (size : nat) (vals : list value) : bool :=
  forallb (fun v => match v with
                    | V_str s => Nat.ltb (String.length s) size
                    | V_int _ => true
                    end) vals.

(** [bcc_procutils_modulecb]: the callback gets the payload and may change
    what it points to. *)
Definition modulecb (P : Type) : Type := string -> Z -> Z -> P -> Z * P.

(** One invocation of the callback. *)
Record call := Call { call_name : string; call_begin : Z; call_end : Z }.

Section EachModule.

(** [fopen (path, "r")]: the text of the file, [None] for a null stream. *)
Variable fopen : string -> option string.
(** [bcc_perf_map_path] of bcc_perf_map.c, which is not part of this file:
    the path it writes, [None] when it returns false. *)
Variable bcc_perf_map_path : Z -> option string.

Context {P : Type}.

(** The [do ... while (ret && ret != EOF)] loop; the result is the payload
    and the callback invocations made, in order.  [perm] and [dev] are
    arrays of 8 bytes: a turn in which [%s] stores a token of 8 or more
    characters writes beyond them, which has no defined behaviour, and the
    model gives no result ([None]) for it.  A turn that does not leave
    through [break] has read at least one character, so [fuel] larger than
    the length of the stream is never used up. *)
Fixpoint each_module_loop (fuel : nat) (callback : modulecb P)
         (procmap : string) (payload : P) (log : list call)
  : option (P * list call) :=
  match fuel with
  | O => None
  | S fuel' =>
    let '(ret, vals, procmap1) := fscanf (maps_format true) [] procmap in
    if negb (tokens_fit 8 vals) then None else
    match fgets 4096 procmap1 with
    | None => Some (payload, log)
    | Some (endline, procmap2) =>
      let again payload log :=
        if (negb (ret =? 0) && negb (ret =? EOF))%bool
        then each_module_loop fuel' callback procmap2 payload log
        else Some (payload, log) in
      if ret =? 6 then
        let begin_ := arg_int vals 0 in
        let end_ := arg_int vals 1 in
        let perm := arg_str vals 2 in
        let mapname := skip_space (chomp endline) in
        if (nonnull (strchr perm "x") && bcc_mapping_is_file_backed mapname)%bool
        then
          let '(r, payload') :=
            callback mapname (to_uint64 begin_) (to_uint64 end_) payload in
          let log' := (log ++ [Call mapname (to_uint64 begin_) (to_uint64 end_)])%list in
          if r <? 0 then Some (payload', log')
          else again payload' log'
        else again payload log
      else again payload log
    end
  end.

Definition maps_filename (pid : Z) : string := "/proc/" ++ itoa pid ++ "/maps".

(** The result is the return value, the payload and the callback
    invocations made; [None] when the scan wrote beyond [perm] or [dev]. *)
Definition bcc_procutils_each_module (pid : Z) (callback : modulecb P)
           (payload : P) : option (Z * P * list call) :=
  match fopen (maps_filename pid) with
  | None => Some (-1, payload, [])
  | Some procmap =>
    match each_module_loop (S (String.length procmap)) callback procmap payload []
    with
    | None => None
    | Some (payload1, log) =>
      match bcc_perf_map_path pid with
      | Some map_path =>
        let '(_, payload2) := callback map_path 0 (to_uint64 (-1)) payload1 in
        Some (0, payload2, (log ++ [Call map_path 0 (to_uint64 (-1))])%list)
      | None => Some (0, payload1, log)
      end
    end
  end.

End EachModule.

(** ** Lines of /proc/<pid>/maps *)

(** A line as the kernel prints it: address range, permissions, offset,
    device, inode, padding and pathname.  The numeric fields are kept as
    the digits printed. *)
Record maps_line := MapsLine {
  ml_begin : string;
  ml_end : string;
  ml_perm : string;
  ml_offset : string;
  ml_dev : string;
  ml_inode : string;
  ml_pad : nat;
  ml_path : string
}.

Fixpoint spaces (n : nat) : string :=
  match n with O => EmptyString | S n' => String " " (spaces n') end.

Definition newline : string := String "010" EmptyString.

Definition render_line (l : maps_line) : string :=
  ml_begin l ++ "-" ++ ml_end l ++ " " ++ ml_perm l ++ " " ++ ml_offset l
  ++ " " ++ ml_dev l ++ " " ++ ml_inode l ++ " " ++ spaces (ml_pad l)
  ++ ml_path l ++ newline.

Fixpoint render_maps (ls : list maps_line) : string :=
  match ls with
  | [] => EmptyString
  | l :: ls' => render_line l ++ render_maps ls'
  end.

Fixpoint forallb_string (p : ascii -> bool) (s : string) : bool :=
  match s with
  | EmptyString => true
  | String c t => (p c && forallb_string p t)%bool
  end.

Definition nonempty (s : string) : bool :=
  match s with EmptyString => false | _ => true end.

(** Numeric fields are non-empty digit runs, the permission and device
    fields non-empty, free of white space and short enough for the 8-byte
    arrays [perm] and [dev], the pathname has no newline and does not start
    with white space, and the line fits the 4096-byte line buffer. *)
Definition wf_line (l : maps_line) : bool :=
  (nonempty (ml_begin l) && forallb_string isxdigit (ml_begin l)
   && nonempty (ml_end l) && forallb_string isxdigit (ml_end l)
   && nonempty (ml_perm l) && forallb_string (fun c => negb (isspace c)) (ml_perm l)
   && Nat.ltb (String.length (ml_perm l)) 8
   && nonempty (ml_offset l) && forallb_string isxdigit (ml_offset l)
   && nonempty (ml_dev l) && forallb_string (fun c => negb (isspace c)) (ml_dev l)
   && Nat.ltb (String.length (ml_dev l)) 8
   && nonempty (ml_inode l) && forallb_string isdigit (ml_inode l)
   && forallb_string (fun c => negb (Ascii.eqb c "010")) (ml_path l)
   && match ml_path l with
      | String c _ => negb (isspace c)
      | EmptyString => true
      end
   && Nat.ltb (1 + ml_pad l + String.length (ml_path l) + 1) 4096)%bool.

(** Address a hexadecimal field denotes for [%llx]. *)
Definition hex_field (digits : string) : Z := strtoull 16 false digits.

(** The callback arguments a line gives rise to. *)
Definition line_call (l : maps_line) : call :=
  Call (ml_path l) (hex_field (ml_begin l)) (hex_field (ml_end l)).

(** The line is one the scan reports: executable and file-backed. *)
Definition line_visited (l : maps_line) : bool :=
  (nonnull (strchr (ml_perm l) "x") && bcc_mapping_is_file_backed (ml_path l))%bool.

Section EachModuleSpec.

Context {P : Type}.
Variable callback : modulecb P.

(** Visiting the reported lines in file order until the callback returns a
    negative value: the payload, the invocations, and whether the callback
    stopped the scan. *)
Fixpoint visit_lines (ls : list maps_line) (payload : P)
  : P * list call * bool :=
  match ls with
  | [] => (payload, [], false)
  | l :: ls' =>
    if line_visited l then
      let c := line_call l in
      let '(r, payload') := callback (call_name c) (call_begin c) (call_end c) payload in
      if r <? 0 then (payload', [c], true)
      else let '(p, cs, stopped) := visit_lines ls' payload' in (p, c :: cs, stopped)
    else visit_lines ls' payload
  end.

(** The perf-map invocation. *)
Definition perf_map_call (map_path : string) : call :=
  Call map_path 0 (2 ^ 64 - 1).

(** Invocations as the specification words them: the perf-map invocation
    is left out when the callback stopped the scan. *)
Definition calls_spec_stop (ls : list maps_line) (map_path : string)
           (payload : P) : list call :=
  let '(_, cs, stopped) := visit_lines ls payload in
  if stopped then cs else (cs ++ [perf_map_call map_path])%list.

End EachModuleSpec.

(** ** The ld.so.cache *)

Definition CACHE1_HEADER : string := "ld.so-1.7.0".
Definition CACHE1_HEADER_LEN : nat := lit_len CACHE1_HEADER.
Definition CACHE2_HEADER : string := "glibc-ld.so.cache".
Definition CACHE2_HEADER_LEN : nat := lit_len CACHE2_HEADER.

(** Sizes and field offsets of the four structures (the same on ILP32 and
    LP64: no member is a pointer).
    - [struct ld_cache1_entry]: flags 0, key 4, value 8; size 12.
    - [struct ld_cache1]: header 0..10, entry_count 12, entries 16.
    - [struct ld_cache2_entry]: flags 0, key 4, value 8, pads; size 24.
    - [struct ld_cache2]: header 0..16, version 17..19, entry_count 20,
      string_table_len 24, pad 28..47, entries 48. *)
Definition sizeof_ld_cache1 : nat := 16.
Definition sizeof_ld_cache1_entry : nat := 12.
Definition sizeof_ld_cache2 : nat := 48.
Definition sizeof_ld_cache2_entry : nat := 24.
Definition cache1_entry_count_off : nat := 12.
Definition cache2_entry_count_off : nat := 20.

(** [struct ld_lib] and the two globals. *)
Record ld_lib := LdLib { libname : string; path : string; flags : Z }.

Record cache_state := CacheState {
  lib_cache_count : Z;
  lib_cache : list ld_lib
}.

(** The globals at program start (zero-initialised). *)
Definition cache_initial : cache_state := CacheState 0 [].

(** *** Reading the mapping

    [p] is the memory from a pointer to the end of the mapping; a read past
    the end is a fault. *)

Definition byte_val (b : byte) : Z := Z.of_N (Byte.to_N b).

(** A little-endian [uint32_t] (the cache is written in host order). *)
Definition u32_of_bytes (b0 b1 b2 b3 : byte) : Z :=
  byte_val b0 + 2 ^ 8 * byte_val b1 + 2 ^ 16 * byte_val b2
  + 2 ^ 24 * byte_val b3.

Definition load_u32 (p : list byte) (off : nat) : option Z :=
  match skipn off p with
  | b0 :: b1 :: b2 :: b3 :: _ => Some (u32_of_bytes b0 b1 b2 b3)
  | _ => None
  end.

Definition load_i32 (p : list byte) (off : nat) : option Z :=
  option_map to_int32 (load_u32 p off).

(** The NUL-terminated string at the start of [p]. *)
Fixpoint cstring (p : list byte) : option string :=
  match p with
  | [] => None
  | b :: p' =>
    if Byte.eqb b x00 then Some EmptyString
    else option_map (String (ascii_of_byte b)) (cstring p')
  end.

(** [strdup (p + off)]. *)
Definition load_cstr (p : list byte) (off : nat) : option string :=
  cstring (skipn off p).

(** [memcmp (p, lit, n) == 0] for [n] the length of [lit]. *)
Definition memcmp_eq (p : list byte) (lit : string) : bool :=
  if list_eq_dec Byte.byte_eq_dec (firstn (String.length lit) p)
                 (list_byte_of_string lit)
  then true else false.

(** The body of the [for] loops of [read_cache1] and [read_cache2], for
    entries [i .. i + n - 1]: entry [i] is at [entries + i * entry_size],
    its strings at [strings + key] and [strings + value]. *)
Fixpoint read_entries (p : list byte) (entries entry_size strings : nat)
         (n i : nat) : option (list ld_lib) :=
  match n with
  | O => Some []
  | S n' =>
    let e := (entries + i * entry_size)%nat in
    match load_u32 p (e + 4), load_u32 p (e + 8), load_i32 p e with
    | Some key, Some value, Some flags =>
      match load_cstr p (strings + Z.to_nat key),
            load_cstr p (strings + Z.to_nat value) with
      | Some k, Some v =>
        match read_entries p entries entry_size strings n' (S i) with
        | Some rest => Some (LdLib k v flags :: rest)
        | None => None
        end
      | _, _ => None
      end
    | _, _, _ => None
    end
  end.

(** [read_cache1]: the return value and the globals; [None] is a fault. *)
Definition read_cache1 (ld_map : list byte) : option (Z * cache_state) :=
  match load_u32 ld_map cache1_entry_count_off with
  | None => None
  | Some entry_count =>
    let ldstrings :=
      (sizeof_ld_cache1 + Z.to_nat entry_count * sizeof_ld_cache1_entry)%nat in
    match read_entries ld_map sizeof_ld_cache1 sizeof_ld_cache1_entry ldstrings
                       (Z.to_nat entry_count) 0 with
    | None => None
    | Some libs => Some (0, CacheState (to_int32 entry_count) libs)
    end
  end.

(** [read_cache2]: [-1] with the globals untouched when the header does not
    match. *)
Definition read_cache2 (st : cache_state) (ld_map : list byte)
  : option (Z * cache_state) :=
  if negb (memcmp_eq ld_map CACHE2_HEADER) then Some (-1, st)
  else
    match load_u32 ld_map cache2_entry_count_off with
    | None => None
    | Some entry_count =>
      match read_entries ld_map sizeof_ld_cache2 sizeof_ld_cache2_entry 0
                         (Z.to_nat entry_count) 0 with
      | None => None
      | Some libs => Some (0, CacheState (to_int32 entry_count) libs)
      end
    end.

(** What [open], [fstat] and [mmap] find for a path. *)
Record cache_file := CacheFile {
  cf_fstat_ok : bool;
  cf_mmap_ok : bool;
  cf_bytes : list byte
}.

Definition PAGE_SIZE : nat := 4096.

(** The mapping of a file: its bytes, zero-filled to the end of the last
    page. *)
Definition mmap_bytes (bytes : list byte) : list byte :=
  (bytes ++ repeat x00
     ((PAGE_SIZE - List.length bytes mod PAGE_SIZE) mod PAGE_SIZE))%list.

Section LdCache.

(** [sizeof (void * )], which is also the width of [size_t]. *)
Variable sizeof_ptr : Z.
(** [open (path, O_RDONLY)]: [None] when it fails. *)
Variable open_rdonly : string -> option cache_file.

(** Arithmetic in [size_t]. *)
Definition size_t (x : Z) : Z := x mod 2 ^ (8 * sizeof_ptr).

(** [cache1_len] of [load_ld_cache]: header plus entry array, then
    [(cache1_len + 0x7) & ~0x7ULL]. *)
Definition cache1_len_of (entry_count : Z) : Z :=
  let len := size_t (Z.of_nat sizeof_ld_cache1
                     + size_t (entry_count * Z.of_nat sizeof_ld_cache1_entry)) in
  size_t (Z.land (size_t (len + 7)) (Z.lnot 7 mod 2 ^ 64)).

(** [load_ld_cache]: the return value, the globals, and the [open] made.
    [None] is a fault while reading the mapping. *)
Definition load_ld_cache (st : cache_state) (cache_path : string)
  : option (Z * cache_state) * list event :=
  (match open_rdonly cache_path with
   | None => Some (-1, st)
   | Some f =>
     let st_size := Z.of_nat (List.length (cf_bytes f)) in
     if (negb (cf_fstat_ok f) || (st_size <? Z.of_nat sizeof_ld_cache1))%bool
     then Some (-1, st)
     else
       let ld_size := size_t st_size in
       if negb (cf_mmap_ok f) then Some (-1, st)
       else
         let ld_map := mmap_bytes (cf_bytes f) in
         if memcmp_eq ld_map CACHE1_HEADER then
           match load_u32 ld_map cache1_entry_count_off with
           | None => None
           | Some entry_count =>
             let cache1_len := cache1_len_of entry_count in
             if size_t (cache1_len + Z.of_nat sizeof_ld_cache2) <? ld_size
             then read_cache2 st (skipn (Z.to_nat cache1_len) ld_map)
             else read_cache1 ld_map
           end
         else read_cache2 st ld_map
   end,
   [Ev_open cache_path]).

Definition LD_SO_CACHE : string := "/etc/ld.so.cache".
Definition FLAG_TYPE_MASK : Z := 0x00ff.
Definition TYPE_ELF_LIBC6 : Z := 0x0003.
Definition FLAG_ABI_MASK : Z := 0xff00.
Definition ABI_SPARC_LIB64 : Z := 0x0100.
Definition ABI_IA64_LIB64 : Z := 0x0200.
Definition ABI_X8664_LIB64 : Z := 0x0300.
Definition ABI_S390_LIB64 : Z := 0x0400.
Definition ABI_POWERPC_LIB64 : Z := 0x0500.

Definition match_so_flags (flags : Z) : bool :=
  if negb (Z.land flags FLAG_TYPE_MASK =? TYPE_ELF_LIBC6) then false
  else
    let abi := Z.land flags FLAG_ABI_MASK in
    if ((abi =? ABI_SPARC_LIB64) || (abi =? ABI_IA64_LIB64)
        || (abi =? ABI_X8664_LIB64) || (abi =? ABI_S390_LIB64)
        || (abi =? ABI_POWERPC_LIB64))%bool
    then sizeof_ptr =? 8
    else sizeof_ptr =? 4.

(** ** [which_so_in_process] and [bcc_procutils_which_so] *)

(** [fopen (path, "r")]. *)
Variable fopen : string -> option string.

(** The [do ... while (ret != EOF)] loop: the pathname copied to
    [libpath] when [found].  [fuel] as in [each_module_loop]. *)
Fixpoint which_so_loop (fuel : nat) (search1 search2 : string) (fp : string)
  : option (option string) :=
  match fuel with
  | O => None
  | S fuel' =>
    let '(ret, _, fp1) := fscanf (maps_format false) [] fp in
    match fgets 4096 fp1 with
    | None => Some None
    | Some (endline, fp2) =>
      let mapname := skip_space (chomp endline) in
      if (nonnull (strstr mapname ".so")
          && (nonnull (strstr mapname search1)
              || nonnull (strstr mapname search2)))%bool
      then Some (Some mapname)
      else if negb (ret =? EOF) then which_so_loop fuel' search1 search2 fp2
           else Some None
    end
  end.

Definition which_so_in_process (libname : string) (pid : Z)
  : option (option string) :=
  match fopen (maps_filename pid) with
  | None => Some None
  | Some fp =>
    let search1 := "/lib" ++ libname ++ "." in
    let search2 := "/lib" ++ libname ++ "-" in
    which_so_loop (S (String.length fp)) search1 search2 fp
  end.

(** The [for] loop over [lib_cache]. *)
Fixpoint cache_scan (soname : string) (soname_len : nat) (libs : list ld_lib)
  : option string :=
  match libs with
  | [] => None
  | l :: libs' =>
    if ((strncmp (libname l) soname soname_len =? 0)
        && match_so_flags (flags l))%bool
    then Some (path l)
    else cache_scan soname soname_len libs'
  end.

(** The part of [bcc_procutils_which_so] after the first two returns: the
    ld.so.cache lookup. *)
Definition ld_cache_lookup (libname : string) (st : cache_state)
  : option (option string * cache_state) * list event :=
  let soname_len := (String.length libname + String.length "lib.so")%nat in
  let scan st :=
    cache_scan ("lib" ++ libname ++ ".so") soname_len
               (firstn (Z.to_nat (lib_cache_count st)) (lib_cache st)) in
  if lib_cache_count st <? 0 then (Some (None, st), [])
  else if lib_cache_count st =? 0 then
    match load_ld_cache st LD_SO_CACHE with
    | (None, evs) => (None, evs)
    | (Some (ret, st'), evs) =>
      if ret <? 0 then (Some (None, CacheState (-1) (lib_cache st')), evs)
      else (Some (scan st', st'), evs)
    end
  else (Some (scan st, st), []).

(** The result is the string returned ([None] for the null pointer), the
    globals afterwards and the [open] calls made on the cache file; the
    outer [None] means that the call did not return. *)
Definition bcc_procutils_which_so (libname : string) (pid : Z)
           (st : cache_state)
  : option (option string * cache_state) * list event :=
  if nonnull (strchr libname "/") then (Some (Some libname, st), [])
  else
    match (if pid =? 0 then Some None else which_so_in_process libname pid) with
    | None => (None, [])
    | Some (Some libpath) => (Some (Some libpath, st), [])
    | Some None => ld_cache_lookup libname st
    end.

End LdCache.

(** *** The format detection as the specification words it *)

(** [n] rounded up to a multiple of 8. *)
Definition round_up_8 (n : Z) : Z := 8 * ((n + 7) / 8).

(** The remaining file, from [off] on, is large enough to hold a v2
    header. *)
Definition holds_v2_header (size off : Z) : bool :=
  Z.of_nat sizeof_ld_cache2 <=? size - off.

(** The file is strictly larger than [off] plus a v2 header. *)
Definition exceeds_v2_header (size off : Z) : bool :=
  off + Z.of_nat sizeof_ld_cache2 <? size.

(** Format detection on the bytes of a cache file, for a given test of
    whether a v2 table follows the v1 region. *)
Definition detect_and_parse (v2_follows : Z -> Z -> bool) (st : cache_state)
           (bytes : list byte) : option (Z * cache_state) :=
  let ld_map := mmap_bytes bytes in
  if memcmp_eq ld_map CACHE1_HEADER then
    match load_u32 ld_map cache1_entry_count_off with
    | None => None
    | Some entry_count =>
      let v1_len :=
        round_up_8 (Z.of_nat sizeof_ld_cache1
                    + entry_count * Z.of_nat sizeof_ld_cache1_entry) in
      if v2_follows (Z.of_nat (List.length bytes)) v1_len
      then read_cache2 st (skipn (Z.to_nat v1_len) ld_map)
      else read_cache1 ld_map
    end
  else if memcmp_eq ld_map CACHE2_HEADER then read_cache2 st ld_map
  else Some (-1, st).

(** ** [bcc_procutils_enter_mountns] *)

Record ns_cookie := NsCookie { nsc_oldns : Z; nsc_newns : Z }.

(** What the two [snprintf] calls write. *)
Definition curnspath : string := "/proc/self/ns/mnt".
Definition newnspath (pid : Z) : string := "/proc/" ++ itoa pid ++ "/ns/mnt".

Section MountNS.

(** [open (path, O_RDONLY)]: the descriptor, negative on failure. *)
Variable sys_open : string -> Z.
(** [fstat (fd, &st)]: [st.st_ino], or [None] when it fails. *)
Variable sys_fstat : Z -> option Z.
(** [setns (fd, CLONE_NEWNS)]: its return value. *)
Variable sys_setns : Z -> Z.

(** The code after the [errout] label. *)
Definition errout (oldns newns : Z) : list event :=
  ((if -1 <? oldns then [Ev_close oldns] else [])
   ++ (if -1 <? newns then [Ev_close newns] else []))%list.

(** [nc] is [None] for a null pointer.  The result is the return value,
    the cookie afterwards and the system calls made. *)
Definition bcc_procutils_enter_mountns (pid : Z) (nc : option ns_cookie)
  : bool * option ns_cookie * list event :=
  match nc with
  | None => (false, None, [])
  | Some _ =>
    let nc0 := Some (NsCookie (-1) (-1)) in
    if Z.of_nat (String.length curnspath) =? 4096 then (false, nc0, [])
    else
      let newnspath := newnspath pid in
      if Z.of_nat (String.length newnspath) =? 4096 then (false, nc0, [])
      else
        let oldns := sys_open curnspath in
        let ev1 := [Ev_open curnspath] in
        if oldns <? 0 then (false, nc0, ev1)
        else
          let newns := sys_open newnspath in
          let ev2 := (ev1 ++ [Ev_open newnspath])%list in
          if newns <? 0 then (false, nc0, (ev2 ++ errout oldns newns)%list)
          else
            let ev3 := (ev2 ++ [Ev_fstat oldns])%list in
            match sys_fstat oldns with
            | None => (false, nc0, (ev3 ++ errout oldns newns)%list)
            | Some ons_ino =>
              let ev4 := (ev3 ++ [Ev_fstat newns])%list in
              match sys_fstat newns with
              | None => (false, nc0, (ev4 ++ errout oldns newns)%list)
              | Some nns_ino =>
                if ons_ino =? nns_ino
                then (false, nc0, (ev4 ++ errout oldns newns)%list)
                else
                  let ev5 := (ev4 ++ [Ev_setns newns])%list in
                  if sys_setns newns <? 0
                  then (false, nc0, (ev5 ++ errout oldns newns)%list)
                  else (true, Some (NsCookie oldns newns), ev5)
              end
            end
  end.

End MountNS.

(** ** Statements used by the properties *)

(** The five ABI tags of 64-bit-only libraries. *)
Definition lib64_tags : list Z :=
  [ABI_SPARC_LIB64; ABI_IA64_LIB64; ABI_X8664_LIB64; ABI_S390_LIB64;
   ABI_POWERPC_LIB64].

(** A loaded cache that holds the single entry [e]. *)
Definition single_entry_cache (e : ld_lib) : cache_state := CacheState 1 [e].

(** A string that can be a C string literal: no NUL inside. *)
Definition nul_free (s : string) : bool :=
  forallb_string (fun c => negb (Ascii.eqb c "000")) s.

Definition no_newline (s : string) : bool :=
  forallb_string (fun c => negb (Ascii.eqb c "010")) s.

(** The rest of a line after the inode: padding and pathname. *)
Definition line_tail (l : maps_line) : string :=
  String " " (spaces (ml_pad l) ++ ml_path l).

(** The values assigned from a line. *)
Definition line_values (l : maps_line) : list value :=
  [V_int (hex_field (ml_begin l)); V_int (hex_field (ml_end l));
   V_str (ml_perm l); V_int (hex_field (ml_offset l)); V_str (ml_dev l);
   V_int (strtoll 10 false (ml_inode l))].

(** What follows a numeric field on a line: a minus sign or a space. *)
Definition field_end (c : ascii) : bool :=
  (Ascii.eqb c "-" || Ascii.eqb c " ")%bool.

(** Modelled from the spec: [bcc_perf_map_path] (bcc_perf_map.c is not part
    of the sources); "a fixed temp-directory path keyed by pid",
    perf-<pid>.map. *)
Definition perf_map_path_spec (pid : Z) : option string :=
  Some ("/tmp/perf-" ++ itoa pid ++ ".map").

(** The maps listing of the specification's scenario: one executable
    mapping of /bin/foo and an executable heap. *)
Definition scenario_foo : maps_line :=
  MapsLine "400000" "410000" "r-xp" "00000000" "08:01" "123" 3 "/bin/foo".
Definition scenario_heap : maps_line :=
  MapsLine "7f0000" "7f1000" "rwxp" "00000000" "00:00" "0" 10 "[heap]".
Definition scenario_maps : list maps_line := [scenario_foo; scenario_heap].


(** [hay] contains [needle]. *)
Definition contains (hay needle : string) : Prop :=
  exists a b, hay = a ++ needle ++ b.

(** The test [which_so_in_process] applies to a pathname. *)
Definition so_path_match (search1 search2 mapname : string) : bool :=
  (nonnull (strstr mapname ".so")
   && (nonnull (strstr mapname search1) || nonnull (strstr mapname search2)))%bool.



(** A process that has mapped the C library. *)
Definition libc_line : maps_line :=
  MapsLine "7f1000" "7f2000" "r-xp" "00000000" "08:01" "77" 3
           "/usr/lib/x86_64-linux-gnu/libc-2.31.so".


(** *** Cache files used in the examples *)

Definition byte_of_Z (n : Z) : byte :=
  match Byte.of_N (Z.to_N (n mod 256)) with
  | Some b => b
  | None => x00
  end.

(** A [uint32_t] in little-endian order. *)
Definition le32 (n : Z) : list byte :=
  [byte_of_Z n; byte_of_Z (n / 2 ^ 8); byte_of_Z (n / 2 ^ 16);
   byte_of_Z (n / 2 ^ 24)].

(** A NUL-terminated string. *)
Definition asciz (s : string) : list byte :=
  (list_byte_of_string s ++ [x00])%list.

(** A v1 header with no entries, followed by 48 zero bytes: 64 bytes, of
    which the last 48 are not a v2 header. *)
Definition v1_then_zeros : list byte :=
  (asciz CACHE1_HEADER ++ le32 0 ++ repeat x00 48)%list.

(** A v2 cache with no entries: header, version, entry_count 0,
    string_table_len 0, padding. *)
Definition empty_v2_cache : list byte :=
  (list_byte_of_string "glibc-ld.so.cache1.1" ++ le32 0 ++ le32 0
   ++ repeat x00 20)%list.

(** A v2 cache with the entry "libssl.so.1.1" -> "/usr/lib/libssl.so.1.1"
    tagged x86-64: the entry at 48, the strings at 72 and 86. *)
Definition libssl_v2_cache : list byte :=
  (list_byte_of_string "glibc-ld.so.cache1.1" ++ le32 1 ++ le32 37
   ++ repeat x00 20
   ++ le32 0x0303 ++ le32 72 ++ le32 86 ++ le32 0 ++ le32 0 ++ le32 0
   ++ asciz "libssl.so.1.1" ++ asciz "/usr/lib/libssl.so.1.1")%list.

(** A v1 cache with the same entry: the entry at 16, the string table
    at 28. *)
Definition libssl_v1_cache : list byte :=
  (asciz CACHE1_HEADER ++ le32 1
   ++ le32 0x0303 ++ le32 0 ++ le32 14
   ++ asciz "libssl.so.1.1" ++ asciz "/usr/lib/libssl.so.1.1")%list.

(** A file system in which /etc/ld.so.cache has the given bytes. *)
Definition cache_on_disk (bytes : list byte) (p : string) : option cache_file :=
  if String.eqb p LD_SO_CACHE then Some (CacheFile true true bytes)
  else None.

(** Length of the stream a directive leaves, when it leaves one. *)
Definition scan1_rest_le (r : scan1) (n : nat) : Prop :=
  match r with
  | Matched _ rest | MatchFail rest => (String.length rest <= n)%nat
  | InputFail => True
  end.

(** A callback that stops the scan at once. *)
Definition stop_at_once : modulecb unit := fun _ _ _ p => (-1, p).

(** A callback that never stops the scan. *)
Definition keep_going : modulecb unit := fun _ _ _ p => (0, p).

(** A maps line whose offset field is not hexadecimal. *)
Definition bad_offset_line : string := "400000-410000 r-xp zz 08:01 1 /bin/bar".

(** The candidates the loop tries, in order. *)
Definition candidates (binpath PATH : string) : list string :=
  List.map (fun seg => join_path seg binpath)
           (List.filter (fun seg => negb (String.eqb seg ""))
                        (split_colon "" PATH)).

(** Every join the loop can write fits [buffer]. *)
Definition joins_fit (binpath PATH : string) : bool :=
  forallb (fun p => Nat.ltb (String.length p) 4096) (candidates binpath PATH).

(** The lookup stays inside [buffer]: the name has a '/' (the buffer is
    not used), PATH is unset, or every join fits. *)
Definition which_fits (getenv : string -> option string) (binpath : string)
  : bool :=
  if nonnull (strchr binpath "/") then true
  else match getenv "PATH" with
       | Some PATH => joins_fit binpath PATH
       | None => true
       end.

(** Everything is an executable regular file but /usr/bin/ls. *)
Definition all_but_usr_bin_ls (p : string) : bool :=
  negb (String.eqb p "/usr/bin/ls").

(** The scan stays inside [perm] and [dev]: the turns of the loop, taken
    as long as [ret] allows, store no token of 8 or more characters.  The
    callback does not change what is scanned; it can only end the scan
    earlier. *)
Fixpoint scan_fits (fuel : nat) (procmap : string) : bool :=
  match fuel with
  | O => true
  | S fuel' =>
    let '(ret, vals, procmap1) := fscanf (maps_format true) [] procmap in
    (tokens_fit 8 vals
     && match fgets 4096 procmap1 with
        | None => true
        | Some (_, procmap2) =>
          if (negb (ret =? 0) && negb (ret =? EOF))%bool
          then scan_fits fuel' procmap2
          else true
        end)%bool
  end.

Definition fields_fit (text : string) : bool :=
  scan_fits (S (String.length text)) text.





(** ** [bcc_procutils_exit_mountns] *)

Section MountNSExit.

(** [setns (fd, CLONE_NEWNS)]: its return value. *)
Variable sys_setns : Z -> Z.

(** [nc] is [None] for a null pointer.  The result is the return value,
    the cookie afterwards and the system calls made. *)
Definition bcc_procutils_exit_mountns (nc : option ns_cookie)
  : bool * option ns_cookie * list event :=
  match nc with
  | None => (false, None, [])
  | Some c =>
    if ((nsc_oldns c =? -1) || (nsc_newns c =? -1))%bool then (false, nc, [])
    else
      let rc := sys_setns (nsc_oldns c) =? 0 in
      let ev1 := [Ev_setns (nsc_oldns c)] in
      let '(oldns', ev2) :=
        if -1 <? nsc_oldns c then (-1, [Ev_close (nsc_oldns c)])
        else (nsc_oldns c, []) in
      let '(newns', ev3) :=
        if -1 <? nsc_newns c then (-1, [Ev_close (nsc_newns c)])
        else (nsc_newns c, []) in
      (rc, Some (NsCookie oldns' newns'), (ev1 ++ ev2 ++ ev3)%list)
  end.

End MountNSExit.

(** Descriptors closed, and descriptors handed to [setns], in order. *)
Definition closed_fds (evs : list event) : list Z :=
  flat_map (fun e => match e with Ev_close fd => [fd] | _ => [] end) evs.

Definition setns_fds (evs : list event) : list Z :=
  flat_map (fun e => match e with Ev_setns fd => [fd] | _ => [] end) evs.

(** Descriptors the [open] calls of a trace returned, failures left out. *)
Definition opened_fds (sys_open : string -> Z) (evs : list event) : list Z :=
  flat_map (fun e => match e with
                     | Ev_open p => if sys_open p <? 0 then [] else [sys_open p]
                     | _ => []
                     end) evs.

(** ** [bcc_procutils_each_ksym] *)

(** [strtoull (s, &end, 16)]: the value and the suffix [end] points to.
    White space and a sign are skipped; [0x] is a prefix; without a digit
    nothing is converted and [end] is [s] (after a bare [0x], the x). *)
Definition strtoull_end (s : string) : Z * string :=
  let '(_, neg, s1) := scan_sign (skip_space s) in
  match s1 with
  | String "0" (String x t) =>
    if (Ascii.eqb x "x" || Ascii.eqb x "X")%bool then
      let '(ds, rest) := span isxdigit t in
      match ds with
      | EmptyString => (0, String x t)
      | _ => (strtoull 16 neg ds, rest)
      end
    else
      let '(ds, rest) := span isxdigit s1 in (strtoull 16 neg ds, rest)
  | _ =>
    let '(ds, rest) := span isxdigit s1 in
    match ds with
    | EmptyString => (0, s)
    | _ => (strtoull 16 neg ds, rest)
    end
  end.

(** [p + 3] for a pointer into a string: [None] when that is beyond the
    terminator. *)
Definition plus3 (p : string) : option string :=
  match p with
  | String _ (String _ (String _ t)) => Some t
  | _ => None
  end.

(** [bcc_procutils_ksymcb]: the callback returns nothing. *)
Definition ksymcb (P : Type) : Type := string -> Z -> P -> P.

Section EachKsym.

(** [geteuid ()]. *)
Variable geteuid : Z.
Variable fopen : string -> option string.
Context {P : Type}.

(** The [while (fgets (...))] loop: the payload and the callback
    invocations made.  [None] stands for a run the model does not follow:
    [symname + 3] beyond the end of the line (the bytes there are what an
    earlier line left in the buffer), or [fuel] used up, which does not
    happen when it exceeds the length of the stream. *)
Fixpoint each_ksym_loop (fuel : nat) (callback : ksymcb P) (kallsyms : string)
         (payload : P) (log : list (string * Z))
  : option (P * list (string * Z)) :=
  match fuel with
  | O => None
  | S fuel' =>
    match fgets 2048 kallsyms with
    | None => Some (payload, log)
    | Some (line, kallsyms') =>
      let '(addr, endp) := strtoull_end line in
      match plus3 endp with
      | None => None
      | Some symname =>
        let name := fst (span (fun c => negb (isspace c)) symname) in
        each_ksym_loop fuel' callback kallsyms' (callback name addr payload)
                       (log ++ [(name, addr)])%list
      end
    end
  end.

Definition bcc_procutils_each_ksym (callback : ksymcb P) (payload : P)
  : option (Z * P * list (string * Z)) :=
  if negb (geteuid =? 0) then Some (-1, payload, [])
  else
    match fopen "/proc/kallsyms" with
    | None => Some (-1, payload, [])
    | Some kallsyms =>
      match fgets 2048 kallsyms with
      | None => Some (-1, payload, [])
      | Some (_, kallsyms') =>
        match each_ksym_loop (S (String.length kallsyms')) callback kallsyms'
                             payload [] with
        | None => None
        | Some (payload', log) => Some (0, payload', log)
        end
      end
    end.

End EachKsym.

(** *** Lines of /proc/kallsyms *)

(** Address, type character, name, and what follows the name (nothing, or
    a tab and the module in brackets). *)
Record ksym_line := KsymLine {
  ks_addr : string;
  ks_type : ascii;
  ks_name : string;
  ks_tail : string
}.

Definition render_ksym (l : ksym_line) : string :=
  ks_addr l ++ " " ++ String (ks_type l) " " ++ ks_name l ++ ks_tail l ++ newline.

Fixpoint render_ksyms (ls : list ksym_line) : string :=
  match ls with
  | [] => EmptyString
  | l :: ls' => render_ksym l ++ render_ksyms ls'
  end.

(** The address is a non-empty run of hexadecimal digits, the type is not
    a newline, the name has no white space, the tail is empty or starts
    with white space and has no newline, and the line fits the 2048-byte
    buffer. *)
Definition wf_ksym (l : ksym_line) : bool :=
  (nonempty (ks_addr l) && forallb_string isxdigit (ks_addr l)
   && negb (Ascii.eqb (ks_type l) "010")
   && forallb_string (fun c => negb (isspace c)) (ks_name l)
   && match ks_tail l with
      | String c _ => isspace c
      | EmptyString => true
      end
   && no_newline (ks_tail l)
   && Nat.ltb (String.length (render_ksym l)) 2048)%bool.

(** The callback arguments a line gives rise to. *)
Definition ksym_call (l : ksym_line) : string * Z :=
  (ks_name l, hex_field (ks_addr l)).

(** ** [bcc_procutils_language] *)

Definition languages : list string := ["java"; "python"; "ruby"; "php"; "node"].
Definition language_c : string := "c".

(** [str[4]] of a string that starts with "libc" is a minus or a dot. *)
Definition libc_suffix (str : string) : bool :=
  match String.get 4 str with
  | Some c => (Ascii.eqb c "-" || Ascii.eqb c ".")%bool
  | None => false
  end.

(** The [for] loop over the languages for one pathname: the language
    returned, if any, and the [libc] flag. *)
Fixpoint language_of_mapname (langs : list string) (mapname : string)
         (libc : bool) : option string * bool :=
  match langs with
  | [] => (None, libc)
  | lang :: langs' =>
    if nonnull (strstr mapname ("/lib" ++ lang)) then (Some lang, libc)
    else
      let libc' := match strstr mapname "libc" with
                   | Some str => if libc_suffix str then true else libc
                   | None => libc
                   end in
      language_of_mapname langs' mapname libc'
  end.

Section Language.

(** [realpath (path, line)]: the resolved path, [None] when it fails. *)
Variable realpath : string -> option string.
Variable fopen : string -> option string.

(** The [do ... while (ret && ret != EOF)] loop; [fuel], and the 8-byte
    arrays [perm] and [dev], as in [each_module_loop]: no result ([None])
    for a turn that stores a token of 8 or more characters. *)
Fixpoint language_loop (fuel : nat) (procfile : string) (libc : bool)
  : option (option string) :=
  match fuel with
  | O => None
  | S fuel' =>
    let '(ret, vals, procfile1) := fscanf (maps_format true) [] procfile in
    if negb (tokens_fit 8 vals) then None else
    match fgets 4096 procfile1 with
    | None => Some (if libc then Some language_c else None)
    | Some (line, procfile2) =>
      let again libc :=
        if (negb (ret =? 0) && negb (ret =? EOF))%bool
        then language_loop fuel' procfile2 libc
        else Some (if libc then Some language_c else None) in
      if ret =? 6 then
        let mapname := skip_space (chomp line) in
        match language_of_mapname languages mapname libc with
        | (Some lang, _) => Some (Some lang)
        | (None, libc') => again libc'
        end
      else again libc
    end
  end.

Definition exe_filename (pid : Z) : string := "/proc/" ++ itoa pid ++ "/exe".

(** The language named in the path of the executable. *)
Definition language_of_exe (pid : Z) : option string :=
  match realpath (exe_filename pid) with
  | Some line => List.find (fun lang => nonnull (strstr line lang)) languages
  | None => None
  end.

(** The result is the string returned, [None] for the null pointer; the
    outer [None] when the scan wrote beyond [perm] or [dev]. *)
Definition bcc_procutils_language (pid : Z) : option (option string) :=
  match language_of_exe pid with
  | Some lang => Some (Some lang)
  | None =>
    match fopen (maps_filename pid) with
    | None => Some None
    | Some procfile => language_loop (S (String.length procfile)) procfile false
    end
  end.

End Language.

(** The language a maps line names through a mapped library. *)
Definition line_language (l : maps_line) : option string :=
  List.find (fun lang => nonnull (strstr (ml_path l) ("/lib" ++ lang))) languages.

(** The line maps the C library: "libc" followed by a minus or a dot at
    its first occurrence in the pathname. *)
Definition line_libc (l : maps_line) : bool :=
  match strstr (ml_path l) "libc" with
  | Some str => libc_suffix str
  | None => false
  end.

(** The first line, in file order, that names a language. *)
Fixpoint first_language (ls : list maps_line) : option string :=
  match ls with
  | [] => None
  | l :: ls' =>
    match line_language l with
    | Some lang => Some lang
    | None => first_language ls'
    end
  end.


(** The conditions under which the namespace is entered: both namespace
    files open, both [fstat] calls succeed, the inodes differ and [setns]
    does not fail. *)
Definition enter_conditions (sys_open : string -> Z) (sys_fstat : Z -> option Z)
           (sys_setns : Z -> Z) (pid : Z) : Prop :=
  0 <= sys_open curnspath /\ 0 <= sys_open (newnspath pid)
  /\ (exists o n, sys_fstat (sys_open curnspath) = Some o
                  /\ sys_fstat (sys_open (newnspath pid)) = Some n /\ o <> n)
  /\ 0 <= sys_setns (sys_open (newnspath pid)).

(** The [libc] test on a pathname: "libc" occurs, and at its first
    occurrence a minus or a dot follows. *)
Definition libc_test (mapname : string) : bool :=
  match strstr mapname "libc" with
  | Some str => libc_suffix str
  | None => false
  end.

(** What the scan may pass to the callback: a file-backed pathname with
    no newline and no white space in front, and two 64-bit addresses. *)
Definition scan_call_ok (c : call) : Prop :=
  bcc_mapping_is_file_backed (call_name c) = true
  /\ no_newline (call_name c) = true
  /\ skip_space (call_name c) = call_name c
  /\ 0 <= call_begin c < 2 ^ 64 /\ 0 <= call_end c < 2 ^ 64.

(** Two symbol lines, the second of a module. *)
Definition kallsyms_example : list ksym_line :=
  [KsymLine "ffffffff81000000" "T" "_text" "";
   KsymLine "ffffffffa0000100" "t" "foo" (String "009" "[mod]")].

(** A callback that counts its invocations. *)
Definition count_symbols : ksymcb nat := fun _ _ n => S n.

(** The two globals agree: the count is negative (lookups disabled), or
    it is the number of entries of the table. *)
Definition cache_ok (st : cache_state) : Prop :=
  lib_cache_count st < 0
  \/ lib_cache_count st = Z.of_nat (List.length (lib_cache st)).

(** The cache file cannot be read: it does not open, [fstat] or [mmap]
    fails, or it is shorter than a v1 header. *)
Definition cache_unreadable (open_rdonly : string -> option cache_file) : Prop :=
  match open_rdonly LD_SO_CACHE with
  | None => True
  | Some f =>
    cf_fstat_ok f = false \/ cf_mmap_ok f = false
    \/ (List.length (cf_bytes f) < sizeof_ld_cache1)%nat
  end.

(** An entry answers the lookup of [soname]: its name begins with it and
    its flags pass the ABI filter. *)
Definition entry_matches (sizeof_ptr : Z) (soname : string) (e : ld_lib) : Prop :=
  begins_with soname (libname e) /\ match_so_flags sizeof_ptr (flags e) = true.

Section WhichSoRun.

Variable sizeof_ptr : Z.
Variable open_rdonly : string -> option cache_file.
Variable fopen : string -> option string.

(** A sequence of calls [bcc_procutils_which_so (libname, pid)], the
    globals passed from each to the next: the strings returned, the
    globals at the end and the [open] calls made. *)
Fixpoint which_so_run (reqs : list (string * Z)) (st : cache_state)
  : option (list (option string) * cache_state) * list event :=
  match reqs with
  | [] => (Some ([], st), [])
  | (libname, pid) :: reqs' =>
    match bcc_procutils_which_so sizeof_ptr open_rdonly fopen libname pid st with
    | (None, evs) => (None, evs)
    | (Some (r, st1), evs) =>
      match which_so_run reqs' st1 with
      | (None, evs') => (None, (evs ++ evs')%list)
      | (Some (rs, st2), evs') => (Some (r :: rs, st2), (evs ++ evs')%list)
      end
    end
  end.

End WhichSoRun.

(** *** Writing a cache

    The layout [read_cache1] and [read_cache2] read, written out for a
    table of libraries. *)

(** Bytes the two strings of a library take in the string area. *)
Definition strings_size (l : ld_lib) : nat :=
  (String.length (libname l) + 1 + String.length (path l) + 1)%nat.

(** The string area: name and path of each library, NUL-terminated. *)
Fixpoint enc_strings (libs : list ld_lib) : list byte :=
  match libs with
  | [] => []
  | l :: libs' => (asciz (libname l) ++ asciz (path l) ++ enc_strings libs')%list
  end.

(** The entry array: flags, key and value of each library, and [pad] zero
    bytes; the strings of the first library lie [off] bytes into the
    string area, and [bias] is added to every offset. *)
Fixpoint enc_entries (bias pad off : nat) (libs : list ld_lib) : list byte :=
  match libs with
  | [] => []
  | l :: libs' =>
    (le32 (flags l) ++ le32 (Z.of_nat (bias + off))
     ++ le32 (Z.of_nat (bias + off + String.length (libname l) + 1))
     ++ repeat x00 pad
     ++ enc_entries bias pad (off + strings_size l) libs')%list
  end.

(** A v2 cache: header and version, entry count, length of the string
    area, padding, 24-byte entries with offsets from the start of the
    file, strings. *)
Definition encode_cache2 (libs : list ld_lib) : list byte :=
  (list_byte_of_string "glibc-ld.so.cache1.1"
   ++ le32 (Z.of_nat (List.length libs))
   ++ le32 (Z.of_nat (List.length (enc_strings libs)))
   ++ repeat x00 20
   ++ enc_entries (sizeof_ld_cache2 + List.length libs * sizeof_ld_cache2_entry)
                  12 0 libs
   ++ enc_strings libs)%list.

(** A v1 cache: header, entry count, 12-byte entries with offsets into
    the string area, strings. *)
Definition encode_cache1 (libs : list ld_lib) : list byte :=
  (asciz CACHE1_HEADER ++ le32 (Z.of_nat (List.length libs))
   ++ enc_entries 0 0 0 libs ++ enc_strings libs)%list.

(** Name and path can be C strings, and the flags are an [int32_t]. *)
Definition wf_lib (l : ld_lib) : bool :=
  (nul_free (libname l) && nul_free (path l)
   && (- 2 ^ 31 <=? flags l) && (flags l <? 2 ^ 31))%bool.

(** Zero bytes that bring [k] to a multiple of 8. *)
Definition pad8 (k : nat) : nat := ((8 - k mod 8) mod 8)%nat.

(** A cache in the combined layout: a v1 header with [n1] entries ([stub],
    12 bytes each), padding to a multiple of 8, and a v2 cache. *)
Definition encode_combined (n1 : nat) (stub : list byte) (libs : list ld_lib)
  : list byte :=
  (asciz CACHE1_HEADER ++ le32 (Z.of_nat n1) ++ stub
   ++ repeat x00 (pad8 (16 + n1 * 12)) ++ encode_cache2 libs)%list.

(** Five libraries, for a v1 table of more than 48 bytes. *)
Definition five_libs : list ld_lib :=
  [LdLib "libssl.so.1.1" "/usr/lib/libssl.so.1.1" 0x0303;
   LdLib "libcrypto.so.1.1" "/usr/lib/libcrypto.so.1.1" 0x0303;
   LdLib "libz.so.1" "/lib/libz.so.1" 0x0303;
   LdLib "libm.so.6" "/lib/libm.so.6" 0x0303;
   LdLib "libc.so.6" "/lib/libc.so.6" 0x0303].

(* ================================================================= *)
(** * Part II: properties                                             *)
(* ================================================================= *)

(** ** Strings *)

Lemma append_assoc (a b c : string) : (a ++ b) ++ c = a ++ (b ++ c).
Proof. induction a as [|x a IH]; simpl; [reflexivity | now rewrite IH]. Qed.

Lemma append_nil_r (a : string) : a ++ "" = a.
Proof. induction a as [|x a IH]; simpl; [reflexivity | now rewrite IH]. Qed.

Lemma length_append (a b : string) :
  String.length (a ++ b) = (String.length a + String.length b)%nat.
Proof. induction a as [|x a IH]; simpl; [reflexivity | now rewrite IH]. Qed.

Lemma nat_of_ascii_inj (a b : ascii) : nat_of_ascii a = nat_of_ascii b -> a = b.
Proof.
  intros H. rewrite <- (ascii_nat_embedding a), <- (ascii_nat_embedding b).
  now rewrite H.
Qed.

Lemma nat_of_ascii_zero (c : ascii) : nat_of_ascii c = 0%nat -> c = "000"%char.
Proof. intros H. apply nat_of_ascii_inj. exact H. Qed.

(** [strncmp] over the length of a literal is the prefix test. *)
Lemma strncmp_prefix (lit m : string) :
  nul_free lit = true ->
  (strncmp m lit (String.length lit) = 0 <-> begins_with lit m).
Proof.
  revert m. induction lit as [|c lit IH]; intros m Hnf.
  - simpl. split; [intros _; now exists m | reflexivity].
  - simpl in Hnf. apply andb_true_iff in Hnf as [Hc Hnf].
    simpl. destruct m as [|a m].
    + split.
      * intros H. assert (nat_of_ascii c = 0%nat) as Hz by lia.
        apply nat_of_ascii_zero in Hz. subst c. discriminate.
      * intros [rest Hrest]. discriminate.
    + destruct (Ascii.eqb_spec a c) as [->|Hne].
      * rewrite (IH m Hnf). split.
        -- intros [rest ->]. now exists rest.
        -- intros [rest Hrest]. simpl in Hrest. injection Hrest as ->.
           now exists rest.
      * split.
        -- intros H. exfalso. apply Hne. apply nat_of_ascii_inj. lia.
        -- intros [rest Hrest]. simpl in Hrest. now injection Hrest as -> _.
Qed.

(** ** The file-backed predicate *)

Lemma is_file_backed_unfold (m : string) :
  bcc_mapping_is_file_backed m = true <->
  m <> "" /\
  ~ begins_with "//anon" m /\ ~ begins_with "/dev/zero" m /\
  ~ begins_with "/anon_hugepage" m /\ ~ begins_with "[stack" m /\
  ~ begins_with "/SYSV" m /\ ~ begins_with "[heap]" m.
Proof.
  unfold bcc_mapping_is_file_backed, lit_len.
  rewrite !andb_true_iff, !negb_true_iff, !Z.eqb_neq.
  rewrite !strncmp_prefix by reflexivity.
  destruct m; intuition congruence.
Qed.

(** C3, as stated, fails on the empty pathname: it begins with none of the
    six excluded prefixes, yet the predicate rejects it. *)
Lemma file_backed_empty_counterexample :
  ~ (bcc_mapping_is_file_backed "" = true <->
     forall p, In p excluded_prefixes -> ~ begins_with p "").
Proof.
  intros [_ H]. enough (bcc_mapping_is_file_backed "" = true) by discriminate.
  apply H. intros p Hp [rest Hrest].
  simpl in Hp. repeat destruct Hp as [<- | Hp]; try discriminate; exact Hp.
Qed.

(** C3 (amended): [bcc_mapping_is_file_backed] accepts a pathname exactly
    when it is non-empty and begins with none of the six excluded prefixes;
    the empty pathname is not file-backed. *)
Theorem file_backed_iff (mapname : string) :
  (bcc_mapping_is_file_backed mapname = true <->
   mapname <> "" /\
   forall p, In p excluded_prefixes -> ~ begins_with p mapname)
  /\ bcc_mapping_is_file_backed "" = false.
Proof.
  split; [|reflexivity].
  rewrite is_file_backed_unfold.
  unfold excluded_prefixes. simpl In. split.
  - intros (Hne & H1 & H2 & H3 & H4 & H5 & H6). split; [exact Hne|].
    intros p [<-|[<-|[<-|[<-|[<-|[<-|[]]]]]]]; assumption.
  - intros [Hne H]. repeat split; try exact Hne; apply H; tauto.
Qed.

(** /bin/foo is file-backed. *)
Lemma file_backed_iff_witness : bcc_mapping_is_file_backed "/bin/foo" = true.
Proof.
  apply (proj1 (file_backed_iff "/bin/foo")). split; [discriminate|].
  intros p Hp [rest Hrest]. simpl in Hp.
  repeat destruct Hp as [<- | Hp]; try discriminate Hrest; exact Hp.
Defined.

(** ** The ABI filter *)

Lemma lib64_tags_test (abi : Z) :
  ((abi =? ABI_SPARC_LIB64) || (abi =? ABI_IA64_LIB64)
   || (abi =? ABI_X8664_LIB64) || (abi =? ABI_S390_LIB64)
   || (abi =? ABI_POWERPC_LIB64))%bool = true <-> In abi lib64_tags.
Proof.
  unfold lib64_tags. simpl In.
  rewrite !orb_true_iff, !Z.eqb_eq. intuition congruence.
Qed.

Lemma match_so_flags_iff (sizeof_ptr flags : Z) :
  match_so_flags sizeof_ptr flags = true <->
  Z.land flags 0xff = 3
  /\ (In (Z.land flags 0xff00) lib64_tags -> sizeof_ptr = 8)
  /\ (~ In (Z.land flags 0xff00) lib64_tags -> sizeof_ptr = 4).
Proof.
  unfold match_so_flags, FLAG_TYPE_MASK, TYPE_ELF_LIBC6, FLAG_ABI_MASK.
  destruct (Z.eqb_spec (Z.land flags 0xff) 3) as [Ht|Ht]; simpl negb; cbv iota.
  - match goal with |- context [if ?b then _ else _] => destruct b eqn:Habi end.
    + apply lib64_tags_test in Habi. rewrite Z.eqb_eq. tauto.
    + assert (~ In (Z.land flags 0xff00) lib64_tags) as Hn.
      { rewrite <- lib64_tags_test, Habi. discriminate. }
      rewrite Z.eqb_eq. tauto.
  - split; [discriminate | tauto].
Qed.

Section FindScenario.

Variable open_rdonly : string -> option cache_file.
Variable fopen : string -> option string.

Lemma find_single_entry (sizeof_ptr : Z) (name : string) (e : ld_lib) :
  nul_free name = true ->
  nonnull (strchr name "/") = false ->
  begins_with ("lib" ++ name ++ ".so") (libname e) ->
  bcc_procutils_which_so sizeof_ptr open_rdonly fopen name 0
                         (single_entry_cache e)
  = (Some (if match_so_flags sizeof_ptr (flags e) then Some (path e) else None,
           single_entry_cache e), []).
Proof.
  intros Hnf Hslash Hpre.
  unfold bcc_procutils_which_so. rewrite Hslash. simpl.
  unfold ld_cache_lookup. simpl.
  assert (strncmp (libname e) ("lib" ++ name ++ ".so")
                  (String.length name + 6) = 0) as Hs.
  { replace (String.length name + 6)%nat
      with (String.length ("lib" ++ name ++ ".so")).
    - apply strncmp_prefix; [|exact Hpre].
      simpl. unfold nul_free in *. clear -Hnf.
      induction name as [|c n IH]; simpl in *; [reflexivity|].
      apply andb_true_iff in Hnf as [-> Hn]. simpl. now apply IH.
    - simpl. rewrite length_append. simpl. lia. }
  simpl in Hs. rewrite Hs.
  simpl. destruct (match_so_flags sizeof_ptr (flags e)); reflexivity.
Qed.

End FindScenario.

(** C5: an entry passes the ABI filter exactly when the low byte of its
    flags is the ELF-libc6 type 3 and the pointer width is 8 bytes for the
    five 64-bit ABI tags and 4 bytes for every other ABI byte.  Hence, for a
    cache holding an entry of type 3 with a 64-bit tag whose name begins
    with "libssl.so", the lookup of "ssl" returns the entry's path with
    8-byte pointers and nothing with 4-byte pointers. *)
Theorem abi_filter (sizeof_ptr fl : Z) :
  (match_so_flags sizeof_ptr fl = true <->
   Z.land fl 0xff = 3
   /\ (In (Z.land fl 0xff00) lib64_tags -> sizeof_ptr = 8)
   /\ (~ In (Z.land fl 0xff00) lib64_tags -> sizeof_ptr = 4))
  /\ forall open_rdonly fopen (e : ld_lib),
      Z.land (flags e) 0xff = 3 ->
      In (Z.land (flags e) 0xff00) lib64_tags ->
      begins_with "libssl.so" (libname e) ->
      bcc_procutils_which_so 8 open_rdonly fopen "ssl" 0 (single_entry_cache e)
      = (Some (Some (path e), single_entry_cache e), [])
      /\ bcc_procutils_which_so 4 open_rdonly fopen "ssl" 0 (single_entry_cache e)
         = (Some (None, single_entry_cache e), []).
Proof.
  split; [apply match_so_flags_iff|].
  intros open_rdonly fopen e Ht Habi Hpre.
  rewrite !find_single_entry by (reflexivity || exact Hpre).
  assert (match_so_flags 8 (flags e) = true) as ->.
  { apply match_so_flags_iff. tauto. }
  assert (match_so_flags 4 (flags e) = false) as ->.
  { apply not_true_is_false. intros H. apply match_so_flags_iff in H.
    destruct H as (_ & H8 & _). specialize (H8 Habi). discriminate. }
  split; reflexivity.
Qed.

(** The scenario of the specification: "libssl.so.1.1" tagged x86-64. *)
Lemma abi_filter_witness :
  match_so_flags 8 0x0303 = true
  /\ bcc_procutils_which_so 8 (fun _ => None) (fun _ => None) "ssl" 0
       (single_entry_cache (LdLib "libssl.so.1.1" "/usr/lib/libssl.so.1.1" 0x0303))
     = (Some (Some "/usr/lib/libssl.so.1.1",
              single_entry_cache
                (LdLib "libssl.so.1.1" "/usr/lib/libssl.so.1.1" 0x0303)), [])
  /\ bcc_procutils_which_so 4 (fun _ => None) (fun _ => None) "ssl" 0
       (single_entry_cache (LdLib "libssl.so.1.1" "/usr/lib/libssl.so.1.1" 0x0303))
     = (Some (None,
              single_entry_cache
                (LdLib "libssl.so.1.1" "/usr/lib/libssl.so.1.1" 0x0303)), []).
Proof.
  destruct (abi_filter 8 0x0303) as [Hiff Hfind].
  split.
  - apply Hiff. split; [reflexivity|]. split; [reflexivity|].
    intros Hn. exfalso. apply Hn. simpl. tauto.
  - apply (Hfind (fun _ => None) (fun _ => None)
                 (LdLib "libssl.so.1.1" "/usr/lib/libssl.so.1.1" 0x0303)).
    + reflexivity.
    + simpl. tauto.
    + exists ".1.1". reflexivity.
Defined.

(** ** Entering a mount namespace *)

Lemma utoa_length (fuel : nat) (n : Z) (acc : string) :
  (String.length (utoa fuel n acc) <= fuel + String.length acc)%nat.
Proof.
  revert n acc. induction fuel as [|fuel IH]; intros n acc; simpl; [lia|].
  destruct (n / 10 =? 0); simpl; [lia|].
  etransitivity; [apply IH|]. simpl. lia.
Qed.

Lemma itoa_length (n : Z) : (String.length (itoa n) <= 11)%nat.
Proof.
  unfold itoa. destruct (n <? 0); simpl.
  - pose proof (utoa_length 10 (- n) ""). simpl in *. lia.
  - pose proof (utoa_length 10 n ""). simpl in *. lia.
Qed.

Section MountNSFacts.

Variable sys_open : string -> Z.
Variable sys_fstat : Z -> option Z.
Variable sys_setns : Z -> Z.

Lemma newnspath_fits (pid : Z) :
  (Z.of_nat (String.length (newnspath pid)) =? 4096) = false.
Proof.
  apply Z.eqb_neq. unfold newnspath. rewrite !length_append.
  pose proof (itoa_length pid). simpl. lia.
Qed.

Lemma enter_mountns_same_inode (pid : Z) (nc : ns_cookie) (ino : Z) :
  0 <= sys_open curnspath ->
  0 <= sys_open (newnspath pid) ->
  sys_fstat (sys_open curnspath) = Some ino ->
  sys_fstat (sys_open (newnspath pid)) = Some ino ->
  bcc_procutils_enter_mountns sys_open sys_fstat sys_setns pid (Some nc)
  = (false, Some (NsCookie (-1) (-1)),
     [Ev_open curnspath; Ev_open (newnspath pid);
      Ev_fstat (sys_open curnspath); Ev_fstat (sys_open (newnspath pid));
      Ev_close (sys_open curnspath); Ev_close (sys_open (newnspath pid))]).
Proof.
  intros Hold Hnew Hso Hsn.
  unfold bcc_procutils_enter_mountns.
  rewrite newnspath_fits.
  change (Z.of_nat (String.length curnspath) =? 4096) with false. cbv iota.
  destruct (Z.ltb_spec (sys_open curnspath) 0); [lia|].
  destruct (Z.ltb_spec (sys_open (newnspath pid)) 0); [lia|].
  rewrite Hso, Hsn, Z.eqb_refl. unfold errout.
  destruct (Z.ltb_spec (-1) (sys_open curnspath)); [|lia].
  destruct (Z.ltb_spec (-1) (sys_open (newnspath pid))); [|lia].
  reflexivity.
Qed.

End MountNSFacts.

(** C7: when the target's mount namespace has the same inode as the
    caller's, [bcc_procutils_enter_mountns] makes no [setns] call and
    nothing is entered: it closes both descriptors it opened, leaves -1 in
    both fields of the cookie, so that no descriptor remains open in it,
    and returns false, so that the caller proceeds without an entered
    handle. *)
Theorem enter_mountns_same_namespace
        (sys_open : string -> Z) (sys_fstat : Z -> option Z)
        (sys_setns : Z -> Z) (pid : Z) (nc : ns_cookie) (ino : Z) :
  0 <= sys_open curnspath ->
  0 <= sys_open (newnspath pid) ->
  sys_fstat (sys_open curnspath) = Some ino ->
  sys_fstat (sys_open (newnspath pid)) = Some ino ->
  let '(rc, nc', evs) :=
    bcc_procutils_enter_mountns sys_open sys_fstat sys_setns pid (Some nc) in
  rc = false
  /\ nc' = Some (NsCookie (-1) (-1))
  /\ (forall fd, ~ In (Ev_setns fd) evs)
  /\ evs = [Ev_open curnspath; Ev_open (newnspath pid);
            Ev_fstat (sys_open curnspath); Ev_fstat (sys_open (newnspath pid));
            Ev_close (sys_open curnspath); Ev_close (sys_open (newnspath pid))].
Proof.
  intros Hold Hnew Hso Hsn.
  rewrite (enter_mountns_same_inode sys_open sys_fstat sys_setns pid nc ino)
    by assumption.
  repeat split.
  intros fd Hin. simpl in Hin.
  repeat destruct Hin as [Hin|Hin]; try discriminate; exact Hin.
Qed.

Lemma enter_mountns_same_namespace_witness :
  let '(rc, nc', evs) :=
    bcc_procutils_enter_mountns
      (fun p => if String.eqb p "/proc/self/ns/mnt" then 3 else 4)
      (fun _ => Some 4026531840) (fun _ => 0) 1234 (Some (NsCookie 0 0)) in
  rc = false
  /\ nc' = Some (NsCookie (-1) (-1))
  /\ (forall fd, ~ In (Ev_setns fd) evs)
  /\ evs = [Ev_open "/proc/self/ns/mnt"; Ev_open "/proc/1234/ns/mnt";
            Ev_fstat 3; Ev_fstat 4; Ev_close 3; Ev_close 4].
Proof.
  apply (enter_mountns_same_namespace
           (fun p => if String.eqb p "/proc/self/ns/mnt" then 3 else 4)
           (fun _ => Some 4026531840) (fun _ => 0) 1234 (NsCookie 0 0)
           4026531840).
  - vm_compute. discriminate.
  - vm_compute. discriminate.
  - reflexivity.
  - reflexivity.
Defined.

(** ** Executable lookup in PATH *)

Lemma substring_0_append (pre rest : string) :
  substring 0 (String.length pre) (pre ++ rest) = pre.
Proof.
  induction pre as [|c pre IH]; simpl.
  - destruct rest; reflexivity.
  - now rewrite IH.
Qed.

Lemma strchr_colon_none (s : string) :
  strchr s ":" = None -> forall acc, split_colon acc s = [acc ++ s].
Proof.
  induction s as [|c s IH]; simpl; intros H acc.
  - now rewrite append_nil_r.
  - destruct (Ascii.eqb c ":"); [discriminate|].
    rewrite IH by exact H. now rewrite append_assoc.
Qed.

Lemma strchr_colon_some (s nx : string) :
  strchr s ":" = Some nx ->
  exists pre t,
    s = pre ++ String ":" t /\ nx = String ":" t
    /\ forall acc, split_colon acc s = (acc ++ pre) :: split_colon "" t.
Proof.
  induction s as [|c s IH]; simpl; intros H; [discriminate|].
  destruct (Ascii.eqb_spec c ":") as [->|Hne].
  - injection H as <-. exists "", s. repeat split.
    intros acc. now rewrite append_nil_r.
  - destruct (IH H) as (pre & t & -> & -> & Hsplit).
    exists (String c pre), t. repeat split.
    intros acc. rewrite Hsplit, append_assoc. reflexivity.
Qed.

Section WhichFacts.

Variable access_X_OK : string -> bool.
Variable stat_isreg : string -> option bool.
Variable getenv : string -> option string.

Local Abbreviation is_exe := (is_exe access_X_OK stat_isreg).

Lemma buffer_holds_join (seg binpath : string) :
  buffer_holds (String.length seg) binpath
  = Nat.ltb (String.length (join_path seg binpath)) 4096.
Proof.
  unfold buffer_holds, join_path. rewrite !length_append.
  change (String.length "/") with 1%nat.
  apply eq_true_iff_eq. rewrite Nat.leb_le, Nat.ltb_lt. lia.
Qed.

Lemma which_loop_turn (binpath seg : string) (tried : list string) :
  forallb (fun p => Nat.ltb (String.length p) 4096)
          (List.map (fun s => join_path s binpath)
                    (List.filter (fun s => negb (String.eqb s "")) (seg :: tried)))
  = true ->
  forall continue : option (option string),
    continue
    = Some (List.find is_exe
              (List.map (fun s => join_path s binpath)
                        (List.filter (fun s => negb (String.eqb s "")) tried))) ->
    (if Nat.eqb (String.length seg) 0 then continue
     else if negb (buffer_holds (String.length seg) binpath) then None
          else if is_exe (seg ++ "/" ++ binpath) then Some (Some (seg ++ "/" ++ binpath))
               else continue)
    = Some (List.find is_exe
              (List.map (fun s => join_path s binpath)
                        (List.filter (fun s => negb (String.eqb s "")) (seg :: tried)))).
Proof.
  intros Hfit continue ->.
  cbn [List.filter] in *. destruct seg as [|c seg]; [reflexivity|].
  change (String c seg =? "")%string with false in *.
  cbn [negb List.map List.find forallb] in *.
  apply andb_true_iff in Hfit as [Hfit _].
  rewrite buffer_holds_join, Hfit. cbn [negb String.length Nat.eqb].
  unfold join_path at 1 2.
  destruct (is_exe (String c seg ++ "/" ++ binpath)); reflexivity.
Qed.

Lemma which_loop_find (binpath : string) (fuel : nat) :
  forall PATH,
    (String.length PATH < fuel)%nat ->
    joins_fit binpath PATH = true ->
    which_loop access_X_OK stat_isreg fuel binpath PATH
    = Some (List.find is_exe (candidates binpath PATH)).
Proof.
  induction fuel as [|fuel IH]; intros PATH Hlen Hfit; [lia|].
  unfold joins_fit, candidates in *. cbn [which_loop].
  destruct (strchr PATH ":") as [nx|] eqn:Hchr.
  - destruct (strchr_colon_some _ _ Hchr) as (pre & t & -> & -> & Hsplit).
    rewrite (Hsplit "") in *. cbn [append] in Hfit |- *.
    assert (String.length (pre ++ String ":" t) - String.length (String ":" t)
            = String.length pre)%nat as Hpl.
    { rewrite length_append. lia. }
    rewrite Hpl, substring_0_append.
    rewrite length_append in Hlen. cbn [String.length] in Hlen.
    apply which_loop_turn; [exact Hfit|].
    apply IH; [lia|].
    cbn [List.filter] in Hfit. destruct (negb (pre =? "")%string).
    + cbn [List.map forallb] in Hfit.
      now apply andb_true_iff in Hfit as [_ Hfit].
    + exact Hfit.
  - rewrite (strchr_colon_none _ Hchr "") in *. cbn [append] in Hfit |- *.
    rewrite Nat.sub_0_r.
    assert (substring 0 (String.length PATH) PATH = PATH) as Hsub.
    { rewrite <- (append_nil_r PATH) at 2. apply substring_0_append. }
    rewrite Hsub.
    apply (which_loop_turn binpath PATH []); [exact Hfit|reflexivity].
Qed.

Lemma which_refines_skip (binpath : string) :
  which_fits getenv binpath = true ->
  bcc_procutils_which access_X_OK stat_isreg getenv binpath
  = Some (which_spec_skip access_X_OK stat_isreg getenv binpath).
Proof.
  unfold which_fits, bcc_procutils_which, which_spec_skip. intros Hfit.
  destruct (nonnull (strchr binpath "/")); [reflexivity|].
  destruct (getenv "PATH") as [PATH|]; [|reflexivity].
  rewrite which_loop_find by (lia || exact Hfit). reflexivity.
Qed.

End WhichFacts.

(** C8, as stated, fails: with an empty PATH and every path an executable
    regular file, reading the empty segment as the current directory finds
    "./ls", while the code returns nothing. *)
Lemma which_empty_segment_counterexample :
  bcc_procutils_which (fun _ => true) (fun _ => Some true)
                      (fun _ => Some "") "ls"
  <> Some (which_spec_cwd (fun _ => true) (fun _ => Some true)
                          (fun _ => Some "") "ls").
Proof. vm_compute. discriminate. Qed.

(** C8 (amended): [bcc_procutils_which] returns a name that contains a path
    separator only when it is an executable regular file; otherwise it
    scans the colon-delimited segments of PATH in order, passing over empty
    segments, and returns the first segment/name join that is an executable
    regular file; when nothing matches or PATH is unset the result is
    empty.  This holds, and the call returns, when every non-empty segment
    joined with the name is shorter than 4096 bytes, the size of the buffer
    the join is written to. *)
Theorem which_skips_empty_segments
        (access_X_OK : string -> bool) (stat_isreg : string -> option bool)
        (getenv : string -> option string) (binpath : string) :
  which_fits getenv binpath = true ->
  bcc_procutils_which access_X_OK stat_isreg getenv binpath
  = Some
      (if nonnull (strchr binpath "/") then
         (if is_exe access_X_OK stat_isreg binpath then Some binpath else None)
       else
         match getenv "PATH" with
         | None => None
         | Some PATH =>
           List.find (is_exe access_X_OK stat_isreg)
             (List.map (fun seg => join_path seg binpath)
                (List.filter (fun seg => negb (String.eqb seg ""))
                             (split_colon "" PATH)))
         end).
Proof. apply which_refines_skip. Qed.

(** Empty segments at the start and in the middle of PATH are passed over,
    though "/ls" and "./ls" are executable; /usr/bin/ls is not, and
    /bin/ls is found. *)
Lemma which_skips_empty_segments_witness :
  bcc_procutils_which all_but_usr_bin_ls (fun _ => Some true)
                      (fun _ => Some ":/usr/bin::/bin") "ls"
  = Some (Some "/bin/ls").
Proof.
  exact (which_skips_empty_segments all_but_usr_bin_ls (fun _ => Some true)
                                    (fun _ => Some ":/usr/bin::/bin") "ls"
                                    eq_refl).
Defined.

(** ** The scanner never gives characters back *)

Lemma skip_space_length (s : string) :
  (String.length (skip_space s) <= String.length s)%nat.
Proof.
  induction s as [|c s IH]; simpl; [lia|].
  destruct (isspace c); simpl; lia.
Qed.

Lemma span_append (p : ascii -> bool) (s : string) :
  fst (span p s) ++ snd (span p s) = s.
Proof.
  induction s as [|c s IH]; simpl; [reflexivity|].
  destruct (p c); [|reflexivity].
  destruct (span p s) as [a b]. simpl in *. now rewrite IH.
Qed.

Lemma span_length (p : ascii -> bool) (s : string) :
  (String.length (snd (span p s)) <= String.length s)%nat.
Proof.
  rewrite <- (span_append p s) at 2. rewrite length_append. lia.
Qed.

Lemma scan_int_length (hex assign : bool) (s : string) :
  scan1_rest_le (scan_int hex assign s) (String.length s).
Proof.
  unfold scan_int. destruct s as [|c s]; [exact I|].
  set (s0 := String c s).
  assert (String.length (snd (scan_sign s0)) <= String.length s0)%nat as Hsign.
  { unfold scan_sign, s0.
    destruct (Ascii.ascii_dec c "-") as [->|H1]; [simpl; lia|].
    destruct (Ascii.ascii_dec c "+") as [->|H2]; [simpl; lia|].
    destruct c as [[] [] [] [] [] [] [] []]; simpl; try lia. }
  destruct (scan_sign s0) as [[sg neg] s1]. simpl in Hsign.
  set (pfx := if hex then scan_0x s1 else (EmptyString, s1)).
  assert (String.length (snd pfx) <= String.length s1)%nat as Hpfx.
  { unfold pfx, scan_0x. destruct hex; [|simpl; lia].
    destruct s1 as [|a [|b t]]; try (simpl; lia).
    - destruct a as [[] [] [] [] [] [] [] []]; simpl; lia.
    - destruct a as [[] [] [] [] [] [] [] []]; try (simpl; lia);
      destruct b as [[] [] [] [] [] [] [] []]; simpl; lia. }
  destruct pfx as [lead s2]. simpl in Hpfx.
  pose proof (span_length (if hex then isxdigit else isdigit) s2) as Hspan.
  destruct (span (if hex then isxdigit else isdigit) s2) as [ds rest].
  simpl in Hspan.
  destruct (lead ++ ds); simpl; lia.
Qed.

Lemma scan_directive_length (d : directive) (s : string) :
  scan1_rest_le (scan_directive d s) (String.length s).
Proof.
  pose proof (skip_space_length s) as Hsk.
  destruct d as [|c|a|a|a]; cbn [scan_directive scan1_rest_le].
  - exact Hsk.
  - destruct s as [|x s]; [exact I|]. destruct (Ascii.eqb x c); simpl; lia.
  - pose proof (scan_int_length true a (skip_space s)) as H.
    destruct (scan_int true a (skip_space s)); simpl in *; lia.
  - pose proof (scan_int_length false a (skip_space s)) as H.
    destruct (scan_int false a (skip_space s)); simpl in *; lia.
  - destruct (skip_space s) as [|x s'] eqn:E; [exact I|].
    pose proof (span_length (fun c => negb (isspace c)) (String x s')) as Hs.
    destruct (span (fun c => negb (isspace c)) (String x s')) as [tok rest].
    simpl in *. lia.
Qed.

Lemma fscanf_length (fmt : list directive) :
  forall vals fp,
    (String.length (snd (fscanf fmt vals fp)) <= String.length fp)%nat.
Proof.
  induction fmt as [|d fmt IH]; intros vals fp; simpl; [lia|].
  pose proof (scan_directive_length d fp) as Hd.
  destruct (scan_directive d fp) as [[v|] rest|rest|]; simpl in *.
  - etransitivity; [apply IH|exact Hd].
  - etransitivity; [apply IH|exact Hd].
  - exact Hd.
  - lia.
Qed.

Lemma fgets_aux_length (n : nat) (fp : string) :
  (String.length (snd (fgets_aux n fp)) <= String.length fp)%nat.
Proof.
  revert fp. induction n as [|n IH]; intros fp; simpl.
  - destruct fp; simpl; lia.
  - destruct fp as [|c t]; simpl; [lia|].
    destruct (Ascii.eqb c "010"); simpl; [lia|].
    specialize (IH t). destruct (fgets_aux n t). simpl in *. lia.
Qed.

Lemma fgets_aux_S (n : nat) (c : ascii) (t : string) :
  fgets_aux (S n) (String c t)
  = if Ascii.eqb c "010" then (String c EmptyString, t)
    else let '(l, r) := fgets_aux n t in (String c l, r).
Proof. reflexivity. Qed.

Lemma fgets_consumes (fp line rest : string) :
  fgets 4096 fp = Some (line, rest) ->
  (String.length rest < String.length fp)%nat.
Proof.
  unfold fgets. destruct fp as [|c t]; [discriminate|].
  change (4096 - 1)%nat with (S 4094). rewrite fgets_aux_S.
  destruct (Ascii.eqb c "010").
  - intros H. injection H as _ <-. simpl. lia.
  - pose proof (fgets_aux_length 4094 t) as Hl.
    destruct (fgets_aux 4094 t) as [l r]. simpl in Hl.
    intros H. injection H as _ <-. simpl. lia.
Qed.

(** One turn of either loop moves the stream forward. *)
Lemma turn_consumes (assign : bool) (fp : string) ret vals fp1 line fp2 :
  fscanf (maps_format assign) [] fp = (ret, vals, fp1) ->
  fgets 4096 fp1 = Some (line, fp2) ->
  (String.length fp2 < String.length fp)%nat.
Proof.
  intros Hs Hg. pose proof (fscanf_length (maps_format assign) [] fp) as H1.
  rewrite Hs in H1. simpl in H1.
  pose proof (fgets_consumes _ _ _ Hg). lia.
Qed.

(** ** The return value of [bcc_procutils_each_module] *)

Section EachModuleFacts.

Variable fopen : string -> option string.
Variable bcc_perf_map_path : Z -> option string.
Context {P : Type}.
Variable callback : modulecb P.

Lemma each_module_loop_total (fuel : nat) :
  forall procmap payload log,
    (String.length procmap < fuel)%nat ->
    scan_fits fuel procmap = true ->
    exists r, each_module_loop fuel callback procmap payload log = Some r.
Proof.
  induction fuel as [|fuel IH]; intros procmap payload log Hlen Hfit; [lia|].
  cbn [each_module_loop scan_fits] in *.
  destruct (fscanf (maps_format true) [] procmap) as [[ret vals] fp1] eqn:Hs.
  apply andb_true_iff in Hfit as [Htok Hfit]. rewrite Htok. cbn [negb].
  destruct (fgets 4096 fp1) as [[line fp2]|] eqn:Hg; [|eauto].
  pose proof (turn_consumes _ _ _ _ _ _ _ Hs Hg) as Hlt.
  assert (forall p' log',
             exists r,
               (if (negb (ret =? 0) && negb (ret =? EOF))%bool
                then each_module_loop fuel callback fp2 p' log'
                else Some (p', log')) = Some r) as Hagain.
  { intros p' log'. destruct (negb (ret =? 0) && negb (ret =? EOF))%bool.
    - apply IH; [lia|exact Hfit].
    - eauto. }
  destruct (ret =? 6); [|apply Hagain].
  destruct (nonnull _ && _)%bool; [|apply Hagain].
  destruct (callback _ _ _ payload) as [r p'].
  destruct (r <? 0); [eauto|apply Hagain].
Qed.

Lemma each_module_result (pid : Z) (payload : P) :
  match fopen (maps_filename pid) with
  | None =>
    bcc_procutils_each_module fopen bcc_perf_map_path pid callback payload
    = Some (-1, payload, [])
  | Some text =>
    (forall rc payload' calls,
        bcc_procutils_each_module fopen bcc_perf_map_path pid callback payload
        = Some (rc, payload', calls) -> rc = 0)
    /\ (fields_fit text = true ->
        exists payload' calls,
          bcc_procutils_each_module fopen bcc_perf_map_path pid callback payload
          = Some (0, payload', calls))
  end.
Proof.
  unfold bcc_procutils_each_module.
  destruct (fopen (maps_filename pid)) as [procmap|]; [|reflexivity]. split.
  - intros rc payload' calls.
    destruct (each_module_loop _ callback procmap payload []) as [[p1 log]|];
      [|discriminate].
    destruct (bcc_perf_map_path pid) as [map_path|].
    + destruct (callback map_path 0 (to_uint64 (-1)) p1) as [r p2].
      intros H. now injection H as <- _ _.
    + intros H. now injection H as <- _ _.
  - intros Hfit.
    destruct (each_module_loop_total (S (String.length procmap)) procmap payload [])
      as [[p1 log] ->]; [lia|exact Hfit|].
    destruct (bcc_perf_map_path pid) as [map_path|]; [|eauto].
    destruct (callback map_path 0 (to_uint64 (-1)) p1) as [r p2]. eauto.
Qed.

End EachModuleFacts.

(** C10: when /proc/<pid>/maps cannot be opened the call returns -1
    without invoking the callback.  When it can be opened, no value other
    than 0 is ever returned; and the call does return 0, whatever the
    lines hold, whether any field matched, whatever the callback returns
    during the scan and whatever it returns for the perf-map path, as long
    as the scan stores no token of 8 or more characters in the 8-byte
    arrays [perm] and [dev]. *)
Theorem each_module_return_value
        (fopen : string -> option string) (bcc_perf_map_path : Z -> option string)
        (P : Type) (callback : modulecb P) (pid : Z) (payload : P) :
  match fopen (maps_filename pid) with
  | None =>
    bcc_procutils_each_module fopen bcc_perf_map_path pid callback payload
    = Some (-1, payload, [])
  | Some text =>
    (forall rc payload' calls,
        bcc_procutils_each_module fopen bcc_perf_map_path pid callback payload
        = Some (rc, payload', calls) -> rc = 0)
    /\ (fields_fit text = true ->
        exists payload' calls,
          bcc_procutils_each_module fopen bcc_perf_map_path pid callback payload
          = Some (0, payload', calls))
  end.
Proof. apply each_module_result. Qed.

(** A file of one line on which nothing matches, and a callback that
    would stop the scan: the call returns 0 after the perf-map
    invocation. *)
Lemma each_module_return_value_witness :
  exists payload' calls,
    bcc_procutils_each_module (fun _ => Some ("garbage" ++ newline))
                              perf_map_path_spec 42 stop_at_once tt
    = Some (0, payload', calls).
Proof.
  exact (proj2 (each_module_return_value (fun _ => Some ("garbage" ++ newline))
                                         perf_map_path_spec unit stop_at_once
                                         42 tt)
               eq_refl).
Defined.

(** ** Scanning a well-formed line *)

Lemma forallb_string_cons (p : ascii -> bool) (c : ascii) (s : string) :
  forallb_string p (String c s) = true <-> p c = true /\ forallb_string p s = true.
Proof. simpl. apply andb_true_iff. Qed.

(** A run of characters satisfying [p], followed by one that does not. *)
Lemma span_run (p : ascii -> bool) (run : string) (c : ascii) (rest : string) :
  forallb_string p run = true -> p c = false ->
  span p (run ++ String c rest) = (run, String c rest).
Proof.
  intros Hrun Hc. induction run as [|x run IH]; simpl.
  - now rewrite Hc.
  - apply forallb_string_cons in Hrun as [-> Hrun]. now rewrite IH.
Qed.

Lemma skip_space_id (c : ascii) (s : string) :
  isspace c = false -> skip_space (String c s) = String c s.
Proof. intros H. simpl. now rewrite H. Qed.

Lemma xdigit_not_space (c : ascii) : isxdigit c = true -> isspace c = false.
Proof. destruct c as [[] [] [] [] [] [] [] []]; try reflexivity; discriminate. Qed.

Lemma digit_xdigit (c : ascii) : isdigit c = true -> isxdigit c = true.
Proof. unfold isxdigit. now intros ->. Qed.

Lemma scan_sign_xdigit (c : ascii) (s : string) :
  isxdigit c = true -> scan_sign (String c s) = (false, false, String c s).
Proof. destruct c as [[] [] [] [] [] [] [] []]; try reflexivity; discriminate. Qed.

(** No prefix is taken when the second character is not an x. *)
Lemma scan_0x_none (c : ascii) (t : string) :
  match t with
  | String b _ => b <> "x"%char /\ b <> "X"%char
  | EmptyString => True
  end ->
  scan_0x (String c t) = (EmptyString, String c t).
Proof.
  intros H. unfold scan_0x.
  destruct t as [|b t].
  - destruct c as [[] [] [] [] [] [] [] []]; reflexivity.
  - destruct H as [Hx HX].
    destruct c as [[] [] [] [] [] [] [] []]; try reflexivity.
    destruct b as [[] [] [] [] [] [] [] []]; try reflexivity; congruence.
Qed.

Lemma xdigit_not_x (c : ascii) :
  isxdigit c = true -> c <> "x"%char /\ c <> "X"%char.
Proof. intros H. split; intros ->; discriminate. Qed.

Lemma field_end_facts (c : ascii) :
  field_end c = true ->
  isxdigit c = false /\ isdigit c = false /\ c <> "x"%char /\ c <> "X"%char.
Proof.
  unfold field_end. rewrite orb_true_iff.
  intros [H|H]; apply Ascii.eqb_eq in H; subst c;
    (repeat split; try reflexivity; discriminate).
Qed.

Lemma run_second_not_x (ds : string) (c : ascii) (rest : string) :
  forallb_string isxdigit ds = true -> field_end c = true ->
  match ds ++ String c rest with
  | String b _ => b <> "x"%char /\ b <> "X"%char
  | EmptyString => True
  end.
Proof.
  intros Hds Hc. destruct ds as [|b ds]; simpl.
  - apply field_end_facts in Hc. tauto.
  - apply forallb_string_cons in Hds as [Hb _]. now apply xdigit_not_x.
Qed.

(** [%llx] (or [%*x]) on a hexadecimal field. *)
Lemma scan_hex_field (assign : bool) (ds : string) (c : ascii) (rest : string) :
  nonempty ds = true -> forallb_string isxdigit ds = true ->
  field_end c = true ->
  scan_directive (D_hex assign) (ds ++ String c rest)
  = Matched (if assign then Some (V_int (hex_field ds)) else None)
            (String c rest).
Proof.
  intros Hne Hds Hc. destruct ds as [|d ds]; [discriminate|].
  pose proof Hds as Hds'. apply forallb_string_cons in Hds' as [Hd Hrun].
  cbn [scan_directive]. change (String d ds ++ String c rest)
    with (String d (ds ++ String c rest)).
  rewrite skip_space_id by now apply xdigit_not_space.
  unfold scan_int. rewrite scan_sign_xdigit by exact Hd.
  rewrite scan_0x_none by now apply run_second_not_x.
  change (String d (ds ++ String c rest)) with (String d ds ++ String c rest).
  rewrite span_run; [|exact Hds|now apply field_end_facts].
  reflexivity.
Qed.

(** [%lld] (or [%*d]) on a decimal field. *)
Lemma scan_dec_field (assign : bool) (ds : string) (c : ascii) (rest : string) :
  nonempty ds = true -> forallb_string isdigit ds = true ->
  field_end c = true ->
  scan_directive (D_dec assign) (ds ++ String c rest)
  = Matched (if assign then Some (V_int (strtoll 10 false ds)) else None)
            (String c rest).
Proof.
  intros Hne Hds Hc. destruct ds as [|d ds]; [discriminate|].
  pose proof Hds as Hds'. apply forallb_string_cons in Hds' as [Hd Hrun].
  cbn [scan_directive]. change (String d ds ++ String c rest)
    with (String d (ds ++ String c rest)).
  rewrite skip_space_id by now apply xdigit_not_space, digit_xdigit.
  unfold scan_int. rewrite scan_sign_xdigit by now apply digit_xdigit.
  change (String d (ds ++ String c rest)) with (String d ds ++ String c rest).
  rewrite span_run; [|exact Hds|now apply field_end_facts].
  reflexivity.
Qed.

(** [%s] (or [%*s]) on a field followed by a space. *)
Lemma scan_str_field (assign : bool) (tok rest : string) :
  nonempty tok = true ->
  forallb_string (fun c => negb (isspace c)) tok = true ->
  scan_directive (D_str assign) (tok ++ String " " rest)
  = Matched (if assign then Some (V_str tok) else None) (String " " rest).
Proof.
  intros Hne Htok. destruct tok as [|d tok]; [discriminate|].
  pose proof Htok as Htok'. apply forallb_string_cons in Htok' as [Hd Hrun].
  cbn [scan_directive]. change (String d tok ++ String " " rest)
    with (String d (tok ++ String " " rest)).
  rewrite skip_space_id by now apply negb_true_iff.
  change (String d (tok ++ String " " rest))
    with (String d tok ++ String " " rest).
  rewrite span_run; [reflexivity|exact Htok|reflexivity].
Qed.

Lemma scan_char_same (c : ascii) (rest : string) :
  scan_directive (D_char c) (String c rest) = Matched None rest.
Proof. cbn [scan_directive]. now rewrite Ascii.eqb_refl. Qed.

(** The white-space directive before a field. *)
Lemma scan_space_field (p : ascii -> bool) (tok : string) (c : ascii)
      (rest : string) :
  (forall x, p x = true -> isspace x = false) ->
  nonempty tok = true -> forallb_string p tok = true ->
  scan_directive D_space (String " " (tok ++ String c rest))
  = Matched None (tok ++ String c rest).
Proof.
  intros Hp Hne Htok. destruct tok as [|d tok]; [discriminate|].
  apply forallb_string_cons in Htok as [Hd _].
  cbn [scan_directive]. cbn [skip_space]. change (isspace " ") with true.
  cbn iota. change (String d tok ++ String c rest)
    with (String d (tok ++ String c rest)).
  now rewrite skip_space_id by now apply Hp.
Qed.

Lemma spaces_length (n : nat) : String.length (spaces n) = n.
Proof. induction n as [|n IH]; simpl; [reflexivity|now rewrite IH]. Qed.

Lemma wf_line_parts (l : maps_line) :
  wf_line l = true ->
  (nonempty (ml_begin l) = true /\ forallb_string isxdigit (ml_begin l) = true)
  /\ (nonempty (ml_end l) = true /\ forallb_string isxdigit (ml_end l) = true)
  /\ (nonempty (ml_perm l) = true
      /\ forallb_string (fun c => negb (isspace c)) (ml_perm l) = true)
  /\ (nonempty (ml_offset l) = true /\ forallb_string isxdigit (ml_offset l) = true)
  /\ (nonempty (ml_dev l) = true
      /\ forallb_string (fun c => negb (isspace c)) (ml_dev l) = true)
  /\ (nonempty (ml_inode l) = true /\ forallb_string isdigit (ml_inode l) = true)
  /\ no_newline (ml_path l) = true
  /\ skip_space (ml_path l) = ml_path l
  /\ (String.length (line_tail l) + 1 < 4096)%nat.
Proof.
  unfold wf_line. rewrite !andb_true_iff. intros H.
  repeat match goal with H : _ /\ _ |- _ => destruct H end.
  repeat split; try assumption.
  - destruct (ml_path l) as [|c p]; [reflexivity|].
    apply skip_space_id. now apply negb_true_iff.
  - match goal with H : Nat.ltb _ _ = true |- _ => apply Nat.ltb_lt in H end.
    unfold line_tail. cbn [String.length]. rewrite length_append.
    rewrite spaces_length. lia.
Qed.

Lemma wf_line_fits (l : maps_line) :
  wf_line l = true -> tokens_fit 8 (line_values l) = true.
Proof.
  unfold wf_line. rewrite !andb_true_iff. intros H.
  repeat match goal with H : _ /\ _ |- _ => destruct H end.
  unfold line_values, tokens_fit. cbn [forallb].
  rewrite !andb_true_iff. repeat split; assumption.
Qed.

Lemma render_line_assoc (l : maps_line) (rest : string) :
  render_line l ++ rest
  = ml_begin l
    ++ String "-"
         (ml_end l
          ++ String " "
               (ml_perm l
                ++ String " "
                     (ml_offset l
                      ++ String " "
                           (ml_dev l
                            ++ String " "
                                 (ml_inode l
                                  ++ line_tail l ++ newline ++ rest))))).
Proof.
  unfold render_line, line_tail. rewrite !append_assoc. cbn [append].
  rewrite !append_assoc. reflexivity.
Qed.

Lemma not_space_char (c : ascii) :
  negb (isspace c) = true -> isspace c = false.
Proof. apply negb_true_iff. Qed.

Lemma fscanf_render_line (assign : bool) (l : maps_line) (rest : string) :
  wf_line l = true ->
  fscanf (maps_format assign) [] (render_line l ++ rest)
  = (if assign then 6 else 0, if assign then line_values l else [],
     line_tail l ++ newline ++ rest).
Proof.
  intros Hwf.
  destruct (wf_line_parts l Hwf)
    as ([Hb1 Hb2] & [He1 He2] & [Hp1 Hp2] & [Ho1 Ho2] & [Hd1 Hd2] & [Hi1 Hi2] & _).
  rewrite render_line_assoc. unfold maps_format, line_tail.
  cbn [append].
  destruct assign; cbn [fscanf];
    rewrite scan_hex_field by (assumption || reflexivity); cbn iota beta;
    rewrite scan_char_same; cbn iota beta;
    rewrite scan_hex_field by (assumption || reflexivity); cbn iota beta;
    rewrite (scan_space_field (fun c => negb (isspace c)))
      by (assumption || apply not_space_char); cbn iota beta;
    rewrite scan_str_field by assumption; cbn iota beta;
    rewrite (scan_space_field isxdigit) by (assumption || apply xdigit_not_space);
    cbn iota beta;
    rewrite scan_hex_field by (assumption || reflexivity); cbn iota beta;
    rewrite (scan_space_field (fun c => negb (isspace c)))
      by (assumption || apply not_space_char); cbn iota beta;
    rewrite scan_str_field by assumption; cbn iota beta;
    rewrite (scan_space_field isdigit)
      by (assumption || (intros x Hx; now apply xdigit_not_space, digit_xdigit));
    cbn iota beta;
    rewrite scan_dec_field by (assumption || reflexivity); cbn iota beta;
    reflexivity.
Qed.

(** [fgets] on the rest of a line that fits the buffer. *)
Lemma fgets_aux_line (s rest : string) :
  no_newline s = true ->
  forall n, (String.length s < n)%nat ->
  fgets_aux n (s ++ newline ++ rest) = (s ++ newline, rest).
Proof.
  intros Hs. induction s as [|c s IH]; intros n Hn.
  - destruct n as [|n]; [simpl in Hn; lia|]. reflexivity.
  - destruct n as [|n]; [simpl in Hn; lia|].
    apply forallb_string_cons in Hs as [Hc Hs].
    change (String c s ++ newline ++ rest) with (String c (s ++ newline ++ rest)).
    rewrite fgets_aux_S. apply negb_true_iff in Hc. rewrite Hc.
    rewrite IH by (assumption || (simpl in Hn; lia)). reflexivity.
Qed.

Lemma fgets_line (s rest : string) :
  no_newline s = true -> (String.length s + 1 < 4096)%nat ->
  fgets 4096 (s ++ newline ++ rest) = Some (s ++ newline, rest).
Proof.
  intros Hs Hlen. unfold fgets.
  rewrite fgets_aux_line by (assumption || lia).
  destruct s; reflexivity.
Qed.

Lemma chomp_line (s : string) : no_newline s = true -> chomp (s ++ newline) = s.
Proof.
  induction s as [|c s IH]; intros Hs; [reflexivity|].
  apply forallb_string_cons in Hs as [Hc Hs]. simpl.
  apply negb_true_iff in Hc. rewrite Hc. now rewrite IH.
Qed.

Lemma no_newline_append (a b : string) :
  no_newline a = true -> no_newline b = true -> no_newline (a ++ b) = true.
Proof.
  intros Ha Hb. induction a as [|c a IH]; [exact Hb|].
  apply forallb_string_cons in Ha as [Hc Ha].
  apply forallb_string_cons. split; [exact Hc|now apply IH].
Qed.

Lemma no_newline_spaces (n : nat) : no_newline (spaces n) = true.
Proof. induction n as [|n IH]; [reflexivity|exact IH]. Qed.

Lemma skip_space_spaces (n : nat) (s : string) :
  skip_space (spaces n ++ s) = skip_space s.
Proof. induction n as [|n IH]; [reflexivity|exact IH]. Qed.

Lemma line_tail_no_newline (l : maps_line) :
  wf_line l = true -> no_newline (line_tail l) = true.
Proof.
  intros Hwf. destruct (wf_line_parts l Hwf) as (_ & _ & _ & _ & _ & _ & Hp & _).
  unfold line_tail. apply forallb_string_cons. split; [reflexivity|].
  apply no_newline_append; [apply no_newline_spaces|exact Hp].
Qed.

(** What one turn of either loop reads from a well-formed line: all six
    fields, and the pathname as [mapname]. *)
Lemma read_line (assign : bool) (l : maps_line) (rest : string) :
  wf_line l = true ->
  exists endline,
    fscanf (maps_format assign) [] (render_line l ++ rest)
    = (if assign then 6 else 0, if assign then line_values l else [],
       endline ++ rest)
    /\ fgets 4096 (endline ++ rest) = Some (endline, rest)
    /\ skip_space (chomp endline) = ml_path l.
Proof.
  intros Hwf. exists (line_tail l ++ newline).
  pose proof (line_tail_no_newline l Hwf) as Hnl.
  destruct (wf_line_parts l Hwf) as (_ & _ & _ & _ & _ & _ & _ & Hsk & Hlen).
  rewrite append_assoc. repeat split.
  - now apply fscanf_render_line.
  - now apply fgets_line.
  - rewrite chomp_line by exact Hnl. unfold line_tail.
    change (skip_space (String " " (spaces (ml_pad l) ++ ml_path l)))
      with (skip_space (spaces (ml_pad l) ++ ml_path l)).
    now rewrite skip_space_spaces.
Qed.

Lemma digit_val_nonneg (c : ascii) : isxdigit c = true -> 0 <= digit_val c.
Proof.
  destruct c as [[] [] [] [] [] [] [] []]; try discriminate;
    intros _; vm_compute; discriminate.
Qed.

Lemma digits_val_nonneg (ds : string) :
  forallb_string isxdigit ds = true ->
  forall acc, 0 <= acc -> 0 <= digits_val 16 acc ds.
Proof.
  induction ds as [|c ds IH]; intros Hds acc Hacc; [exact Hacc|].
  apply forallb_string_cons in Hds as [Hc Hds]. simpl.
  apply IH; [exact Hds|]. pose proof (digit_val_nonneg c Hc). lia.
Qed.

(** An address field is already a [uint64_t]. *)
Lemma hex_field_uint64 (ds : string) :
  forallb_string isxdigit ds = true -> to_uint64 (hex_field ds) = hex_field ds.
Proof.
  intros Hds. unfold to_uint64, hex_field, strtoull, ULLONG_MAX.
  pose proof (digits_val_nonneg ds Hds 0 ltac:(lia)) as Hnn.
  destruct (Z.ltb_spec (2 ^ 64 - 1) (digits_val 16 0 ds)).
  - reflexivity.
  - apply Z.mod_small. lia.
Qed.

(** ** The scan over a well-formed maps file *)

Lemma render_maps_lines (ls : list maps_line) :
  forallb wf_line ls = true ->
  (List.length ls <= String.length (render_maps ls))%nat.
Proof.
  induction ls as [|l ls IH]; intros Hwf; simpl; [lia|].
  simpl in Hwf. apply andb_true_iff in Hwf as [_ Hwf].
  rewrite length_append. specialize (IH Hwf).
  unfold render_line. rewrite !length_append. simpl. lia.
Qed.

Section ScanLines.

Context {P : Type}.
Variable callback : modulecb P.

(** Fuel beyond what the loop uses does not change its result. *)
Lemma each_module_loop_mono (fuel : nat) :
  forall fuel' procmap payload log r,
    each_module_loop fuel callback procmap payload log = Some r ->
    (fuel <= fuel')%nat ->
    each_module_loop fuel' callback procmap payload log = Some r.
Proof.
  induction fuel as [|fuel IH]; intros fuel' procmap payload log r H Hle;
    [discriminate|].
  destruct fuel' as [|fuel']; [lia|].
  cbn [each_module_loop] in *.
  destruct (fscanf (maps_format true) [] procmap) as [[ret vals] fp1].
  destruct (tokens_fit 8 vals); cbn [negb] in *; [|discriminate H].
  destruct (fgets 4096 fp1) as [[line fp2]|]; [|exact H].
  destruct (ret =? 6);
    [destruct (nonnull _ && _)%bool;
     [destruct (callback _ _ _ payload) as [rc p']; destruct (rc <? 0);
      [exact H|]|]|];
    (destruct (negb (ret =? 0) && negb (ret =? EOF))%bool;
     [apply IH; [exact H|lia]|exact H]).
Qed.

(** One turn on a well-formed line. *)
Lemma each_module_loop_line (fuel : nat) (l : maps_line) (rest : string)
      (payload : P) (log : list call) :
  wf_line l = true ->
  each_module_loop (S fuel) callback (render_line l ++ rest) payload log
  = if line_visited l then
      let c := line_call l in
      let '(r, payload') :=
        callback (call_name c) (call_begin c) (call_end c) payload in
      if r <? 0 then Some (payload', (log ++ [c])%list)
      else each_module_loop fuel callback rest payload' (log ++ [c])%list
    else each_module_loop fuel callback rest payload log.
Proof.
  intros Hwf. destruct (read_line true l rest Hwf) as (endline & Hs & Hg & Hm).
  destruct (wf_line_parts l Hwf) as ([_ Hb] & [_ He] & _).
  cbn [each_module_loop]. rewrite Hs. cbn beta iota.
  rewrite (wf_line_fits l Hwf). cbn [negb]. rewrite Hg, Hm.
  change (6 =? 6) with true. change (6 =? 0) with false.
  change (6 =? EOF) with false. cbn [negb andb].
  unfold line_values, arg_int, arg_str. cbn [nth_error].
  rewrite !hex_field_uint64 by assumption.
  unfold line_visited, line_call. cbn [call_name call_begin call_end].
  reflexivity.
Qed.

Lemma each_module_loop_eof (fuel : nat) (payload : P) (log : list call) :
  each_module_loop (S fuel) callback "" payload log = Some (payload, log).
Proof. reflexivity. Qed.

Lemma each_module_loop_lines (ls : list maps_line) :
  forallb wf_line ls = true ->
  forall fuel payload log,
    (List.length ls < fuel)%nat ->
    each_module_loop fuel callback (render_maps ls) payload log
    = Some (let '(p, cs, _) := visit_lines callback ls payload in
            (p, (log ++ cs)%list)).
Proof.
  induction ls as [|l ls IH]; intros Hwf fuel payload log Hfuel.
  - destruct fuel as [|fuel]; [simpl in Hfuel; lia|].
    simpl. now rewrite app_nil_r.
  - simpl in Hwf. apply andb_true_iff in Hwf as [Hl Hwf].
    destruct fuel as [|fuel]; [simpl in Hfuel; lia|].
    simpl in Hfuel. cbn [render_maps visit_lines].
    rewrite each_module_loop_line by exact Hl.
    destruct (line_visited l).
    + cbn zeta.
      destruct (callback (call_name (line_call l)) (call_begin (line_call l))
                         (call_end (line_call l)) payload) as [r p'].
      destruct (r <? 0); [reflexivity|].
      rewrite IH by (assumption || lia).
      destruct (visit_lines callback ls p') as [[p cs] stopped].
      now rewrite <- app_assoc.
    + apply IH; [exact Hwf|lia].
Qed.

End ScanLines.

(** A file of well-formed lines stays inside [perm] and [dev]. *)
Lemma scan_fits_lines (ls : list maps_line) :
  forallb wf_line ls = true ->
  forall fuel, scan_fits fuel (render_maps ls) = true.
Proof.
  induction ls as [|l ls IH]; intros Hwf fuel.
  - destruct fuel; reflexivity.
  - simpl in Hwf. apply andb_true_iff in Hwf as [Hl Hwf].
    destruct fuel as [|fuel]; [reflexivity|].
    destruct (read_line true l (render_maps ls) Hl) as (endline & Hs & Hg & _).
    cbn [scan_fits render_maps]. rewrite Hs. cbn beta iota.
    rewrite (wf_line_fits l Hl), Hg. now apply IH.
Qed.

Lemma fields_fit_lines (ls : list maps_line) :
  forallb wf_line ls = true -> fields_fit (render_maps ls) = true.
Proof. intros Hwf. now apply scan_fits_lines. Qed.

(** ** Which lines are reported *)

Section VisitFacts.

Context {P : Type}.
Variable callback : modulecb P.

(** The invocations are an initial part of the reported lines, in file
    order, and all of them unless the callback stopped the scan. *)
Lemma visit_lines_calls (ls : list maps_line) :
  forall payload,
    let '(_, cs, stopped) := visit_lines callback ls payload in
    (exists k, cs = firstn k (List.map line_call (List.filter line_visited ls)))
    /\ (stopped = false ->
        cs = List.map line_call (List.filter line_visited ls)).
Proof.
  induction ls as [|l ls IH]; intros payload; cbn [visit_lines].
  - split; [exists 0%nat; reflexivity|reflexivity].
  - cbn [List.filter]. destruct (line_visited l); [|apply IH].
    cbn zeta.
    destruct (callback (call_name (line_call l)) (call_begin (line_call l))
                       (call_end (line_call l)) payload) as [r p'].
    destruct (r <? 0).
    + split; [exists 1%nat; reflexivity|discriminate].
    + specialize (IH p').
      destruct (visit_lines callback ls p') as [[p cs] stopped].
      destruct IH as [[k Hk] Hall]. split.
      * exists (S k). cbn [List.map firstn]. now rewrite Hk.
      * intros Hs. cbn [List.map]. now rewrite Hall.
Qed.

Variable fopen : string -> option string.
Variable bcc_perf_map_path : Z -> option string.

Lemma each_module_on_lines (pid : Z) (payload : P) (ls : list maps_line) :
  fopen (maps_filename pid) = Some (render_maps ls) ->
  forallb wf_line ls = true ->
  bcc_procutils_each_module fopen bcc_perf_map_path pid callback payload
  = let '(p1, cs, _) := visit_lines callback ls payload in
    match bcc_perf_map_path pid with
    | Some map_path =>
      Some (0, snd (callback map_path 0 (2 ^ 64 - 1) p1),
            (cs ++ [perf_map_call map_path])%list)
    | None => Some (0, p1, cs)
    end.
Proof.
  intros Hopen Hwf. unfold bcc_procutils_each_module. rewrite Hopen.
  rewrite each_module_loop_lines
    by (assumption || (pose proof (render_maps_lines ls Hwf); lia)).
  destruct (visit_lines callback ls payload) as [[p1 cs] stopped].
  cbn [app]. destruct (bcc_perf_map_path pid) as [map_path|]; [|reflexivity].
  change (to_uint64 (-1)) with (2 ^ 64 - 1).
  destruct (callback map_path 0 (2 ^ 64 - 1) p1) as [r p2]. reflexivity.
Qed.

End VisitFacts.

(** C2, as stated, fails: when the callback stops the scan on /bin/foo the
    perf-map invocation is still made. *)
Lemma each_module_stop_counterexample :
  option_map snd
    (bcc_procutils_each_module (fun _ => Some (render_maps scenario_maps))
                               perf_map_path_spec 42 stop_at_once tt)
  <> Some (calls_spec_stop stop_at_once scenario_maps "/tmp/perf-42.map" tt).
Proof. vm_compute. discriminate. Qed.

(** C2 (amended): for a pid whose maps file opens and holds well-formed
    lines, [bcc_procutils_each_module] invokes the callback on the lines
    whose permission field contains 'x' and whose pathname is file-backed,
    once each and in file order, up to and including the first invocation
    that returns a negative value; after the scan, stopped early or not, it
    invokes the callback once more with the perf-map path, when there is
    one, and the range (0, 2^64 - 1). *)
Theorem each_module_visits
        (fopen : string -> option string) (bcc_perf_map_path : Z -> option string)
        (P : Type) (callback : modulecb P) (pid : Z) (payload : P)
        (ls : list maps_line) :
  fopen (maps_filename pid) = Some (render_maps ls) ->
  forallb wf_line ls = true ->
  let '(p1, cs, stopped) := visit_lines callback ls payload in
  bcc_procutils_each_module fopen bcc_perf_map_path pid callback payload
  = match bcc_perf_map_path pid with
    | Some map_path =>
      Some (0, snd (callback map_path 0 (2 ^ 64 - 1) p1),
            (cs ++ [Call map_path 0 (2 ^ 64 - 1)])%list)
    | None => Some (0, p1, cs)
    end
  /\ (exists k, cs = firstn k (List.map line_call (List.filter line_visited ls)))
  /\ (stopped = false -> cs = List.map line_call (List.filter line_visited ls)).
Proof.
  intros Hopen Hwf.
  pose proof (each_module_on_lines callback fopen bcc_perf_map_path pid payload
                                   ls Hopen Hwf) as Hrun.
  pose proof (visit_lines_calls callback ls payload) as Hcalls.
  destruct (visit_lines callback ls payload) as [[p1 cs] stopped].
  split; [exact Hrun|exact Hcalls].
Qed.

(** The scenario of the specification: /bin/foo is visited, the executable
    heap is not, and the perf-map path comes last. *)
Lemma each_module_visits_witness :
  bcc_procutils_each_module (fun _ => Some (render_maps scenario_maps))
                            perf_map_path_spec 42 keep_going tt
  = Some (0, tt, [Call "/bin/foo" 0x400000 0x410000;
                  Call "/tmp/perf-42.map" 0 (2 ^ 64 - 1)]).
Proof.
  pose proof (each_module_visits (fun _ => Some (render_maps scenario_maps))
                                 perf_map_path_spec unit keep_going 42 tt
                                 scenario_maps eq_refl eq_refl) as H.
  exact (proj1 H).
Defined.

(** ** Lines that do not scan *)



Section Turns.

Variable bcc_perf_map_path : Z -> option string.
Context {P : Type}.
Variable callback : modulecb P.







End Turns.




(** ** Locating a library *)

Lemma prefix_begins_with (needle hay : string) :
  String.prefix needle hay = true <-> begins_with needle hay.
Proof.
  revert hay. induction needle as [|c needle IH]; intros hay.
  - split; [intros _; now exists hay|]. intros _. destruct hay; reflexivity.
  - destruct hay as [|x hay]; simpl.
    + split; [discriminate|]. intros [rest H]. discriminate.
    + destruct (Ascii.ascii_dec c x) as [->|Hne].
      * rewrite IH. split.
        -- intros [rest ->]. now exists rest.
        -- intros [rest H]. injection H as ->. now exists rest.
      * split; [discriminate|]. intros [rest H]. injection H as Hx _.
        congruence.
Qed.

Lemma strstr_contains (hay needle : string) :
  nonnull (strstr hay needle) = true <-> contains hay needle.
Proof.
  induction hay as [|x hay IH].
  - cbn [strstr]. destruct (String.prefix needle "") eqn:Hp.
    + split; [intros _|reflexivity].
      apply prefix_begins_with in Hp as [rest Hrest].
      exists "", rest. exact Hrest.
    + split; [discriminate|]. intros (a & b & Hab).
      assert (String.prefix needle "" = true) as Hp'; [|congruence].
      apply prefix_begins_with. destruct a; [|discriminate].
      now exists b.
  - cbn [strstr]. destruct (String.prefix needle (String x hay)) eqn:Hp.
    + split; [intros _|reflexivity].
      apply prefix_begins_with in Hp as [rest Hrest].
      exists "", rest. exact Hrest.
    + rewrite IH. split.
      * intros (a & b & ->). now exists (String x a), b.
      * intros (a & b & Hab). destruct a as [|y a].
        -- assert (String.prefix needle (String x hay) = true) as Hp';
             [|congruence].
           apply prefix_begins_with. now exists b.
        -- injection Hab as _ ->. now exists a, b.
Qed.


Section WhichSoFacts.

Variable sizeof_ptr : Z.
Variable open_rdonly : string -> option cache_file.
Variable fopen : string -> option string.





End WhichSoFacts.



(** ** Format detection in [load_ld_cache] *)

Lemma byte_val_range (b : byte) : 0 <= byte_val b < 256.
Proof.
  unfold byte_val. pose proof (Byte.to_N_bounded b). lia.
Qed.

Lemma load_u32_range (p : list byte) (off : nat) (v : Z) :
  load_u32 p off = Some v -> 0 <= v < 2 ^ 32.
Proof.
  unfold load_u32. destruct (skipn off p) as [|b0 [|b1 [|b2 [|b3 t]]]];
    try discriminate.
  intros H. injection H as <-. unfold u32_of_bytes.
  pose proof (byte_val_range b0). pose proof (byte_val_range b1).
  pose proof (byte_val_range b2). pose proof (byte_val_range b3). lia.
Qed.

(** [x & ~0x7ULL] clears the three low bits. *)
Lemma land_not_7 (x : Z) :
  0 <= x < 2 ^ 64 -> Z.land x (Z.lnot 7 mod 2 ^ 64) = 8 * (x / 8).
Proof.
  intros Hx.
  rewrite <- (Z.land_ones (Z.lnot 7) 64) by lia.
  rewrite Z.land_assoc, <- Z.ldiff_land.
  change 7 with (Z.ones 3). rewrite Z.ldiff_ones_r by lia.
  rewrite Z.shiftl_mul_pow2, Z.shiftr_div_pow2 by lia.
  rewrite Z.land_ones by lia. change (2 ^ 3) with 8.
  rewrite Z.mod_small; [lia|].
  pose proof (Z.mul_div_le x 8 ltac:(lia)). split; [|lia].
  apply Z.mul_nonneg_nonneg; [apply Z.div_pos; lia|lia].
Qed.

Section Detect.

Variable sizeof_ptr : Z.
Variable open_rdonly : string -> option cache_file.
Hypothesis Hptr : sizeof_ptr = 4 \/ sizeof_ptr = 8.

Lemma size_t_small (x : Z) :
  0 <= x < 2 ^ (8 * sizeof_ptr) -> size_t sizeof_ptr x = x.
Proof. intros H. unfold size_t. now apply Z.mod_small. Qed.

Lemma size_t_le_64 : 2 ^ (8 * sizeof_ptr) <= 2 ^ 64.
Proof. destruct Hptr as [-> | ->]; simpl; lia. Qed.

Lemma cache1_len_round_up (entry_count : Z) :
  0 <= entry_count ->
  12 * entry_count + 71 < 2 ^ (8 * sizeof_ptr) ->
  cache1_len_of sizeof_ptr entry_count = round_up_8 (16 + entry_count * 12).
Proof.
  intros Hc Hfit. pose proof size_t_le_64 as H64.
  unfold cache1_len_of, round_up_8, sizeof_ld_cache1, sizeof_ld_cache1_entry.
  change (Z.of_nat 16) with 16. change (Z.of_nat 12) with 12.
  rewrite (size_t_small (entry_count * 12)) by lia.
  rewrite (size_t_small (16 + entry_count * 12)) by lia.
  rewrite (size_t_small (16 + entry_count * 12 + 7)) by lia.
  rewrite land_not_7 by lia.
  apply size_t_small.
  pose proof (Z.mul_div_le (16 + entry_count * 12 + 7) 8 ltac:(lia)).
  assert (0 <= (16 + entry_count * 12 + 7) / 8) by (apply Z.div_pos; lia).
  lia.
Qed.

Lemma load_ld_cache_detect (st : cache_state) (cache_path : string)
      (f : cache_file) :
  open_rdonly cache_path = Some f ->
  cf_fstat_ok f = true -> cf_mmap_ok f = true ->
  16 <= Z.of_nat (List.length (cf_bytes f)) < 2 ^ (8 * sizeof_ptr) ->
  (forall entry_count,
      load_u32 (mmap_bytes (cf_bytes f)) cache1_entry_count_off = Some entry_count ->
      12 * entry_count + 71 < 2 ^ (8 * sizeof_ptr)) ->
  fst (load_ld_cache sizeof_ptr open_rdonly st cache_path)
  = detect_and_parse exceeds_v2_header st (cf_bytes f).
Proof.
  intros Hopen Hstat Hmap Hsize Hfit.
  unfold load_ld_cache, detect_and_parse. rewrite Hopen, Hstat, Hmap.
  cbn [fst negb orb].
  change (Z.of_nat sizeof_ld_cache1) with 16.
  destruct (Z.ltb_spec (Z.of_nat (List.length (cf_bytes f))) 16); [lia|].
  destruct (memcmp_eq (mmap_bytes (cf_bytes f)) CACHE1_HEADER).
  - destruct (load_u32 (mmap_bytes (cf_bytes f)) cache1_entry_count_off)
      as [entry_count|] eqn:Hcount; [|reflexivity].
    pose proof (load_u32_range _ _ _ Hcount) as Hrange.
    specialize (Hfit entry_count eq_refl).
    rewrite cache1_len_round_up by lia.
    change (Z.of_nat sizeof_ld_cache1_entry) with 12.
    assert (0 <= round_up_8 (16 + entry_count * 12) <= 16 + entry_count * 12 + 7)
      as Hround.
    { unfold round_up_8.
      pose proof (Z.mul_div_le (16 + entry_count * 12 + 7) 8 ltac:(lia)).
      assert (0 <= (16 + entry_count * 12 + 7) / 8) by (apply Z.div_pos; lia).
      lia. }
    unfold exceeds_v2_header. change (Z.of_nat sizeof_ld_cache2) with 48.
    rewrite !size_t_small by lia. reflexivity.
  - unfold read_cache2.
    destruct (memcmp_eq (mmap_bytes (cf_bytes f)) CACHE2_HEADER); reflexivity.
Qed.

End Detect.

(** C4, as stated, fails: in a 64-byte file with a v1 header, no entries
    and 48 further bytes, the remaining file can hold a v2 header, yet the
    file is parsed as pure v1 (and succeeds) instead of as a v2 cache at
    offset 16 (which would be rejected). *)
Lemma load_ld_cache_boundary_counterexample :
  fst (load_ld_cache 8 (cache_on_disk v1_then_zeros) cache_initial LD_SO_CACHE)
  <> detect_and_parse holds_v2_header cache_initial v1_then_zeros.
Proof. vm_compute. discriminate. Qed.

(** C4 (amended): [load_ld_cache] on a mapped file that starts with the v1
    header "ld.so-1.7.0" takes the length of the v1 header plus entry array
    rounded up to a multiple of 8 and parses a v2 cache at that offset when
    the file is strictly larger than that offset plus the 48-byte v2
    header, otherwise it parses the file as pure v1; a file that starts
    with "glibc-ld.so.cache" is parsed as v2 from offset 0; any other
    leading bytes give the result -1. *)
Theorem load_ld_cache_detects
        (sizeof_ptr : Z) (open_rdonly : string -> option cache_file)
        (st : cache_state) (cache_path : string) (f : cache_file) :
  sizeof_ptr = 4 \/ sizeof_ptr = 8 ->
  open_rdonly cache_path = Some f ->
  cf_fstat_ok f = true -> cf_mmap_ok f = true ->
  16 <= Z.of_nat (List.length (cf_bytes f)) < 2 ^ (8 * sizeof_ptr) ->
  (forall entry_count,
      load_u32 (mmap_bytes (cf_bytes f)) cache1_entry_count_off = Some entry_count ->
      12 * entry_count + 71 < 2 ^ (8 * sizeof_ptr)) ->
  let ld_map := mmap_bytes (cf_bytes f) in
  fst (load_ld_cache sizeof_ptr open_rdonly st cache_path)
  = if memcmp_eq ld_map CACHE1_HEADER then
      match load_u32 ld_map cache1_entry_count_off with
      | None => None
      | Some entry_count =>
        let v1_len := round_up_8 (16 + entry_count * 12) in
        if v1_len + 48 <? Z.of_nat (List.length (cf_bytes f))
        then read_cache2 st (skipn (Z.to_nat v1_len) ld_map)
        else read_cache1 ld_map
      end
    else if memcmp_eq ld_map CACHE2_HEADER then read_cache2 st ld_map
    else Some (-1, st).
Proof.
  intros Hptr Hopen Hstat Hmap Hsize Hfit.
  apply (load_ld_cache_detect sizeof_ptr open_rdonly Hptr st cache_path f);
    assumption.
Qed.

(** The boundary file again: parsed as pure v1. *)
Lemma load_ld_cache_detects_witness :
  fst (load_ld_cache 8 (cache_on_disk v1_then_zeros) cache_initial LD_SO_CACHE)
  = read_cache1 (mmap_bytes v1_then_zeros).
Proof.
  refine (load_ld_cache_detects 8 (cache_on_disk v1_then_zeros) cache_initial
            LD_SO_CACHE (CacheFile true true v1_then_zeros)
            (or_intror eq_refl) eq_refl eq_refl eq_refl _ _).
  - vm_compute. split; [discriminate|reflexivity].
  - intros entry_count H. vm_compute in H. injection H as <-. reflexivity.
Defined.

(** ** Loading the cache once *)

Section LoadOnce.

Variable sizeof_ptr : Z.
Variable open_rdonly : string -> option cache_file.

(** With a positive count the table in memory answers the lookup: no
    [open], and the globals stay as they are. *)
Lemma lookup_reuses_table (libname : string) (st : cache_state) :
  0 < lib_cache_count st ->
  exists r,
    ld_cache_lookup sizeof_ptr open_rdonly libname st = (Some (r, st), []).
Proof.
  intros Hpos. unfold ld_cache_lookup.
  destruct (Z.ltb_spec (lib_cache_count st) 0); [lia|].
  destruct (Z.eqb_spec (lib_cache_count st) 0); [lia|]. eauto.
Qed.

(** After a failed load the count is -1 and every lookup returns nothing,
    without an [open]. *)
Lemma lookup_after_failure (libname : string) (st : cache_state) :
  lib_cache_count st < 0 ->
  ld_cache_lookup sizeof_ptr open_rdonly libname st = (Some (None, st), []).
Proof.
  intros Hneg. unfold ld_cache_lookup.
  destruct (Z.ltb_spec (lib_cache_count st) 0); [reflexivity|lia].
Qed.

(** A load that fails leaves the count at -1. *)
Lemma failed_load_is_recorded (libname : string) (st st' : cache_state)
      (ret : Z) (evs : list event) :
  lib_cache_count st = 0 ->
  load_ld_cache sizeof_ptr open_rdonly st LD_SO_CACHE = (Some (ret, st'), evs) ->
  ret < 0 ->
  exists st'',
    ld_cache_lookup sizeof_ptr open_rdonly libname st = (Some (None, st''), evs)
    /\ lib_cache_count st'' = -1.
Proof.
  intros Hzero Hload Hret. unfold ld_cache_lookup.
  rewrite Hzero. cbn [Z.ltb Z.eqb Z.compare]. rewrite Hload.
  destruct (Z.ltb_spec ret 0); [|lia]. eauto.
Qed.

End LoadOnce.

(** C6 on a well-formed cache file without entries: the first lookup
    loads the file successfully and leaves the count at 0, so the second
    lookup opens the file again; when the file has meanwhile gained an
    entry the second lookup returns it, which the table loaded first does
    not hold. *)
Theorem empty_cache_loaded_again :
  bcc_procutils_which_so 8 (cache_on_disk empty_v2_cache) (fun _ => None)
                         "ssl" 0 cache_initial
  = (Some (None, CacheState 0 []), [Ev_open LD_SO_CACHE])
  /\ bcc_procutils_which_so 8 (cache_on_disk empty_v2_cache) (fun _ => None)
                            "ssl" 0 (CacheState 0 [])
     = (Some (None, CacheState 0 []), [Ev_open LD_SO_CACHE])
  /\ fst (bcc_procutils_which_so 8 (cache_on_disk libssl_v2_cache)
                                 (fun _ => None) "ssl" 0 (CacheState 0 []))
     = Some (Some "/usr/lib/libssl.so.1.1",
             CacheState 1 [LdLib "libssl.so.1.1" "/usr/lib/libssl.so.1.1" 0x0303]).
Proof. repeat split; vm_compute; reflexivity. Qed.

(** The scenario of the specification through the loader: a v1 cache with
    "libssl.so.1.1" tagged x86-64, looked up with 8-byte and with 4-byte
    pointers. *)
Example libssl_v1_lookup :
  fst (bcc_procutils_which_so 8 (cache_on_disk libssl_v1_cache) (fun _ => None)
                              "ssl" 0 cache_initial)
  = Some (Some "/usr/lib/libssl.so.1.1",
          CacheState 1 [LdLib "libssl.so.1.1" "/usr/lib/libssl.so.1.1" 0x0303])
  /\ fst (bcc_procutils_which_so 4 (cache_on_disk libssl_v1_cache)
                                 (fun _ => None) "ssl" 0 cache_initial)
     = Some (None,
             CacheState 1 [LdLib "libssl.so.1.1" "/usr/lib/libssl.so.1.1" 0x0303]).
Proof. split; vm_compute; reflexivity. Qed.


(** ** Descriptors of the mount-namespace calls *)

Section MountNSDescriptors.

Variable sys_open : string -> Z.
Variable sys_fstat : Z -> option Z.
Variable sys_setns : Z -> Z.

Lemma enter_mountns_cases (pid : Z) (nc : ns_cookie) :
  let oldns := sys_open curnspath in
  let newns := sys_open (newnspath pid) in
  let '(rc, nc', evs) :=
    bcc_procutils_enter_mountns sys_open sys_fstat sys_setns pid (Some nc) in
  if rc then
    enter_conditions sys_open sys_fstat sys_setns pid
    /\ nc' = Some (NsCookie oldns newns)
    /\ opened_fds sys_open evs = [oldns; newns]
    /\ closed_fds evs = []
    /\ setns_fds evs = [newns]
  else
    ~ enter_conditions sys_open sys_fstat sys_setns pid
    /\ nc' = Some (NsCookie (-1) (-1))
    /\ closed_fds evs = opened_fds sys_open evs
    /\ (setns_fds evs = [] \/ setns_fds evs = [newns]).
Proof.
  cbv zeta. unfold bcc_procutils_enter_mountns, enter_conditions.
  rewrite newnspath_fits.
  change (Z.of_nat (String.length curnspath) =? 4096) with false. cbv iota.
  unfold errout.
  destruct (Z.ltb_spec (sys_open curnspath) 0) as [Ho|Ho].
  { cbn [opened_fds closed_fds setns_fds flat_map app].
    destruct (Z.ltb_spec (sys_open curnspath) 0); [|lia].
    repeat split; auto. intros (? & _). lia. }
  destruct (Z.ltb_spec (-1) (sys_open curnspath)) as [Ho'|?]; [|lia].
  destruct (Z.ltb_spec (sys_open (newnspath pid)) 0) as [Hn|Hn].
  { destruct (Z.ltb_spec (-1) (sys_open (newnspath pid))); [lia|].
    cbn [opened_fds closed_fds setns_fds flat_map app].
    destruct (Z.ltb_spec (sys_open curnspath) 0); [lia|].
    destruct (Z.ltb_spec (sys_open (newnspath pid)) 0); [|lia].
    repeat split; auto. intros (_ & ? & _). lia. }
  destruct (Z.ltb_spec (-1) (sys_open (newnspath pid))) as [Hn'|?]; [|lia].
  assert (opened_fds sys_open [Ev_open curnspath; Ev_open (newnspath pid)]
          = [sys_open curnspath; sys_open (newnspath pid)]) as Hopened.
  { cbn [opened_fds flat_map app].
    destruct (Z.ltb_spec (sys_open curnspath) 0); [lia|].
    destruct (Z.ltb_spec (sys_open (newnspath pid)) 0); [lia|]. reflexivity. }
  cbn [opened_fds flat_map app] in Hopened.
  destruct (sys_fstat (sys_open curnspath)) as [o|] eqn:Hfo.
  2:{ cbn [opened_fds closed_fds setns_fds flat_map app]; rewrite Hopened.
      repeat split; auto. intros (_ & _ & (o' & n' & Ho'' & _) & _).
      discriminate. }
  destruct (sys_fstat (sys_open (newnspath pid))) as [n|] eqn:Hfn.
  2:{ cbn [opened_fds closed_fds setns_fds flat_map app]; rewrite Hopened.
      repeat split; auto. intros (_ & _ & (o' & n' & _ & Hn'' & _) & _).
      discriminate. }
  destruct (Z.eqb_spec o n) as [Heq|Hne].
  { cbn [opened_fds closed_fds setns_fds flat_map app]; rewrite Hopened.
    repeat split; auto. intros (_ & _ & (o' & n' & Ho'' & Hn'' & Hd) & _).
    congruence. }
  destruct (Z.ltb_spec (sys_setns (sys_open (newnspath pid))) 0) as [Hs|Hs];
    cbn [opened_fds closed_fds setns_fds flat_map app]; rewrite Hopened.
  - repeat split; auto. intros (_ & _ & _ & ?). lia.
  - repeat split; try assumption. exists o, n. auto.
Qed.

Lemma exit_mountns_entered (oldns newns : Z) :
  0 <= oldns -> 0 <= newns ->
  bcc_procutils_exit_mountns sys_setns (Some (NsCookie oldns newns))
  = (sys_setns oldns =? 0, Some (NsCookie (-1) (-1)),
     [Ev_setns oldns; Ev_close oldns; Ev_close newns]).
Proof.
  intros Ho Hn. unfold bcc_procutils_exit_mountns. cbn [nsc_oldns nsc_newns].
  destruct (Z.eqb_spec oldns (-1)); [lia|].
  destruct (Z.eqb_spec newns (-1)); [lia|]. cbn [orb].
  destruct (Z.ltb_spec (-1) oldns); [|lia].
  destruct (Z.ltb_spec (-1) newns); [|lia]. reflexivity.
Qed.

End MountNSDescriptors.

(** X1: [bcc_procutils_enter_mountns] never leaks a descriptor.  When it
    returns true the cookie holds the two descriptors it opened, none was
    closed, and [setns] was called once, on the target's descriptor; when
    it returns false, for whatever reason, the cookie holds -1 in both
    fields and every descriptor an [open] returned has been closed, each
    once and in the order opened. *)
Theorem enter_mountns_no_leak
        (sys_open : string -> Z) (sys_fstat : Z -> option Z)
        (sys_setns : Z -> Z) (pid : Z) (nc : ns_cookie) :
  let '(rc, nc', evs) :=
    bcc_procutils_enter_mountns sys_open sys_fstat sys_setns pid (Some nc) in
  if rc then
    nc' = Some (NsCookie (sys_open curnspath) (sys_open (newnspath pid)))
    /\ opened_fds sys_open evs = [sys_open curnspath; sys_open (newnspath pid)]
    /\ closed_fds evs = []
    /\ setns_fds evs = [sys_open (newnspath pid)]
  else
    nc' = Some (NsCookie (-1) (-1))
    /\ closed_fds evs = opened_fds sys_open evs.
Proof.
  pose proof (enter_mountns_cases sys_open sys_fstat sys_setns pid nc) as H.
  cbv zeta in H.
  destruct (bcc_procutils_enter_mountns sys_open sys_fstat sys_setns pid
                                        (Some nc)) as [[rc nc'] evs].
  destruct rc; tauto.
Qed.

(** X2: [bcc_procutils_enter_mountns] returns true exactly when both
    namespace files open, both [fstat] calls succeed, the two inodes
    differ and [setns] on the target's descriptor does not fail; [setns]
    is called at most once, and only on the target's descriptor. *)
Theorem enter_mountns_succeeds_iff
        (sys_open : string -> Z) (sys_fstat : Z -> option Z)
        (sys_setns : Z -> Z) (pid : Z) (nc : ns_cookie) :
  let '(rc, _, evs) :=
    bcc_procutils_enter_mountns sys_open sys_fstat sys_setns pid (Some nc) in
  (rc = true <-> enter_conditions sys_open sys_fstat sys_setns pid)
  /\ (setns_fds evs = [] \/ setns_fds evs = [sys_open (newnspath pid)]).
Proof.
  pose proof (enter_mountns_cases sys_open sys_fstat sys_setns pid nc) as H.
  cbv zeta in H.
  destruct (bcc_procutils_enter_mountns sys_open sys_fstat sys_setns pid
                                        (Some nc)) as [[rc nc'] evs].
  destruct rc.
  - split; [tauto|]. right. tauto.
  - split; [|tauto]. split; [discriminate|]. tauto.
Qed.

(** Both namespace files open and report different inodes, and [setns]
    succeeds: the namespace is entered. *)
Lemma enter_mountns_succeeds_iff_witness :
  fst (fst (bcc_procutils_enter_mountns
              (fun p => if String.eqb p "/proc/self/ns/mnt" then 3 else 4)
              (fun fd => Some (4026531840 + fd)) (fun _ => 0)
              1234 (Some (NsCookie 0 0)))) = true.
Proof.
  pose proof (enter_mountns_succeeds_iff
                (fun p => if String.eqb p "/proc/self/ns/mnt" then 3 else 4)
                (fun fd => Some (4026531840 + fd)) (fun _ => 0)
                1234 (NsCookie 0 0)) as H.
  cbv beta iota zeta delta [fst] in *.
  destruct (bcc_procutils_enter_mountns _ _ _ 1234 (Some (NsCookie 0 0)))
    as [[rc nc'] evs].
  apply (proj1 H). unfold enter_conditions. repeat split; try discriminate.
  exists 4026531843, 4026531844. repeat split. discriminate.
Defined.

(** X3: after a successful [bcc_procutils_enter_mountns], one
    [bcc_procutils_exit_mountns] calls [setns] on the saved descriptor of
    the original namespace, closes both descriptors and sets both fields
    of the cookie to -1, and it returns true exactly when that [setns]
    returned 0; so every descriptor opened is closed even when switching
    back fails.  A second exit makes no system call and returns false. *)
Theorem enter_then_exit_mountns
        (sys_open : string -> Z) (sys_fstat : Z -> option Z)
        (sys_setns : Z -> Z) (pid : Z) (nc : ns_cookie)
        (nc1 : option ns_cookie) (evs1 : list event) :
  bcc_procutils_enter_mountns sys_open sys_fstat sys_setns pid (Some nc)
  = (true, nc1, evs1) ->
  let '(rc2, nc2, evs2) := bcc_procutils_exit_mountns sys_setns nc1 in
  rc2 = (sys_setns (sys_open curnspath) =? 0)
  /\ nc2 = Some (NsCookie (-1) (-1))
  /\ evs2 = [Ev_setns (sys_open curnspath); Ev_close (sys_open curnspath);
             Ev_close (sys_open (newnspath pid))]
  /\ closed_fds (evs1 ++ evs2) = opened_fds sys_open evs1
  /\ bcc_procutils_exit_mountns sys_setns nc2 = (false, nc2, []).
Proof.
  intros Henter.
  pose proof (enter_mountns_cases sys_open sys_fstat sys_setns pid nc) as H.
  cbv zeta in H. rewrite Henter in H.
  destruct H as ((Ho & Hn & _) & -> & Hopened & Hclosed & _).
  rewrite exit_mountns_entered by assumption.
  repeat split.
  unfold closed_fds in *. rewrite flat_map_app, Hclosed, Hopened. reflexivity.
Qed.

Lemma enter_then_exit_mountns_witness :
  let sys_open := fun p => if String.eqb p "/proc/self/ns/mnt" then 3 else 4 in
  let sys_fstat := fun fd => Some (4026531840 + fd) in
  let sys_setns := fun fd => if fd =? 3 then -1 else 0 in
  let '(rc2, nc2, evs2) :=
    bcc_procutils_exit_mountns sys_setns (Some (NsCookie 3 4)) in
  rc2 = false
  /\ nc2 = Some (NsCookie (-1) (-1))
  /\ evs2 = [Ev_setns 3; Ev_close 3; Ev_close 4]
  /\ closed_fds ([Ev_open "/proc/self/ns/mnt"; Ev_open "/proc/1234/ns/mnt";
                  Ev_fstat 3; Ev_fstat 4; Ev_setns 4] ++ evs2)
     = opened_fds sys_open
                  [Ev_open "/proc/self/ns/mnt"; Ev_open "/proc/1234/ns/mnt";
                   Ev_fstat 3; Ev_fstat 4; Ev_setns 4]
  /\ bcc_procutils_exit_mountns sys_setns nc2 = (false, nc2, []).
Proof.
  exact (enter_then_exit_mountns
           (fun p => if String.eqb p "/proc/self/ns/mnt" then 3 else 4)
           (fun fd => Some (4026531840 + fd))
           (fun fd => if fd =? 3 then -1 else 0)
           1234 (NsCookie 0 0) (Some (NsCookie 3 4))
           [Ev_open "/proc/self/ns/mnt"; Ev_open "/proc/1234/ns/mnt";
            Ev_fstat 3; Ev_fstat 4; Ev_setns 4]
           eq_refl).
Defined.

(** ** Kernel symbols *)

Lemma fgets_line_n (n : nat) (s rest : string) :
  no_newline s = true -> (String.length s + 1 < n)%nat ->
  fgets n (s ++ newline ++ rest) = Some (s ++ newline, rest).
Proof.
  intros Hs Hlen. unfold fgets.
  rewrite fgets_aux_line by (assumption || lia).
  destruct s; reflexivity.
Qed.

Lemma strtoull_end_field (ds rest : string) :
  nonempty ds = true -> forallb_string isxdigit ds = true ->
  strtoull_end (ds ++ String " " rest) = (hex_field ds, String " " rest).
Proof.
  intros Hne Hds. destruct ds as [|d ds]; [discriminate|].
  pose proof Hds as Hds'. apply forallb_string_cons in Hds' as [Hd Hrun].
  unfold strtoull_end.
  change (String d ds ++ String " " rest) with (String d (ds ++ String " " rest)).
  rewrite skip_space_id by now apply xdigit_not_space.
  rewrite scan_sign_xdigit by exact Hd.
  assert (span isxdigit (String d (ds ++ String " " rest))
          = (String d ds, String " " rest)) as Hspan.
  { change (String d (ds ++ String " " rest))
      with (String d ds ++ String " " rest).
    now apply span_run. }
  assert (exists x t, ds ++ String " " rest = String x t
                      /\ (Ascii.eqb x "x" || Ascii.eqb x "X")%bool = false)
    as (x & t & Hxt & Hx).
  { destruct ds as [|e ds'].
    - exists " "%char, rest. split; reflexivity.
    - exists e, (ds' ++ String " " rest). split; [reflexivity|].
      apply forallb_string_cons in Hrun as [He _].
      destruct (xdigit_not_x e He) as [H1 H2].
      apply Ascii.eqb_neq in H1, H2. now rewrite H1, H2. }
  rewrite Hxt in *.
  destruct d as [[] [] [] [] [] [] [] []]; try discriminate Hd;
    try (rewrite Hx); rewrite Hspan; reflexivity.
Qed.

Lemma ksym_name_span (l : ksym_line) (rest : string) :
  wf_ksym l = true ->
  fst (span (fun c => negb (isspace c)) (ks_name l ++ ks_tail l ++ newline))
  = ks_name l.
Proof.
  unfold wf_ksym. rewrite !andb_true_iff.
  intros ((((((_ & _) & _) & Hname) & Htail) & _) & _).
  assert (exists c t, ks_tail l ++ newline = String c t /\ isspace c = true)
    as (c & t & -> & Hc).
  { destruct (ks_tail l) as [|c t].
    - exists "010"%char, "". split; reflexivity.
    - exists c, (t ++ newline). split; [reflexivity|exact Htail]. }
  rewrite span_run; [reflexivity|exact Hname|]. now rewrite Hc.
Qed.

Lemma render_ksym_assoc (l : ksym_line) (rest : string) :
  render_ksym l ++ rest
  = (ks_addr l ++ String " " (String (ks_type l)
                                (String " " (ks_name l ++ ks_tail l))))
    ++ newline ++ rest.
Proof.
  unfold render_ksym. rewrite !append_assoc. cbn [append].
  rewrite !append_assoc. reflexivity.
Qed.

Lemma no_newline_xdigits (s : string) :
  forallb_string isxdigit s = true -> no_newline s = true.
Proof.
  induction s as [|c s IH]; intros H; [reflexivity|].
  apply forallb_string_cons in H as [Hc Hs].
  apply forallb_string_cons. split; [|now apply IH].
  destruct (Ascii.eqb_spec c "010") as [->|]; [discriminate Hc|reflexivity].
Qed.

Lemma no_newline_nonspace (s : string) :
  forallb_string (fun c => negb (isspace c)) s = true -> no_newline s = true.
Proof.
  induction s as [|c s IH]; intros H; [reflexivity|].
  apply forallb_string_cons in H as [Hc Hs].
  apply forallb_string_cons. split; [|now apply IH].
  destruct (Ascii.eqb_spec c "010") as [->|]; [discriminate Hc|reflexivity].
Qed.

Lemma ksym_line_no_newline (l : ksym_line) :
  wf_ksym l = true ->
  no_newline (ks_addr l ++ String " " (String (ks_type l)
                                         (String " " (ks_name l ++ ks_tail l))))
  = true.
Proof.
  unfold wf_ksym. rewrite !andb_true_iff.
  intros ((((((_ & Haddr) & Hty) & Hname) & _) & Htail) & _).
  apply no_newline_append; [now apply no_newline_xdigits|].
  apply forallb_string_cons. split; [reflexivity|].
  apply forallb_string_cons. split; [exact Hty|].
  apply forallb_string_cons. split; [reflexivity|].
  apply no_newline_append; [now apply no_newline_nonspace|exact Htail].
Qed.

Section KsymFacts.

Variable geteuid : Z.
Variable fopen : string -> option string.
Context {P : Type}.
Variable callback : ksymcb P.

(** One turn on a well-formed line. *)
Lemma each_ksym_loop_line (fuel : nat) (l : ksym_line) (rest : string)
      (payload : P) (log : list (string * Z)) :
  wf_ksym l = true ->
  each_ksym_loop (S fuel) callback (render_ksym l ++ rest) payload log
  = each_ksym_loop fuel callback rest
                   (callback (ks_name l) (hex_field (ks_addr l)) payload)
                   (log ++ [ksym_call l])%list.
Proof.
  intros Hwf. pose proof (ksym_line_no_newline l Hwf) as Hnl.
  pose proof (ksym_name_span l rest Hwf) as Hname.
  pose proof Hwf as Hwf'. unfold wf_ksym in Hwf'.
  rewrite !andb_true_iff in Hwf'.
  destruct Hwf' as ((((((Hne & Haddr) & _) & _) & _) & _) & Hlen).
  apply Nat.ltb_lt in Hlen.
  cbn [each_ksym_loop]. rewrite render_ksym_assoc.
  rewrite fgets_line_n; [|exact Hnl|].
  2:{ pose proof (f_equal String.length (render_ksym_assoc l "")) as Hl.
      rewrite append_nil_r in Hl. rewrite Hl in Hlen.
      rewrite (length_append _ (newline ++ "")) in Hlen.
      change (String.length (newline ++ "")) with 1%nat in Hlen. lia. }
  rewrite append_assoc. cbn [append].
  rewrite strtoull_end_field by assumption.
  cbn [plus3]. rewrite append_assoc, Hname. reflexivity.
Qed.

Lemma each_ksym_loop_lines (ls : list ksym_line) :
  forallb wf_ksym ls = true ->
  forall fuel payload log,
    (List.length ls < fuel)%nat ->
    each_ksym_loop fuel callback (render_ksyms ls) payload log
    = Some (fold_left (fun p l => callback (ks_name l) (hex_field (ks_addr l)) p)
                      ls payload,
            (log ++ List.map ksym_call ls)%list).
Proof.
  induction ls as [|l ls IH]; intros Hwf fuel payload log Hfuel.
  - destruct fuel as [|fuel]; [simpl in Hfuel; lia|].
    simpl. now rewrite app_nil_r.
  - simpl in Hwf. apply andb_true_iff in Hwf as [Hl Hwf].
    destruct fuel as [|fuel]; [simpl in Hfuel; lia|]. simpl in Hfuel.
    cbn [render_ksyms]. rewrite each_ksym_loop_line by exact Hl.
    rewrite IH by (assumption || lia).
    cbn [fold_left List.map]. now rewrite <- app_assoc.
Qed.

Lemma render_ksyms_lines (ls : list ksym_line) :
  (List.length ls <= String.length (render_ksyms ls))%nat.
Proof.
  induction ls as [|l ls IH]; simpl; [lia|].
  rewrite length_append. unfold render_ksym. rewrite !length_append.
  simpl. lia.
Qed.

Lemma each_ksym_on_lines (first : string) (ls : list ksym_line) (payload : P) :
  geteuid = 0 ->
  fopen "/proc/kallsyms" = Some (first ++ newline ++ render_ksyms ls) ->
  no_newline first = true -> (String.length first + 1 < 2048)%nat ->
  forallb wf_ksym ls = true ->
  bcc_procutils_each_ksym geteuid fopen callback payload
  = Some (0,
          fold_left (fun p l => callback (ks_name l) (hex_field (ks_addr l)) p)
                    ls payload,
          List.map ksym_call ls).
Proof.
  intros Hroot Hopen Hfirst Hlen Hwf. unfold bcc_procutils_each_ksym.
  rewrite Hroot, Hopen. cbn [Z.eqb negb].
  rewrite fgets_line_n by assumption.
  rewrite each_ksym_loop_lines
    by (assumption || (pose proof (render_ksyms_lines ls); lia)).
  reflexivity.
Qed.

Lemma each_ksym_error (payload : P) :
  bcc_procutils_each_ksym geteuid fopen callback payload
  = Some (-1, payload, [])
  <-> geteuid <> 0 \/ fopen "/proc/kallsyms" = None
      \/ fopen "/proc/kallsyms" = Some "".
Proof.
  unfold bcc_procutils_each_ksym.
  destruct (Z.eqb_spec geteuid 0) as [Hr|Hr]; cbn [negb]; [|tauto].
  destruct (fopen "/proc/kallsyms") as [k|]; [|tauto].
  destruct k as [|c k]; [cbn [fgets]; tauto|].
  destruct (fgets 2048 (String c k)) as [[line k']|] eqn:Hg;
    [|discriminate Hg].
  destruct (each_ksym_loop _ callback k' payload []) as [[p log]|].
  - split; [discriminate|]. intros [H|[H|H]]; [lia|discriminate|discriminate].
  - split; [discriminate|]. intros [H|[H|H]]; [lia|discriminate|discriminate].
Qed.

End KsymFacts.

(** X4: run as root on a /proc/kallsyms whose first line is followed by
    well-formed symbol lines, [bcc_procutils_each_ksym] returns 0 after
    invoking the callback once per line after the first, in file order,
    with the line's name (cut at the white space before a module) and its
    address; the first line of the file is read and dropped, whatever it
    holds. *)
Theorem each_ksym_reports_lines
        (geteuid : Z) (fopen : string -> option string) (P : Type)
        (callback : ksymcb P) (payload : P) (first : string)
        (ls : list ksym_line) :
  geteuid = 0 ->
  fopen "/proc/kallsyms" = Some (first ++ newline ++ render_ksyms ls) ->
  no_newline first = true -> (String.length first + 1 < 2048)%nat ->
  forallb wf_ksym ls = true ->
  bcc_procutils_each_ksym geteuid fopen callback payload
  = Some (0,
          fold_left (fun p l => callback (ks_name l) (hex_field (ks_addr l)) p)
                    ls payload,
          List.map ksym_call ls).
Proof. apply each_ksym_on_lines. Qed.

(** X5: [bcc_procutils_each_ksym] returns -1, without invoking the
    callback, exactly when the caller is not root, /proc/kallsyms does not
    open, or the file is empty. *)
Theorem each_ksym_fails_iff
        (geteuid : Z) (fopen : string -> option string) (P : Type)
        (callback : ksymcb P) (payload : P) :
  bcc_procutils_each_ksym geteuid fopen callback payload
  = Some (-1, payload, [])
  <-> geteuid <> 0 \/ fopen "/proc/kallsyms" = None
      \/ fopen "/proc/kallsyms" = Some "".
Proof. apply each_ksym_error. Qed.

(** The first line is dropped, the two after it are reported. *)
Lemma each_ksym_reports_lines_witness :
  bcc_procutils_each_ksym
    0 (fun _ => Some ("0000000000000000 A fixed_percpu_data" ++ newline
                      ++ render_ksyms kallsyms_example))
    count_symbols 0%nat
  = Some (0, 2%nat, [("_text", 0xffffffff81000000); ("foo", 0xffffffffa0000100)]).
Proof.
  refine (each_ksym_reports_lines
            0 (fun _ => Some ("0000000000000000 A fixed_percpu_data" ++ newline
                              ++ render_ksyms kallsyms_example))
            nat count_symbols 0%nat "0000000000000000 A fixed_percpu_data"
            kallsyms_example eq_refl eq_refl eq_refl _ eq_refl).
  vm_compute. lia.
Defined.

(** Not root: -1, although the file is there. *)
Lemma each_ksym_fails_iff_witness :
  bcc_procutils_each_ksym 1000 (fun _ => Some (render_ksyms kallsyms_example))
                          count_symbols 0%nat
  = Some (-1, 0%nat, []).
Proof.
  apply (proj2 (each_ksym_fails_iff
                  1000 (fun _ => Some (render_ksyms kallsyms_example))
                  nat count_symbols 0%nat)).
  left. discriminate.
Defined.

(** ** Language detection *)

Lemma language_of_mapname_find (mapname : string) (langs : list string) :
  forall libc,
    language_of_mapname langs mapname libc
    = match List.find (fun lang => nonnull (strstr mapname ("/lib" ++ lang)))
                      langs with
      | Some lang => (Some lang, snd (language_of_mapname langs mapname libc))
      | None =>
        (None,
         match langs with
         | [] => libc
         | _ => (libc || libc_test mapname)%bool
         end)
      end.
Proof.
  induction langs as [|lang langs IH]; intros libc; [reflexivity|].
  cbn [language_of_mapname List.find].
  destruct (nonnull (strstr mapname ("/lib" ++ lang))); [reflexivity|].
  rewrite IH.
  destruct (List.find _ langs) as [l|]; [reflexivity|].
  f_equal. unfold libc_test.
  destruct (strstr mapname "libc") as [str|].
  - destruct (libc_suffix str), libc, langs; reflexivity.
  - destruct libc, langs; reflexivity.
Qed.

Lemma find_split {A : Type} (f : A -> bool) (l : list A) (x : A) :
  List.find f l = Some x ->
  exists pre post,
    l = (pre ++ x :: post)%list /\ f x = true
    /\ forall y, In y pre -> f y = false.
Proof.
  induction l as [|a l IH]; intros H; [discriminate|].
  cbn [List.find] in H. destruct (f a) eqn:Hfa.
  - injection H as <-. exists [], l. repeat split; [exact Hfa|].
    intros y [].
  - destruct (IH H) as (pre & post & -> & Hx & Hpre).
    exists (a :: pre), post. repeat split; [exact Hx|].
    intros y [<-|Hy]; [exact Hfa|now apply Hpre].
Qed.

Section LanguageFacts.

Variable realpath : string -> option string.
Variable fopen : string -> option string.

Lemma language_loop_line (fuel : nat) (l : maps_line) (rest : string)
      (libc : bool) :
  wf_line l = true ->
  language_loop (S fuel) (render_line l ++ rest) libc
  = match line_language l with
    | Some lang => Some (Some lang)
    | None => language_loop fuel rest (libc || line_libc l)%bool
    end.
Proof.
  intros Hwf. destruct (read_line true l rest Hwf) as (endline & Hs & Hg & Hm).
  cbn [language_loop]. rewrite Hs. cbn beta iota.
  rewrite (wf_line_fits l Hwf). cbn [negb]. rewrite Hg, Hm.
  change (6 =? 6) with true. change (6 =? 0) with false.
  change (6 =? EOF) with false. cbn [negb andb].
  rewrite language_of_mapname_find. unfold line_language, languages.
  destruct (List.find _ _) as [lang|]; reflexivity.
Qed.

Lemma language_loop_lines (ls : list maps_line) :
  forallb wf_line ls = true ->
  forall fuel libc,
    (List.length ls < fuel)%nat ->
    language_loop fuel (render_maps ls) libc
    = Some (match first_language ls with
            | Some lang => Some lang
            | None => if (libc || existsb line_libc ls)%bool
                      then Some language_c else None
            end).
Proof.
  induction ls as [|l ls IH]; intros Hwf fuel libc Hfuel.
  - destruct fuel as [|fuel]; [simpl in Hfuel; lia|].
    cbn [first_language existsb]. rewrite orb_false_r. reflexivity.
  - simpl in Hwf. apply andb_true_iff in Hwf as [Hl Hwf].
    destruct fuel as [|fuel]; [simpl in Hfuel; lia|]. simpl in Hfuel.
    cbn [render_maps first_language existsb].
    rewrite language_loop_line by exact Hl.
    destruct (line_language l) as [lang|]; [reflexivity|].
    rewrite IH by (assumption || lia). now rewrite orb_assoc.
Qed.

Lemma language_on_lines (pid : Z) (ls : list maps_line) :
  language_of_exe realpath pid = None ->
  fopen (maps_filename pid) = Some (render_maps ls) ->
  forallb wf_line ls = true ->
  bcc_procutils_language realpath fopen pid
  = Some (match first_language ls with
          | Some lang => Some lang
          | None => if existsb line_libc ls then Some language_c else None
          end).
Proof.
  intros Hexe Hopen Hwf. unfold bcc_procutils_language. rewrite Hexe, Hopen.
  rewrite language_loop_lines
    by (assumption || (pose proof (render_maps_lines ls Hwf); lia)).
  reflexivity.
Qed.

Lemma language_on_exe (pid : Z) (line lang : string) :
  realpath (exe_filename pid) = Some line ->
  In lang languages -> contains line lang ->
  exists pre found post,
    languages = (pre ++ found :: post)%list
    /\ contains line found
    /\ (forall l, In l pre -> ~ contains line l)
    /\ bcc_procutils_language realpath fopen pid = Some (Some found).
Proof.
  intros Hreal Hin Hcont.
  unfold bcc_procutils_language, language_of_exe. rewrite Hreal.
  destruct (List.find (fun l => nonnull (strstr line l)) languages)
    as [found|] eqn:Hfind.
  - destruct (find_split _ _ _ Hfind) as (pre & post & Hsplit & Hf & Hpre).
    exists pre, found, post. repeat split.
    + exact Hsplit.
    + now apply strstr_contains.
    + intros l Hl Hc. apply strstr_contains in Hc.
      rewrite (Hpre l Hl) in Hc. discriminate.
  - exfalso. apply strstr_contains in Hcont.
    pose proof (find_none _ _ Hfind lang Hin) as Hn. cbv beta in Hn.
    rewrite Hcont in Hn. discriminate.
Qed.

Lemma language_loop_range (fuel : nat) :
  forall procfile libc lang,
    language_loop fuel procfile libc = Some (Some lang) ->
    In lang languages \/ lang = language_c.
Proof.
  induction fuel as [|fuel IH]; intros procfile libc lang H; [discriminate|].
  cbn [language_loop] in H.
  destruct (fscanf (maps_format true) [] procfile) as [[ret vals] fp1].
  destruct (tokens_fit 8 vals); cbn [negb] in H; [|discriminate H].
  assert (forall b, Some (if b : bool then Some language_c else None)
                    = Some (Some lang) -> lang = language_c) as Hend.
  { intros [] Hb; [now injection Hb as <-|discriminate]. }
  destruct (fgets 4096 fp1) as [[line fp2]|]; [|right; eapply Hend; eauto].
  assert (forall b,
             (if (negb (ret =? 0) && negb (ret =? EOF))%bool
              then language_loop fuel fp2 b
              else Some (if b then Some language_c else None))
             = Some (Some lang) ->
             In lang languages \/ lang = language_c) as Hagain.
  { intros b Hb. destruct (negb (ret =? 0) && negb (ret =? EOF))%bool.
    - eapply IH; eauto.
    - right. eapply Hend; eauto. }
  destruct (ret =? 6); [|eapply Hagain; eauto].
  rewrite language_of_mapname_find in H.
  destruct (List.find _ languages) as [found|] eqn:Hfind.
  - injection H as <-. left. apply (find_some _ _ Hfind).
  - eapply Hagain; eauto.
Qed.

End LanguageFacts.

(** X6: the path of the executable decides first.  When /proc/<pid>/exe
    resolves to a path that contains one of the five language names,
    [bcc_procutils_language] returns the first of "java", "python", "ruby",
    "php", "node", in that order, that occurs anywhere in the path; the
    maps file is not consulted. *)
Theorem language_from_exe
        (realpath : string -> option string) (fopen : string -> option string)
        (pid : Z) (line lang : string) :
  realpath (exe_filename pid) = Some line ->
  In lang languages -> contains line lang ->
  exists pre found post,
    languages = (pre ++ found :: post)%list
    /\ contains line found
    /\ (forall l, In l pre -> ~ contains line l)
    /\ forall fopen', bcc_procutils_language realpath fopen' pid
                      = Some (Some found).
Proof.
  intros Hreal Hin Hcont.
  destruct (language_on_exe realpath fopen pid line lang Hreal Hin Hcont)
    as (pre & found & post & Hsplit & Hc & Hpre & _).
  exists pre, found, post. repeat split; try assumption.
  intros fopen'.
  destruct (language_on_exe realpath fopen' pid line lang Hreal Hin Hcont)
    as (pre' & found' & post' & Hsplit' & Hc' & Hpre' & Hres).
  rewrite Hres. do 2 f_equal.
  (* the first occurrence is unique *)
  clear Hres. revert pre' Hsplit' Hpre'. rewrite Hsplit. clear Hsplit.
  induction pre as [|a pre IH]; intros [|b pre'] Hs Hp'.
  - now injection Hs.
  - injection Hs as <- _. exfalso. apply (Hp' found); [now left|exact Hc].
  - injection Hs as -> _. exfalso. apply (Hpre found'); [now left|exact Hc'].
  - injection Hs as <- Hs. apply (IH (fun l Hl => Hpre l (or_intror Hl)) pre' Hs).
    intros l Hl. apply Hp'. now right.
Qed.

(** "/opt/javascript/bin/node" contains "java", which comes before
    "node". *)
Lemma language_from_exe_witness :
  exists pre found post,
    languages = (pre ++ found :: post)%list
    /\ contains "/opt/javascript/bin/node" found
    /\ (forall l, In l pre -> ~ contains "/opt/javascript/bin/node" l)
    /\ forall fopen',
        bcc_procutils_language (fun _ => Some "/opt/javascript/bin/node")
                               fopen' 7
        = Some (Some found).
Proof.
  apply (language_from_exe (fun _ => Some "/opt/javascript/bin/node")
                           (fun _ => None) 7 "/opt/javascript/bin/node" "node").
  - reflexivity.
  - simpl. tauto.
  - exists "/opt/javascript/bin/", "". reflexivity.
Defined.

(** X7: when the executable's path names no language and the maps file
    holds well-formed lines, [bcc_procutils_language] returns the language
    of the first line, in file order, whose pathname contains "/lib"
    followed by a language name (for that line, the first of the five in
    list order); without such a line it returns "c" if on some line "libc"
    is followed by '-' or '.' at its first occurrence in the pathname, and
    a null pointer otherwise. *)
Theorem language_from_maps
        (realpath : string -> option string) (fopen : string -> option string)
        (pid : Z) (ls : list maps_line) :
  language_of_exe realpath pid = None ->
  fopen (maps_filename pid) = Some (render_maps ls) ->
  forallb wf_line ls = true ->
  bcc_procutils_language realpath fopen pid
  = Some (match first_language ls with
          | Some lang => Some lang
          | None => if existsb line_libc ls then Some language_c else None
          end).
Proof. apply language_on_lines. Qed.

(** Only the C library is mapped: "c". *)
Lemma language_from_maps_witness :
  bcc_procutils_language (fun _ => Some "/bin/foo")
                         (fun _ => Some (render_maps [scenario_foo; libc_line]))
                         42
  = Some (Some "c").
Proof.
  exact (language_from_maps (fun _ => Some "/bin/foo")
           (fun _ => Some (render_maps [scenario_foo; libc_line])) 42
           [scenario_foo; libc_line] eq_refl eq_refl eq_refl).
Defined.

(** X8: whatever /proc/<pid>/exe resolves to and whatever the maps file
    holds, a string returned by [bcc_procutils_language] is one of "java",
    "python", "ruby", "php", "node" and "c". *)
Theorem language_result_range
        (realpath : string -> option string) (fopen : string -> option string)
        (pid : Z) (lang : string) :
  bcc_procutils_language realpath fopen pid = Some (Some lang) ->
  In lang (languages ++ [language_c]).
Proof.
  intros H. apply in_or_app. unfold bcc_procutils_language in H.
  destruct (language_of_exe realpath pid) as [found|] eqn:Hexe.
  - injection H as <-. left. unfold language_of_exe in Hexe.
    destruct (realpath (exe_filename pid)) as [line|]; [|discriminate].
    apply (find_some _ _ Hexe).
  - destruct (fopen (maps_filename pid)) as [procfile|]; [|discriminate].
    destruct (language_loop_range _ _ _ _ H) as [Hl| ->]; [now left|].
    right. now left.
Qed.

Lemma language_result_range_witness :
  In "python" (languages ++ [language_c]).
Proof.
  apply (language_result_range (fun _ => Some "/usr/bin/python3.8")
                               (fun _ => None) 9 "python").
  reflexivity.
Defined.

(** ** What the scans never report *)

Lemma chomp_no_newline (s : string) : no_newline (chomp s) = true.
Proof.
  induction s as [|c s IH]; [reflexivity|]. simpl.
  destruct (Ascii.eqb c "010") eqn:Hc; [reflexivity|].
  apply forallb_string_cons. split; [now rewrite Hc|exact IH].
Qed.

Lemma skip_space_no_newline (s : string) :
  no_newline s = true -> no_newline (skip_space s) = true.
Proof.
  induction s as [|c s IH]; intros H; [reflexivity|].
  simpl. destruct (isspace c); [|exact H].
  apply forallb_string_cons in H as [_ H]. now apply IH.
Qed.

Lemma skip_space_idem (s : string) : skip_space (skip_space s) = skip_space s.
Proof.
  induction s as [|c s IH]; [reflexivity|].
  simpl. destruct (isspace c) eqn:Hc; [exact IH|]. simpl. now rewrite Hc.
Qed.

Lemma to_uint64_range (x : Z) : 0 <= to_uint64 x < 2 ^ 64.
Proof. unfold to_uint64. apply Z.mod_pos_bound. lia. Qed.

Section ScanInvariant.

Context {P : Type}.
Variable callback : modulecb P.

Lemma each_module_loop_calls (fuel : nat) :
  forall procmap payload log payload' log',
    each_module_loop fuel callback procmap payload log = Some (payload', log') ->
    exists new, log' = (log ++ new)%list /\ Forall scan_call_ok new.
Proof.
  induction fuel as [|fuel IH]; intros procmap payload log payload' log' H;
    [discriminate|].
  cbn [each_module_loop] in H.
  destruct (fscanf (maps_format true) [] procmap) as [[ret vals] fp1].
  destruct (tokens_fit 8 vals); cbn [negb] in H; [|discriminate H].
  destruct (fgets 4096 fp1) as [[line fp2]|].
  2:{ injection H as _ <-. exists []. now rewrite app_nil_r. }
  assert (forall p l,
             (if (negb (ret =? 0) && negb (ret =? EOF))%bool
              then each_module_loop fuel callback fp2 p l
              else Some (p, l)) = Some (payload', log') ->
             exists new, log' = (l ++ new)%list /\ Forall scan_call_ok new)
    as Hagain.
  { intros p l Hl. destruct (negb (ret =? 0) && negb (ret =? EOF))%bool.
    - eapply IH; eauto.
    - injection Hl as _ <-. exists []. now rewrite app_nil_r. }
  destruct (ret =? 6); [|eapply Hagain; eauto].
  destruct (nonnull (strchr (arg_str vals 2) "x")
            && bcc_mapping_is_file_backed (skip_space (chomp line)))%bool
           eqn:Hvis; [|eapply Hagain; eauto].
  apply andb_true_iff in Hvis as [_ Hfb].
  assert (scan_call_ok (Call (skip_space (chomp line))
                             (to_uint64 (arg_int vals 0))
                             (to_uint64 (arg_int vals 1)))) as Hok.
  { unfold scan_call_ok. cbn [call_name call_begin call_end].
    repeat split; try apply to_uint64_range.
    - exact Hfb.
    - apply skip_space_no_newline, chomp_no_newline.
    - apply skip_space_idem. }
  destruct (callback _ _ _ payload) as [r p1].
  destruct (r <? 0).
  - injection H as _ <-. eexists. split; [reflexivity|]. now constructor.
  - destruct (Hagain _ _ H) as (new & -> & Hnew).
    exists (Call (skip_space (chomp line)) (to_uint64 (arg_int vals 0))
                 (to_uint64 (arg_int vals 1)) :: new).
    split; [now rewrite <- app_assoc|]. now constructor.
Qed.

End ScanInvariant.

(** X9: whatever the maps file holds, every callback invocation
    [bcc_procutils_each_module] makes during the scan has a file-backed
    pathname (never empty, never an anonymous, heap or stack region), free
    of newlines and leading white space, and two addresses below 2^64; the
    only other invocation is the final one for the perf-map path, with the
    range (0, 2^64 - 1), made whenever the maps file opened (the call
    returns 0) and there is a perf-map path, also after the callback has
    stopped the scan. *)
Theorem each_module_calls_file_backed
        (fopen : string -> option string) (bcc_perf_map_path : Z -> option string)
        (P : Type) (callback : modulecb P) (pid : Z) (payload : P)
        (rc : Z) (payload' : P) (calls : list call) :
  bcc_procutils_each_module fopen bcc_perf_map_path pid callback payload
  = Some (rc, payload', calls) ->
  exists scan,
    Forall scan_call_ok scan
    /\ calls = (scan ++ match bcc_perf_map_path pid with
                        | Some map_path =>
                          if rc =? 0 then [Call map_path 0 (2 ^ 64 - 1)] else []
                        | None => []
                        end)%list.
Proof.
  intros H. unfold bcc_procutils_each_module in H.
  destruct (fopen (maps_filename pid)) as [procmap|].
  2:{ injection H as <- _ <-. exists []. split; [constructor|].
      destruct (bcc_perf_map_path pid); reflexivity. }
  destruct (each_module_loop _ callback procmap payload []) as [[p1 log]|] eqn:Hl;
    [|discriminate].
  destruct (each_module_loop_calls callback _ _ _ _ _ _ Hl) as (new & -> & Hnew).
  exists new. split; [exact Hnew|].
  destruct (bcc_perf_map_path pid) as [map_path|].
  - destruct (callback map_path 0 (to_uint64 (-1)) p1) as [r p2].
    injection H as <- _ <-. reflexivity.
  - injection H as <- _ <-. now rewrite app_nil_r.
Qed.

(** A line of garbage, /bin/foo and an executable heap: /bin/foo and the
    perf-map path are the invocations. *)
Lemma each_module_calls_file_backed_witness :
  exists scan,
    Forall scan_call_ok scan
    /\ [Call "/bin/foo" 0x400000 0x410000; Call "/tmp/perf-42.map" 0 (2 ^ 64 - 1)]
       = (scan ++ [Call "/tmp/perf-42.map" 0 (2 ^ 64 - 1)])%list.
Proof.
  exact (each_module_calls_file_backed
           (fun _ => Some (bad_offset_line ++ newline ++ render_maps scenario_maps))
           perf_map_path_spec unit keep_going 42 tt 0 tt
           [Call "/bin/foo" 0x400000 0x410000;
            Call "/tmp/perf-42.map" 0 (2 ^ 64 - 1)]
           eq_refl).
Defined.

Section WhichSoSound.

Variable fopen : string -> option string.

Lemma which_so_loop_sound (search1 search2 : string) (fuel : nat) :
  forall fp libpath,
    which_so_loop fuel search1 search2 fp = Some (Some libpath) ->
    so_path_match search1 search2 libpath = true
    /\ no_newline libpath = true /\ skip_space libpath = libpath.
Proof.
  induction fuel as [|fuel IH]; intros fp libpath H; [discriminate|].
  cbn [which_so_loop] in H.
  destruct (fscanf (maps_format false) [] fp) as [[ret vals] fp1].
  destruct (fgets 4096 fp1) as [[line fp2]|]; [|discriminate].
  fold (so_path_match search1 search2 (skip_space (chomp line))) in H.
  destruct (so_path_match search1 search2 (skip_space (chomp line))) eqn:Hm.
  - injection H as <-. repeat split.
    + exact Hm.
    + apply skip_space_no_newline, chomp_no_newline.
    + apply skip_space_idem.
  - destruct (negb (ret =? EOF)); [|discriminate]. eapply IH; eauto.
Qed.

End WhichSoSound.

(** X10: whatever the maps file holds, a pathname [which_so_in_process]
    reports contains ".so" and one of "/lib<name>." and "/lib<name>-", has
    no newline and does not start with white space. *)
Theorem which_so_in_process_sound
        (fopen : string -> option string) (libname : string) (pid : Z)
        (libpath : string) :
  which_so_in_process fopen libname pid = Some (Some libpath) ->
  contains libpath ".so"
  /\ (contains libpath ("/lib" ++ libname ++ ".")
      \/ contains libpath ("/lib" ++ libname ++ "-"))
  /\ no_newline libpath = true /\ skip_space libpath = libpath.
Proof.
  intros H. unfold which_so_in_process in H.
  destruct (fopen (maps_filename pid)) as [fp|]; [|discriminate].
  apply which_so_loop_sound in H. destruct H as (Hm & Hnl & Hsk).
  unfold so_path_match in Hm.
  rewrite andb_true_iff, orb_true_iff, !strstr_contains in Hm. tauto.
Qed.

Lemma which_so_in_process_sound_witness :
  contains "/usr/lib/x86_64-linux-gnu/libc-2.31.so" ".so"
  /\ (contains "/usr/lib/x86_64-linux-gnu/libc-2.31.so" ("/lib" ++ "c" ++ ".")
      \/ contains "/usr/lib/x86_64-linux-gnu/libc-2.31.so" ("/lib" ++ "c" ++ "-"))
  /\ no_newline "/usr/lib/x86_64-linux-gnu/libc-2.31.so" = true
  /\ skip_space "/usr/lib/x86_64-linux-gnu/libc-2.31.so"
     = "/usr/lib/x86_64-linux-gnu/libc-2.31.so".
Proof.
  exact (which_so_in_process_sound
           (fun _ => Some ("garbage" ++ newline
                           ++ render_maps [scenario_foo; libc_line]))
           "c" 42 "/usr/lib/x86_64-linux-gnu/libc-2.31.so" eq_refl).
Defined.

(** ** The globals of the cache *)

Lemma read_entries_length (p : list byte) (entries entry_size strings : nat)
      (n : nat) :
  forall i libs,
    read_entries p entries entry_size strings n i = Some libs ->
    List.length libs = n.
Proof.
  induction n as [|n IH]; intros i libs H.
  - injection H as <-. reflexivity.
  - cbn [read_entries] in H.
    destruct (load_u32 p (entries + i * entry_size + 4)); [|discriminate].
    destruct (load_u32 p (entries + i * entry_size + 8)); [|discriminate].
    destruct (load_i32 p (entries + i * entry_size)); [|discriminate].
    destruct (load_cstr p _); [|discriminate].
    destruct (load_cstr p _); [|discriminate].
    destruct (read_entries p entries entry_size strings n (S i)) as [rest|] eqn:Hr;
      [|discriminate].
    injection H as <-. simpl. f_equal. eapply IH; eauto.
Qed.

Lemma loaded_cache_ok (entry_count : Z) (libs : list ld_lib) :
  0 <= entry_count < 2 ^ 32 ->
  List.length libs = Z.to_nat entry_count ->
  cache_ok (CacheState (to_int32 entry_count) libs).
Proof.
  intros Hr Hl. unfold cache_ok, to_int32. cbn [lib_cache_count lib_cache].
  rewrite Z.mod_small by lia.
  destruct (Z.ltb_spec entry_count (2 ^ 31)); [right|left; lia].
  rewrite Hl. lia.
Qed.

Lemma read_cache1_ok (ld_map : list byte) (ret : Z) (st' : cache_state) :
  read_cache1 ld_map = Some (ret, st') -> ret = 0 /\ cache_ok st'.
Proof.
  unfold read_cache1.
  destruct (load_u32 ld_map cache1_entry_count_off) as [ec|] eqn:Hec;
    [|discriminate].
  destruct (read_entries _ _ _ _ _ _) as [libs|] eqn:Hr; [|discriminate].
  intros H. injection H as <- <-. split; [reflexivity|].
  apply loaded_cache_ok; [now apply load_u32_range in Hec|].
  eapply read_entries_length; eauto.
Qed.

Lemma read_cache2_ok (st : cache_state) (ld_map : list byte) (ret : Z)
      (st' : cache_state) :
  read_cache2 st ld_map = Some (ret, st') ->
  (ret = -1 /\ st' = st) \/ (ret = 0 /\ cache_ok st').
Proof.
  unfold read_cache2. destruct (memcmp_eq ld_map CACHE2_HEADER); cbn [negb].
  2:{ intros H. injection H as <- <-. now left. }
  destruct (load_u32 ld_map cache2_entry_count_off) as [ec|] eqn:Hec;
    [|discriminate].
  destruct (read_entries _ _ _ _ _ _) as [libs|] eqn:Hr; [|discriminate].
  intros H. injection H as <- <-. right. split; [reflexivity|].
  apply loaded_cache_ok; [now apply load_u32_range in Hec|].
  eapply read_entries_length; eauto.
Qed.

Section CacheGlobals.

Variable sizeof_ptr : Z.
Variable open_rdonly : string -> option cache_file.
Variable fopen : string -> option string.

Lemma load_ld_cache_ok (st : cache_state) (path : string) (ret : Z)
      (st' : cache_state) :
  fst (load_ld_cache sizeof_ptr open_rdonly st path) = Some (ret, st') ->
  (ret = -1 /\ st' = st) \/ (ret = 0 /\ cache_ok st').
Proof.
  unfold load_ld_cache. cbn [fst].
  assert (Some (-1, st) = Some (ret, st') -> (ret = -1 /\ st' = st)
                                             \/ (ret = 0 /\ cache_ok st'))
    as Hfail.
  { intros H. injection H as <- <-. now left. }
  destruct (open_rdonly path) as [f|]; [|exact Hfail].
  destruct (negb (cf_fstat_ok f) || _)%bool; [exact Hfail|].
  destruct (negb (cf_mmap_ok f)); [exact Hfail|].
  destruct (memcmp_eq (mmap_bytes (cf_bytes f)) CACHE1_HEADER).
  - destruct (load_u32 _ cache1_entry_count_off) as [ec|]; [|discriminate].
    destruct (_ <? _).
    + apply read_cache2_ok.
    + intros H. right. eapply read_cache1_ok; eauto.
  - apply read_cache2_ok.
Qed.

Lemma load_ld_cache_events (st : cache_state) (path : string) :
  snd (load_ld_cache sizeof_ptr open_rdonly st path) = [Ev_open path].
Proof. reflexivity. Qed.

Lemma which_so_cache_ok (libname : string) (pid : Z) (st : cache_state)
      (r : option string) (st' : cache_state) (evs : list event) :
  cache_ok st ->
  bcc_procutils_which_so sizeof_ptr open_rdonly fopen libname pid st
  = (Some (r, st'), evs) ->
  cache_ok st'.
Proof.
  intros Hok. unfold bcc_procutils_which_so.
  destruct (nonnull (strchr libname "/")).
  { intros H. now injection H as _ <- _. }
  destruct (if pid =? 0 then Some None else which_so_in_process fopen libname pid)
    as [[libpath|]|]; [|..|discriminate].
  { intros H. now injection H as _ <- _. }
  unfold ld_cache_lookup.
  destruct (lib_cache_count st <? 0).
  { intros H. now injection H as _ <- _. }
  destruct (lib_cache_count st =? 0).
  2:{ intros H. now injection H as _ <- _. }
  pose proof (load_ld_cache_ok st LD_SO_CACHE) as Hload.
  destruct (load_ld_cache sizeof_ptr open_rdonly st LD_SO_CACHE)
    as [[[ret st1]|] evs1]; [|discriminate].
  cbn [fst] in Hload. specialize (Hload ret st1 eq_refl).
  destruct (ret <? 0) eqn:Hret.
  - intros H. injection H as _ <- _. left. cbn. lia.
  - intros H. injection H as _ <- _.
    destruct Hload as [[-> _]|[_ H1]]; [discriminate Hret|exact H1].
Qed.

(** With a count other than 0, a call leaves the globals alone and opens
    nothing. *)
Lemma which_so_settled (libname : string) (pid : Z) (st : cache_state) :
  lib_cache_count st <> 0 ->
  snd (bcc_procutils_which_so sizeof_ptr open_rdonly fopen libname pid st) = []
  /\ forall r st',
      fst (bcc_procutils_which_so sizeof_ptr open_rdonly fopen libname pid st)
      = Some (r, st') -> st' = st.
Proof.
  intros Hnz. unfold bcc_procutils_which_so.
  destruct (nonnull (strchr libname "/")).
  { split; [reflexivity|]. intros r st' H. now injection H as _ <-. }
  destruct (if pid =? 0 then Some None else which_so_in_process fopen libname pid)
    as [[libpath|]|].
  - split; [reflexivity|]. intros r st' H. now injection H as _ <-.
  - unfold ld_cache_lookup.
    destruct (lib_cache_count st <? 0).
    { split; [reflexivity|]. intros r st' H. now injection H as _ <-. }
    destruct (Z.eqb_spec (lib_cache_count st) 0); [contradiction|].
    split; [reflexivity|]. intros r st' H. now injection H as _ <-.
  - split; [reflexivity|]. discriminate.
Qed.

Lemma which_so_run_settled (reqs : list (string * Z)) (st : cache_state) :
  lib_cache_count st <> 0 ->
  snd (which_so_run sizeof_ptr open_rdonly fopen reqs st) = []
  /\ forall rs st',
      fst (which_so_run sizeof_ptr open_rdonly fopen reqs st) = Some (rs, st') ->
      st' = st.
Proof.
  intros Hnz. induction reqs as [|[libname pid] reqs IH].
  - split; [reflexivity|]. intros rs st' H. now injection H as _ <-.
  - cbn [which_so_run].
    destruct (which_so_settled libname pid st Hnz) as [Hev Hst].
    destruct (bcc_procutils_which_so sizeof_ptr open_rdonly fopen libname pid st)
      as [[[r st1]|] evs]; cbn [fst snd] in *; [|split; [exact Hev|discriminate]].
    specialize (Hst r st1 eq_refl). subst st1 evs.
    destruct IH as [IHev IHst].
    destruct (which_so_run sizeof_ptr open_rdonly fopen reqs st)
      as [[[rs st2]|] evs']; cbn [fst snd app] in *.
    + split; [exact IHev|]. intros rs' st' H. injection H as _ <-.
      now apply (IHst rs).
    + split; [exact IHev|discriminate].
Qed.

Lemma unreadable_load (st : cache_state) :
  cache_unreadable open_rdonly ->
  load_ld_cache sizeof_ptr open_rdonly st LD_SO_CACHE
  = (Some (-1, st), [Ev_open LD_SO_CACHE]).
Proof.
  unfold cache_unreadable, load_ld_cache.
  destruct (open_rdonly LD_SO_CACHE) as [f|]; [|reflexivity].
  intros [H|[H|H]].
  - now rewrite H.
  - rewrite H. cbn [negb]. destruct (negb _ || _)%bool; reflexivity.
  - destruct (Z.ltb_spec (Z.of_nat (List.length (cf_bytes f)))
                         (Z.of_nat sizeof_ld_cache1)); [|lia].
    now rewrite orb_true_r.
Qed.

Lemma unreadable_run (reqs : list (string * Z)) :
  cache_unreadable open_rdonly ->
  Forall (fun q => nonnull (strchr (fst q) "/") = false /\ snd q = 0) reqs ->
  forall st,
    lib_cache_count st = -1 ->
    which_so_run sizeof_ptr open_rdonly fopen reqs st
    = (Some (List.map (fun _ => None) reqs, st), []).
Proof.
  intros Hun Hreqs st Hst. induction Hreqs as [|[libname pid] reqs [Hs Hp] _ IH].
  - reflexivity.
  - cbn [fst snd] in Hs, Hp. subst pid. cbn [which_so_run].
    unfold bcc_procutils_which_so. rewrite Hs. cbn [Z.eqb].
    unfold ld_cache_lookup. rewrite Hst. cbn [Z.ltb Z.compare].
    rewrite IH. reflexivity.
Qed.

End CacheGlobals.

(** X11: the two globals of the cache stay in step: if before a call of
    [bcc_procutils_which_so] the count is negative or equals the number of
    entries of the table, the same holds after it, whatever the cache file
    holds. *)
Theorem which_so_keeps_cache_ok
        (sizeof_ptr : Z) (open_rdonly : string -> option cache_file)
        (fopen : string -> option string) (libname : string) (pid : Z)
        (st : cache_state) (r : option string) (st' : cache_state)
        (evs : list event) :
  cache_ok st ->
  bcc_procutils_which_so sizeof_ptr open_rdonly fopen libname pid st
  = (Some (r, st'), evs) ->
  cache_ok st'.
Proof. apply which_so_cache_ok. Qed.

Lemma which_so_keeps_cache_ok_witness :
  cache_ok (CacheState 1 [LdLib "libssl.so.1.1" "/usr/lib/libssl.so.1.1" 0x0303]).
Proof.
  refine (which_so_keeps_cache_ok
            8 (cache_on_disk libssl_v2_cache) (fun _ => None) "ssl" 0
            cache_initial (Some "/usr/lib/libssl.so.1.1") _
            [Ev_open LD_SO_CACHE] _ eq_refl).
  right. reflexivity.
Defined.

(** X12: once the count is not 0 (a table with entries is loaded, or a
    load has failed), no sequence of [bcc_procutils_which_so] calls, for
    whatever names and pids, opens the cache file or changes the
    globals. *)
Theorem which_so_run_no_reload
        (sizeof_ptr : Z) (open_rdonly : string -> option cache_file)
        (fopen : string -> option string) (reqs : list (string * Z))
        (st : cache_state) :
  lib_cache_count st <> 0 ->
  snd (which_so_run sizeof_ptr open_rdonly fopen reqs st) = []
  /\ forall rs st',
      fst (which_so_run sizeof_ptr open_rdonly fopen reqs st) = Some (rs, st') ->
      st' = st.
Proof. apply which_so_run_settled. Qed.

Lemma which_so_run_no_reload_witness :
  snd (which_so_run 8 (cache_on_disk empty_v2_cache) (fun _ => None)
                    [("ssl", 0); ("c", 0); ("/lib/libz.so", 0)]
                    (single_entry_cache
                       (LdLib "libssl.so.1.1" "/usr/lib/libssl.so.1.1" 0x0303)))
  = [].
Proof.
  refine (proj1 (which_so_run_no_reload
                   8 (cache_on_disk empty_v2_cache) (fun _ => None)
                   [("ssl", 0); ("c", 0); ("/lib/libz.so", 0)]
                   (single_entry_cache
                      (LdLib "libssl.so.1.1" "/usr/lib/libssl.so.1.1" 0x0303))
                   _)).
  discriminate.
Defined.

(** X13: when /etc/ld.so.cache cannot be read (it does not open, [fstat]
    or [mmap] fails, or it is shorter than 16 bytes), a sequence of cache
    lookups from program start opens the file once, for the first lookup,
    and every lookup returns a null pointer. *)
Theorem unreadable_cache_opened_once
        (sizeof_ptr : Z) (open_rdonly : string -> option cache_file)
        (fopen : string -> option string) (libname : string)
        (reqs : list (string * Z)) :
  cache_unreadable open_rdonly ->
  Forall (fun q => nonnull (strchr (fst q) "/") = false /\ snd q = 0)
         ((libname, 0) :: reqs) ->
  which_so_run sizeof_ptr open_rdonly fopen ((libname, 0) :: reqs) cache_initial
  = (Some (List.map (fun _ => None) ((libname, 0) :: reqs), CacheState (-1) []),
     [Ev_open LD_SO_CACHE]).
Proof.
  intros Hun Hreqs. inversion Hreqs as [|q qs [Hs _] Hrest]; subst.
  cbn [fst] in Hs. cbn [which_so_run].
  unfold bcc_procutils_which_so. rewrite Hs. cbn [Z.eqb].
  unfold ld_cache_lookup. cbn [cache_initial lib_cache_count Z.ltb Z.eqb Z.compare].
  rewrite unreadable_load by exact Hun. cbn [Z.ltb Z.compare lib_cache].
  rewrite (unreadable_run sizeof_ptr open_rdonly fopen reqs Hun Hrest)
    by reflexivity.
  reflexivity.
Qed.

Lemma unreadable_cache_opened_once_witness :
  which_so_run 8 (fun _ => None) (fun _ => None)
               [("ssl", 0); ("c", 0); ("z", 0)] cache_initial
  = (Some ([None; None; None], CacheState (-1) []), [Ev_open LD_SO_CACHE]).
Proof.
  refine (unreadable_cache_opened_once 8 (fun _ => None) (fun _ => None)
            "ssl" [("c", 0); ("z", 0)] I _).
  repeat constructor.
Defined.

(** ** The first matching entry *)

Lemma nul_free_soname (libname : string) :
  nul_free libname = true -> nul_free ("lib" ++ libname ++ ".so") = true.
Proof.
  intros Hnf. simpl. unfold nul_free in *.
  induction libname as [|c n IH]; simpl in *; [reflexivity|].
  apply andb_true_iff in Hnf as [-> Hn]. simpl. now apply IH.
Qed.

Lemma soname_length (libname : string) :
  String.length ("lib" ++ libname ++ ".so")
  = (String.length libname + String.length "lib.so")%nat.
Proof. simpl. rewrite length_append. simpl. lia. Qed.

Section CacheScan.

Variable sizeof_ptr : Z.

Lemma cache_scan_first (name : string) (libs : list ld_lib) :
  nul_free name = true ->
  let soname := "lib" ++ name ++ ".so" in
  match cache_scan sizeof_ptr soname
                   (String.length name + String.length "lib.so") libs with
  | Some p =>
    exists pre e post,
      libs = (pre ++ e :: post)%list /\ p = path e
      /\ entry_matches sizeof_ptr soname e
      /\ forall e', In e' pre -> ~ entry_matches sizeof_ptr soname e'
  | None => forall e, In e libs -> ~ entry_matches sizeof_ptr soname e
  end.
Proof.
  intros Hnf soname. rewrite <- soname_length. fold soname.
  pose proof (nul_free_soname name Hnf) as Hso. fold soname in Hso.
  induction libs as [|a libs IH]; cbn [cache_scan].
  - intros e [].
  - destruct ((strncmp (libname a) soname (String.length soname) =? 0)
              && match_so_flags sizeof_ptr (flags a))%bool eqn:Ha.
    + apply andb_true_iff in Ha as [Hn Hf]. apply Z.eqb_eq in Hn.
      apply strncmp_prefix in Hn; [|exact Hso].
      exists [], a, libs. split; [reflexivity|]. split; [reflexivity|].
      split; [now split|]. intros e' [].
    + assert (~ entry_matches sizeof_ptr soname a) as Hna.
      { intros [Hb Hf]. apply (strncmp_prefix _ _ Hso) in Hb.
        rewrite Hb, Hf in Ha. discriminate. }
      destruct (cache_scan sizeof_ptr soname (String.length soname) libs) as [p|].
      * destruct IH as (pre & e & post & -> & Hp & He & Hpre).
        exists (a :: pre), e, post. split; [reflexivity|].
        split; [exact Hp|]. split; [exact He|].
        intros e' [<-|He']; [exact Hna|now apply Hpre].
      * intros e [<-|He]; [exact Hna|now apply IH].
Qed.

End CacheScan.

(** X14: with a table of entries loaded, a lookup by bare name (no '/',
    pid 0) returns the path of the first entry, in cache order, whose
    name begins with "lib<name>.so" and whose flags pass the ABI filter,
    and a null pointer when there is none; it opens nothing and leaves
    the globals alone. *)
Theorem cache_lookup_first_match
        (sizeof_ptr : Z) (open_rdonly : string -> option cache_file)
        (fopen : string -> option string) (libname : string)
        (st : cache_state) :
  nul_free libname = true ->
  nonnull (strchr libname "/") = false ->
  0 < lib_cache_count st ->
  lib_cache_count st = Z.of_nat (List.length (lib_cache st)) ->
  exists r,
    bcc_procutils_which_so sizeof_ptr open_rdonly fopen libname 0 st
    = (Some (r, st), [])
    /\ match r with
       | Some p =>
         exists pre e post,
           lib_cache st = (pre ++ e :: post)%list /\ p = path e
           /\ entry_matches sizeof_ptr ("lib" ++ libname ++ ".so") e
           /\ forall e', In e' pre ->
                         ~ entry_matches sizeof_ptr ("lib" ++ libname ++ ".so") e'
       | None =>
         forall e, In e (lib_cache st) ->
                   ~ entry_matches sizeof_ptr ("lib" ++ libname ++ ".so") e
       end.
Proof.
  intros Hnf Hslash Hpos Hlen.
  unfold bcc_procutils_which_so. rewrite Hslash. cbn [Z.eqb].
  unfold ld_cache_lookup.
  destruct (Z.ltb_spec (lib_cache_count st) 0); [lia|].
  destruct (Z.eqb_spec (lib_cache_count st) 0); [lia|].
  rewrite Hlen, Nat2Z.id, firstn_all.
  eexists. split; [reflexivity|].
  apply (cache_scan_first sizeof_ptr libname (lib_cache st) Hnf).
Qed.

(** "libcrypt.so.1" comes first but does not begin with "libc.so". *)
Lemma cache_lookup_first_match_witness :
  exists r,
    bcc_procutils_which_so 8 (fun _ => None) (fun _ => None) "c" 0
      (CacheState 2 [LdLib "libcrypt.so.1" "/lib/libcrypt.so.1" 0x0303;
                     LdLib "libc.so.6" "/lib/libc.so.6" 0x0303])
    = (Some (r, CacheState 2 [LdLib "libcrypt.so.1" "/lib/libcrypt.so.1" 0x0303;
                              LdLib "libc.so.6" "/lib/libc.so.6" 0x0303]), [])
    /\ match r with
       | Some p =>
         exists pre e post,
           [LdLib "libcrypt.so.1" "/lib/libcrypt.so.1" 0x0303;
            LdLib "libc.so.6" "/lib/libc.so.6" 0x0303]
           = (pre ++ e :: post)%list /\ p = path e
           /\ entry_matches 8 ("lib" ++ "c" ++ ".so") e
           /\ forall e', In e' pre -> ~ entry_matches 8 ("lib" ++ "c" ++ ".so") e'
       | None =>
         forall e,
           In e [LdLib "libcrypt.so.1" "/lib/libcrypt.so.1" 0x0303;
                 LdLib "libc.so.6" "/lib/libc.so.6" 0x0303] ->
           ~ entry_matches 8 ("lib" ++ "c" ++ ".so") e
       end.
Proof.
  apply (cache_lookup_first_match
           8 (fun _ => None) (fun _ => None) "c"
           (CacheState 2 [LdLib "libcrypt.so.1" "/lib/libcrypt.so.1" 0x0303;
                          LdLib "libc.so.6" "/lib/libc.so.6" 0x0303]));
    reflexivity.
Defined.

(** ** What [bcc_procutils_which] returns *)

Section WhichSound.

Variable access_X_OK : string -> bool.
Variable stat_isreg : string -> option bool.
Variable getenv : string -> option string.

Lemma which_sound_complete (binpath : string) :
  which_fits getenv binpath = true ->
  exists r,
    bcc_procutils_which access_X_OK stat_isreg getenv binpath = Some r
    /\ match r with
       | Some p =>
         is_exe access_X_OK stat_isreg p = true
         /\ (if nonnull (strchr binpath "/") then p = binpath
             else exists PATH seg,
                 getenv "PATH" = Some PATH /\ In seg (split_colon "" PATH)
                 /\ seg <> "" /\ p = seg ++ "/" ++ binpath)
       | None =>
         if nonnull (strchr binpath "/")
         then is_exe access_X_OK stat_isreg binpath = false
         else forall PATH seg,
             getenv "PATH" = Some PATH -> In seg (split_colon "" PATH) ->
             seg <> "" ->
             is_exe access_X_OK stat_isreg (seg ++ "/" ++ binpath) = false
       end.
Proof.
  intros Hfit.
  rewrite which_refines_skip by exact Hfit. eexists. split; [reflexivity|].
  unfold which_spec_skip.
  destruct (nonnull (strchr binpath "/")).
  { destruct (is_exe access_X_OK stat_isreg binpath) eqn:He; auto. }
  destruct (getenv "PATH") as [PATH|]; [|intros ? ? H; discriminate H].
  destruct (List.find _ _) as [p|] eqn:Hfind.
  - apply find_some in Hfind as [Hin Hexe]. split; [exact Hexe|].
    apply in_map_iff in Hin as (seg & <- & Hseg).
    apply filter_In in Hseg as [Hseg Hne].
    exists PATH, seg. repeat split; try assumption.
    intros ->. discriminate Hne.
  - intros PATH' seg HP Hseg Hne. injection HP as <-.
    apply (find_none _ _ Hfind). apply in_map_iff. exists seg.
    split; [reflexivity|]. apply filter_In. split; [exact Hseg|].
    apply negb_true_iff. now apply String.eqb_neq.
Qed.

End WhichSound.

(** X15: when every non-empty PATH segment joined with the name is
    shorter than 4096 bytes (the buffer the join is written to),
    [bcc_procutils_which] returns, and it returns only paths that are
    executable regular files: the name itself when it contains '/',
    otherwise the join of a non-empty PATH segment and the name; and it
    returns a null pointer only when the name (with '/') is not such a
    file, or no non-empty PATH segment joined with the name is one. *)
Theorem which_returns_executable
        (access_X_OK : string -> bool) (stat_isreg : string -> option bool)
        (getenv : string -> option string) (binpath : string) :
  which_fits getenv binpath = true ->
  exists r,
    bcc_procutils_which access_X_OK stat_isreg getenv binpath = Some r
    /\ match r with
       | Some p =>
         is_exe access_X_OK stat_isreg p = true
         /\ (if nonnull (strchr binpath "/") then p = binpath
             else exists PATH seg,
                 getenv "PATH" = Some PATH /\ In seg (split_colon "" PATH)
                 /\ seg <> "" /\ p = seg ++ "/" ++ binpath)
       | None =>
         if nonnull (strchr binpath "/")
         then is_exe access_X_OK stat_isreg binpath = false
         else forall PATH seg,
             getenv "PATH" = Some PATH -> In seg (split_colon "" PATH) ->
             seg <> "" ->
             is_exe access_X_OK stat_isreg (seg ++ "/" ++ binpath) = false
       end.
Proof. apply which_sound_complete. Qed.

(** /usr/bin/ls is not executable and /bin/ls is: the result is the join
    of a segment of PATH with the name, and it is executable. *)
Lemma which_returns_executable_witness :
  exists r,
    bcc_procutils_which all_but_usr_bin_ls (fun _ => Some true)
                        (fun _ => Some "/usr/bin:/bin") "ls" = Some r
    /\ match r with
       | Some p =>
         is_exe all_but_usr_bin_ls (fun _ => Some true) p = true
         /\ exists PATH seg,
             Some "/usr/bin:/bin" = Some PATH /\ In seg (split_colon "" PATH)
             /\ seg <> "" /\ p = seg ++ "/" ++ "ls"
       | None =>
         forall PATH seg,
           Some "/usr/bin:/bin" = Some PATH -> In seg (split_colon "" PATH) ->
           seg <> "" ->
           is_exe all_but_usr_bin_ls (fun _ => Some true) (seg ++ "/" ++ "ls")
           = false
       end.
Proof.
  exact (which_returns_executable all_but_usr_bin_ls (fun _ => Some true)
                                  (fun _ => Some "/usr/bin:/bin") "ls" eq_refl).
Defined.

(** ** A line that does not scan does not end the library search *)

Section WhichSoBadLine.

Variable fopen : string -> option string.



End WhichSoBadLine.



(** ** Reading back a cache *)

Lemma byte_val_of_Z (n : Z) : byte_val (byte_of_Z n) = n mod 256.
Proof.
  unfold byte_val, byte_of_Z.
  pose proof (Z.mod_pos_bound n 256 ltac:(lia)) as Hr.
  destruct (Byte.of_N (Z.to_N (n mod 256))) as [b|] eqn:Hb.
  - apply Byte.to_of_N in Hb. rewrite Hb. lia.
  - apply Byte.of_N_None_iff in Hb. lia.
Qed.

Lemma u32_of_le32 (n : Z) :
  u32_of_bytes (byte_of_Z n) (byte_of_Z (n / 2 ^ 8)) (byte_of_Z (n / 2 ^ 16))
               (byte_of_Z (n / 2 ^ 24))
  = n mod 2 ^ 32.
Proof.
  unfold u32_of_bytes. rewrite !byte_val_of_Z.
  change (2 ^ 32) with (2 ^ 8 * (2 ^ 8 * (2 ^ 8 * 2 ^ 8))).
  rewrite (Z.rem_mul_r n (2 ^ 8)) by lia.
  rewrite (Z.rem_mul_r (n / 2 ^ 8) (2 ^ 8)) by lia.
  rewrite (Z.rem_mul_r (n / 2 ^ 8 / 2 ^ 8) (2 ^ 8)) by lia.
  rewrite !Z.div_div by lia.
  change (2 ^ 8 * 2 ^ 8) with (2 ^ 16).
  change (2 ^ 16 * 2 ^ 8) with (2 ^ 24).
  change (2 ^ 8) with 256. lia.
Qed.

Lemma skipn_app_length {A : Type} (pre x : list A) (d : nat) :
  skipn (List.length pre + d) (pre ++ x) = skipn d x.
Proof.
  induction pre as [|a pre IH]; simpl; [reflexivity|exact IH].
Qed.

Lemma load_u32_le32 (pre rest : list byte) (n : Z) :
  0 <= n < 2 ^ 32 ->
  load_u32 (pre ++ le32 n ++ rest) (List.length pre) = Some n.
Proof.
  intros Hn. unfold load_u32.
  rewrite <- (Nat.add_0_r (List.length pre)), skipn_app_length.
  cbn [skipn le32 app]. rewrite u32_of_le32. now rewrite Z.mod_small.
Qed.

Lemma load_i32_le32 (pre rest : list byte) (n : Z) :
  - 2 ^ 31 <= n < 2 ^ 31 ->
  load_i32 (pre ++ le32 n ++ rest) (List.length pre) = Some n.
Proof.
  intros Hn. unfold load_i32, load_u32.
  rewrite <- (Nat.add_0_r (List.length pre)), skipn_app_length.
  cbn [skipn le32 app option_map]. rewrite u32_of_le32. f_equal.
  unfold to_int32. rewrite Z.mod_mod by lia.
  destruct (Z.ltb_spec n 0).
  - replace (n mod 2 ^ 32) with (n + 2 ^ 32).
    + destruct (Z.ltb_spec (n + 2 ^ 32) (2 ^ 31)); lia.
    + apply Z.mod_unique with (q := -1); lia.
  - rewrite Z.mod_small by lia.
    destruct (Z.ltb_spec n (2 ^ 31)); lia.
Qed.

Lemma list_byte_of_string_length (s : string) :
  List.length (list_byte_of_string s) = String.length s.
Proof.
  unfold list_byte_of_string. rewrite length_map.
  induction s as [|c s IH]; simpl; [reflexivity|now rewrite IH].
Qed.

Lemma asciz_length (s : string) :
  List.length (asciz s) = (String.length s + 1)%nat.
Proof.
  unfold asciz. now rewrite length_app, list_byte_of_string_length.
Qed.

Lemma cstring_asciz (s : string) (rest : list byte) :
  nul_free s = true -> cstring (asciz s ++ rest) = Some s.
Proof.
  unfold asciz, list_byte_of_string.
  induction s as [|c s IH]; intros Hnf; [reflexivity|].
  apply forallb_string_cons in Hnf as [Hc Hnf].
  cbn [list_ascii_of_string List.map app cstring].
  destruct (Byte.eqb (byte_of_ascii c) x00) eqn:Hz.
  - apply Byte.byte_dec_bl in Hz.
    apply (f_equal ascii_of_byte) in Hz.
    rewrite ascii_of_byte_of_ascii in Hz. subst c. discriminate Hc.
  - rewrite IH by exact Hnf. cbn [option_map].
    now rewrite ascii_of_byte_of_ascii.
Qed.

Lemma enc_strings_length (libs : list ld_lib) :
  List.length (enc_strings libs)
  = fold_right (fun l n => (strings_size l + n)%nat) 0%nat libs.
Proof.
  induction libs as [|l libs IH]; [reflexivity|].
  cbn [enc_strings fold_right]. rewrite !length_app, !asciz_length, IH.
  unfold strings_size. lia.
Qed.

Lemma enc_entries_length (bias pad : nat) (libs : list ld_lib) :
  forall off,
    List.length (enc_entries bias pad off libs)
    = (List.length libs * (12 + pad))%nat.
Proof.
  induction libs as [|l libs IH]; intros off; [reflexivity|].
  cbn [enc_entries]. rewrite !length_app, repeat_length, IH.
  cbn [le32 List.length]. lia.
Qed.

Section ReadEncoded.

Variable p : list byte.
Variables entries strings bias pad : nat.

Lemma read_entries_enc (todo : list ld_lib) :
  forall i off pre post tail,
    forallb wf_lib todo = true ->
    p = (pre ++ enc_entries bias pad off todo ++ post)%list ->
    List.length pre = (entries + i * (12 + pad))%nat ->
    skipn (strings + (bias + off)) p = (enc_strings todo ++ tail)%list ->
    Z.of_nat (bias + off + List.length (enc_strings todo)) < 2 ^ 32 ->
    read_entries p entries (12 + pad) strings (List.length todo) i = Some todo.
Proof.
  induction todo as [|l todo IH]; intros i off pre post tail Hwf Hp Hpre Hstr Hfit;
    [reflexivity|].
  cbn [forallb] in Hwf. apply andb_true_iff in Hwf as [Hl Hwf].
  unfold wf_lib in Hl. rewrite !andb_true_iff in Hl.
  destruct Hl as [[[Hname Hpath] Hf1] Hf2].
  apply Z.leb_le in Hf1. apply Z.ltb_lt in Hf2.
  cbn [enc_strings] in Hstr, Hfit. rewrite <- !app_assoc in Hstr.
  rewrite !length_app, !asciz_length in Hfit.
  cbn [List.length read_entries]. rewrite <- Hpre.
  cbn [enc_entries] in Hp. rewrite <- !app_assoc in Hp.
  (* the three words of the entry *)
  assert (load_i32 p (List.length pre) = Some (flags l)) as ->.
  { rewrite Hp. apply load_i32_le32. lia. }
  assert (load_u32 p (List.length pre + 4) = Some (Z.of_nat (bias + off))) as ->.
  { rewrite Hp, (app_assoc pre).
    replace (List.length pre + 4)%nat
      with (List.length (pre ++ le32 (flags l))%list)
      by (rewrite length_app; cbn [le32 List.length]; lia).
    apply load_u32_le32. lia. }
  assert (load_u32 p (List.length pre + 8)
          = Some (Z.of_nat (bias + off + String.length (libname l) + 1))) as ->.
  { rewrite Hp, (app_assoc pre), (app_assoc (pre ++ le32 (flags l))).
    replace (List.length pre + 8)%nat
      with (List.length ((pre ++ le32 (flags l))
                           ++ le32 (Z.of_nat (bias + off)))%list)
      by (rewrite !length_app; cbn [le32 List.length]; lia).
    apply load_u32_le32. lia. }
  (* the two strings *)
  unfold load_cstr. rewrite !Nat2Z.id, Hstr.
  rewrite cstring_asciz by exact Hname.
  replace (strings + (bias + off + String.length (libname l) + 1))%nat
    with ((String.length (libname l) + 1) + (strings + (bias + off)))%nat by lia.
  rewrite <- skipn_skipn, Hstr, <- asciz_length.
  rewrite <- (Nat.add_0_r (List.length (asciz (libname l)))), skipn_app_length.
  cbn [skipn]. rewrite cstring_asciz by exact Hpath.
  (* the remaining entries *)
  rewrite (IH (S i) (off + strings_size l)%nat
              (pre ++ le32 (flags l) ++ le32 (Z.of_nat (bias + off))
                   ++ le32 (Z.of_nat (bias + off + String.length (libname l) + 1))
                   ++ repeat x00 pad)%list
              post tail Hwf).
  - destruct l; reflexivity.
  - rewrite Hp at 1. rewrite <- !app_assoc. reflexivity.
  - rewrite !length_app, repeat_length, Hpre. cbn [le32 List.length]. lia.
  - replace (strings + (bias + (off + strings_size l)))%nat
      with (strings_size l + (strings + (bias + off)))%nat by lia.
    rewrite <- skipn_skipn, Hstr.
    replace (strings_size l)
      with (List.length (asciz (libname l) ++ asciz (path l))%list + 0)%nat
      by (rewrite length_app, !asciz_length; unfold strings_size; lia).
    rewrite app_assoc, skipn_app_length. reflexivity.
  - unfold strings_size. lia.
Qed.

End ReadEncoded.

Lemma encode_cache2_header (rest : list byte) :
  memcmp_eq (list_byte_of_string "glibc-ld.so.cache1.1" ++ rest) CACHE2_HEADER
  = true
  /\ memcmp_eq (list_byte_of_string "glibc-ld.so.cache1.1" ++ rest) CACHE1_HEADER
     = false.
Proof. split; reflexivity. Qed.

Lemma encode_cache1_header (rest : list byte) :
  memcmp_eq (asciz CACHE1_HEADER ++ rest) CACHE1_HEADER = true.
Proof. reflexivity. Qed.

Lemma encode_cache2_length (libs : list ld_lib) :
  List.length (encode_cache2 libs)
  = (48 + List.length libs * 24 + List.length (enc_strings libs))%nat.
Proof.
  unfold encode_cache2. rewrite !length_app, enc_entries_length, repeat_length.
  cbn [le32 List.length]. rewrite list_byte_of_string_length. simpl. lia.
Qed.

Lemma encode_cache1_length (libs : list ld_lib) :
  List.length (encode_cache1 libs)
  = (16 + List.length libs * 12 + List.length (enc_strings libs))%nat.
Proof.
  unfold encode_cache1. rewrite !length_app, enc_entries_length, asciz_length.
  cbn [le32 List.length]. simpl. lia.
Qed.

Lemma to_int32_small (n : Z) : 0 <= n < 2 ^ 31 -> to_int32 n = n.
Proof.
  intros Hn. unfold to_int32. rewrite Z.mod_small by lia.
  destruct (Z.ltb_spec n (2 ^ 31)); lia.
Qed.

Lemma read_cache2_encoded (st : cache_state) (libs : list ld_lib)
      (tail : list byte) :
  forallb wf_lib libs = true ->
  Z.of_nat (List.length (encode_cache2 libs)) < 2 ^ 31 ->
  read_cache2 st (encode_cache2 libs ++ tail)
  = Some (0, CacheState (Z.of_nat (List.length libs)) libs).
Proof.
  intros Hwf Hsize. rewrite encode_cache2_length in Hsize.
  unfold read_cache2, encode_cache2. rewrite <- !app_assoc.
  rewrite (proj1 (encode_cache2_header _)). cbn [negb].
  change cache2_entry_count_off
    with (List.length (list_byte_of_string "glibc-ld.so.cache1.1")).
  rewrite load_u32_le32 by lia. rewrite Nat2Z.id.
  rewrite to_int32_small by lia.
  change sizeof_ld_cache2_entry with (12 + 12)%nat.
  rewrite (read_entries_enc _ sizeof_ld_cache2 0
                            (sizeof_ld_cache2 + List.length libs * (12 + 12)) 12
                            libs 0 0
                            (list_byte_of_string "glibc-ld.so.cache1.1"
                             ++ le32 (Z.of_nat (List.length libs))
                             ++ le32 (Z.of_nat (List.length (enc_strings libs)))
                             ++ repeat x00 20)
                            (enc_strings libs ++ tail) tail Hwf).
  - reflexivity.
  - rewrite <- !app_assoc. reflexivity.
  - reflexivity.
  - rewrite !app_assoc.
    rewrite <- (app_assoc _ (enc_strings libs) tail).
    match goal with
    | |- skipn ?k (?a ++ ?b) = _ =>
      replace k with (List.length a + 0)%nat; [apply skipn_app_length|]
    end.
    rewrite !length_app, enc_entries_length, repeat_length.
    cbn [le32 List.length]. rewrite list_byte_of_string_length. simpl. lia.
  - unfold sizeof_ld_cache2. lia.
Qed.

Lemma read_cache1_encoded (libs : list ld_lib) (tail : list byte) :
  forallb wf_lib libs = true ->
  Z.of_nat (List.length (encode_cache1 libs)) < 2 ^ 31 ->
  read_cache1 (encode_cache1 libs ++ tail)
  = Some (0, CacheState (Z.of_nat (List.length libs)) libs).
Proof.
  intros Hwf Hsize. rewrite encode_cache1_length in Hsize.
  unfold read_cache1, encode_cache1. rewrite <- !app_assoc.
  change cache1_entry_count_off with (List.length (asciz CACHE1_HEADER)).
  rewrite load_u32_le32 by lia. rewrite Nat2Z.id.
  rewrite to_int32_small by lia.
  change sizeof_ld_cache1_entry with (12 + 0)%nat.
  rewrite (read_entries_enc _ sizeof_ld_cache1
                            (sizeof_ld_cache1 + List.length libs * (12 + 0)) 0 0
                            libs 0 0
                            (asciz CACHE1_HEADER
                             ++ le32 (Z.of_nat (List.length libs)))
                            (enc_strings libs ++ tail) tail Hwf).
  - reflexivity.
  - rewrite <- !app_assoc. reflexivity.
  - reflexivity.
  - rewrite !app_assoc.
    rewrite <- (app_assoc _ (enc_strings libs) tail).
    match goal with
    | |- skipn ?k (?a ++ ?b) = _ =>
      replace k with (List.length a + 0)%nat; [apply skipn_app_length|]
    end.
    rewrite !length_app, enc_entries_length, asciz_length.
    cbn [le32 List.length]. simpl. lia.
  - lia.
Qed.

(** X17: round trip of the v2 format.  A cache file that holds a table of
    libraries in the v2 layout (names and paths without NUL, flags in
    [int32_t], less than 2^31 bytes in all) is loaded by [load_ld_cache]
    with result 0, and the globals then hold exactly that table: as many
    entries, in the same order, with names, paths and flags unchanged. *)
Theorem load_ld_cache_round_trip_v2
        (sizeof_ptr : Z) (st : cache_state) (libs : list ld_lib) :
  forallb wf_lib libs = true ->
  Z.of_nat (List.length (encode_cache2 libs)) < 2 ^ 31 ->
  load_ld_cache sizeof_ptr (cache_on_disk (encode_cache2 libs)) st LD_SO_CACHE
  = (Some (0, CacheState (Z.of_nat (List.length libs)) libs),
     [Ev_open LD_SO_CACHE]).
Proof.
  intros Hwf Hsize. unfold load_ld_cache, cache_on_disk.
  rewrite String.eqb_refl. cbn [cf_fstat_ok cf_mmap_ok cf_bytes negb orb].
  destruct (Z.ltb_spec (Z.of_nat (List.length (encode_cache2 libs)))
                       (Z.of_nat sizeof_ld_cache1)) as [Hs|Hs].
  { rewrite encode_cache2_length in Hs. unfold sizeof_ld_cache1 in Hs. lia. }
  unfold mmap_bytes.
  assert (memcmp_eq (encode_cache2 libs ++ repeat x00
             ((PAGE_SIZE - List.length (encode_cache2 libs) mod PAGE_SIZE)
                mod PAGE_SIZE)) CACHE1_HEADER = false) as ->.
  { unfold encode_cache2. rewrite <- !app_assoc.
    apply (proj2 (encode_cache2_header _)). }
  now rewrite read_cache2_encoded.
Qed.

Lemma load_ld_cache_round_trip_v2_witness :
  load_ld_cache 8
    (cache_on_disk
       (encode_cache2 [LdLib "libcrypt.so.1" "/lib/libcrypt.so.1" 0x0303;
                       LdLib "libc.so.6" "/lib32/libc.so.6" 3;
                       LdLib "libc.so.6" "/lib/libc.so.6" (-0x7ffffcfd)]))
    cache_initial LD_SO_CACHE
  = (Some (0, CacheState 3 [LdLib "libcrypt.so.1" "/lib/libcrypt.so.1" 0x0303;
                            LdLib "libc.so.6" "/lib32/libc.so.6" 3;
                            LdLib "libc.so.6" "/lib/libc.so.6" (-0x7ffffcfd)]),
     [Ev_open LD_SO_CACHE]).
Proof.
  refine (load_ld_cache_round_trip_v2
            8 cache_initial
            [LdLib "libcrypt.so.1" "/lib/libcrypt.so.1" 0x0303;
             LdLib "libc.so.6" "/lib32/libc.so.6" 3;
             LdLib "libc.so.6" "/lib/libc.so.6" (-0x7ffffcfd)]
            eq_refl _).
  vm_compute. reflexivity.
Defined.

(** X18: round trip of the v1 format.  [read_cache1] on a mapping that
    starts with a table of libraries in the v1 layout (names and paths
    without NUL, flags in [int32_t], less than 2^31 bytes in all) returns
    0 and sets the globals to exactly that table, whatever follows it in
    the mapping. *)
Theorem read_cache1_round_trip
        (libs : list ld_lib) (tail : list byte) :
  forallb wf_lib libs = true ->
  Z.of_nat (List.length (encode_cache1 libs)) < 2 ^ 31 ->
  read_cache1 (encode_cache1 libs ++ tail)
  = Some (0, CacheState (Z.of_nat (List.length libs)) libs).
Proof. apply read_cache1_encoded. Qed.

Lemma read_cache1_round_trip_witness :
  read_cache1
    (encode_cache1 [LdLib "libssl.so.1.1" "/usr/lib/libssl.so.1.1" 0x0303;
                    LdLib "libz.so.1" "/lib/libz.so.1" 3]
       ++ [x2a; x2a])
  = Some (0, CacheState 2 [LdLib "libssl.so.1.1" "/usr/lib/libssl.so.1.1" 0x0303;
                           LdLib "libz.so.1" "/lib/libz.so.1" 3]).
Proof.
  refine (read_cache1_round_trip
            [LdLib "libssl.so.1.1" "/usr/lib/libssl.so.1.1" 0x0303;
             LdLib "libz.so.1" "/lib/libz.so.1" 3]
            [x2a; x2a] eq_refl _).
  vm_compute. reflexivity.
Defined.

(** ** A v1 header in front *)

Lemma round_up_8_pad (k : nat) :
  round_up_8 (Z.of_nat k) = Z.of_nat (k + pad8 k).
Proof.
  unfold round_up_8, pad8.
  pose proof (Nat.div_mod_eq k 8) as Hk.
  pose proof (Nat.mod_upper_bound k 8 ltac:(lia)) as Hr.
  set (q := (k / 8)%nat) in *. set (r := (k mod 8)%nat) in *.
  assert (Z.of_nat k = 8 * Z.of_nat q + Z.of_nat r) as HkZ by lia.
  rewrite HkZ.
  destruct (Nat.eq_dec r 0) as [Hz|Hnz].
  - rewrite Hz. change ((8 - 0) mod 8)%nat with 0%nat.
    replace (8 * Z.of_nat q + Z.of_nat 0 + 7) with (Z.of_nat q * 8 + 7) by lia.
    rewrite Z.div_add_l by lia. change (7 / 8) with 0. lia.
  - rewrite (Nat.mod_small (8 - r) 8) by lia.
    replace (8 * Z.of_nat q + Z.of_nat r + 7)
      with ((Z.of_nat q + 1) * 8 + (Z.of_nat r - 1)) by lia.
    rewrite Z.div_add_l by lia.
    rewrite (Z.div_small (Z.of_nat r - 1) 8) by lia. lia.
Qed.

Section Combined.

Variable sizeof_ptr : Z.
Hypothesis Hptr : sizeof_ptr = 4 \/ sizeof_ptr = 8.

Lemma load_combined (st : cache_state) (n1 : nat) (stub : list byte)
      (libs : list ld_lib) :
  List.length stub = (n1 * 12)%nat ->
  forallb wf_lib libs = true ->
  Z.of_nat (List.length (encode_combined n1 stub libs)) < 2 ^ 31 ->
  (48 < List.length (encode_cache2 libs))%nat ->
  fst (load_ld_cache sizeof_ptr (cache_on_disk (encode_combined n1 stub libs))
                     st LD_SO_CACHE)
  = Some (0, CacheState (Z.of_nat (List.length libs)) libs).
Proof.
  intros Hstub Hwf Hsize Hbig.
  assert (List.length (encode_combined n1 stub libs)
          = (16 + n1 * 12 + pad8 (16 + n1 * 12)
             + List.length (encode_cache2 libs))%nat) as Hlen.
  { unfold encode_combined.
    rewrite !length_app, asciz_length, repeat_length, Hstub.
    cbn [le32 List.length]. simpl. lia. }
  assert (2 ^ 32 <= 2 ^ (8 * sizeof_ptr)) as Hpow.
  { destruct Hptr as [-> | ->]; simpl; lia. }
  assert (load_u32 (mmap_bytes (encode_combined n1 stub libs))
                   cache1_entry_count_off = Some (Z.of_nat n1)) as Hcount.
  { unfold mmap_bytes, encode_combined. rewrite <- !app_assoc.
    change cache1_entry_count_off with (List.length (asciz CACHE1_HEADER)).
    apply load_u32_le32. lia. }
  rewrite (load_ld_cache_detect sizeof_ptr _ Hptr st LD_SO_CACHE
             (CacheFile true true (encode_combined n1 stub libs))).
  - unfold detect_and_parse. cbn [cf_bytes].
    assert (memcmp_eq (mmap_bytes (encode_combined n1 stub libs)) CACHE1_HEADER
            = true) as ->.
    { unfold mmap_bytes, encode_combined. rewrite <- !app_assoc.
      apply encode_cache1_header. }
    rewrite Hcount.
    change (Z.of_nat sizeof_ld_cache1) with (Z.of_nat 16).
    change (Z.of_nat sizeof_ld_cache1_entry) with (Z.of_nat 12).
    rewrite <- Nat2Z.inj_mul, <- Nat2Z.inj_add, round_up_8_pad.
    unfold exceeds_v2_header. change (Z.of_nat sizeof_ld_cache2) with 48.
    destruct (Z.ltb_spec (Z.of_nat (16 + n1 * 12 + pad8 (16 + n1 * 12)) + 48)
                         (Z.of_nat (List.length (encode_combined n1 stub libs))));
      [|lia].
    rewrite Nat2Z.id.
    assert (exists tail,
               skipn (16 + n1 * 12 + pad8 (16 + n1 * 12))
                     (mmap_bytes (encode_combined n1 stub libs))
               = (encode_cache2 libs ++ tail)%list) as [tail ->].
    { unfold mmap_bytes, encode_combined. eexists.
      rewrite <- !app_assoc.
      rewrite (app_assoc (asciz CACHE1_HEADER)), (app_assoc _ stub),
        (app_assoc _ (repeat x00 _)).
      match goal with
      | |- skipn ?k (?a ++ ?b) = _ =>
        replace k with (List.length a + 0)%nat;
          [rewrite skipn_app_length; reflexivity|]
      end.
      rewrite !length_app, asciz_length, repeat_length, Hstub.
      cbn [le32 List.length]. simpl. lia. }
    apply read_cache2_encoded; [exact Hwf|lia].
  - unfold cache_on_disk. now rewrite String.eqb_refl.
  - reflexivity.
  - reflexivity.
  - cbn [cf_bytes]. lia.
  - cbn [cf_bytes]. intros ec Hec. rewrite Hcount in Hec.
    injection Hec as <-. lia.
Qed.

Lemma load_v1_too_large (open_rdonly : string -> option cache_file)
      (st : cache_state) (f : cache_file) (entry_count : Z) :
  open_rdonly LD_SO_CACHE = Some f ->
  cf_fstat_ok f = true -> cf_mmap_ok f = true ->
  16 <= Z.of_nat (List.length (cf_bytes f)) < 2 ^ 31 ->
  memcmp_eq (mmap_bytes (cf_bytes f)) CACHE1_HEADER = true ->
  load_u32 (mmap_bytes (cf_bytes f)) cache1_entry_count_off = Some entry_count ->
  round_up_8 (16 + entry_count * 12) + 48 < Z.of_nat (List.length (cf_bytes f)) ->
  memcmp_eq (skipn (Z.to_nat (round_up_8 (16 + entry_count * 12)))
                   (mmap_bytes (cf_bytes f))) CACHE2_HEADER = false ->
  fst (load_ld_cache sizeof_ptr open_rdonly st LD_SO_CACHE) = Some (-1, st).
Proof.
  intros Hopen Hstat Hmap Hsize Hv1 Hcount Hbig Hno.
  assert (2 ^ 32 <= 2 ^ (8 * sizeof_ptr)) as Hpow.
  { destruct Hptr as [-> | ->]; simpl; lia. }
  assert (round_up_8 (16 + entry_count * 12) >= 16 + entry_count * 12) as Hup.
  { unfold round_up_8.
    pose proof (Z.mod_pos_bound (16 + entry_count * 12 + 7) 8 ltac:(lia)).
    pose proof (Z.div_mod (16 + entry_count * 12 + 7) 8 ltac:(lia)). lia. }
  pose proof (load_u32_range _ _ _ Hcount) as Hrange.
  rewrite (load_ld_cache_detect sizeof_ptr open_rdonly Hptr st LD_SO_CACHE f);
    try assumption; try lia.
  - unfold detect_and_parse. rewrite Hv1, Hcount.
    change (Z.of_nat sizeof_ld_cache1) with 16.
    change (Z.of_nat sizeof_ld_cache1_entry) with 12.
    unfold exceeds_v2_header. change (Z.of_nat sizeof_ld_cache2) with 48.
    destruct (Z.ltb_spec (round_up_8 (16 + entry_count * 12) + 48)
                         (Z.of_nat (List.length (cf_bytes f)))); [|lia].
    unfold read_cache2. now rewrite Hno.
  - intros ec Hec. rewrite Hcount in Hec. injection Hec as <-. lia.
Qed.

End Combined.

(** X19: a v2 cache after a v1 header wins.  For a file in the combined
    layout (a v1 header with its entry array, padding to a multiple of 8,
    then a v2 cache that holds at least one library), [load_ld_cache]
    returns 0 and the globals hold the table of the v2 part; the v1
    entries are not read. *)
Theorem load_ld_cache_prefers_v2
        (sizeof_ptr : Z) (st : cache_state) (n1 : nat) (stub : list byte)
        (libs : list ld_lib) :
  sizeof_ptr = 4 \/ sizeof_ptr = 8 ->
  List.length stub = (n1 * 12)%nat ->
  forallb wf_lib libs = true ->
  Z.of_nat (List.length (encode_combined n1 stub libs)) < 2 ^ 31 ->
  (48 < List.length (encode_cache2 libs))%nat ->
  fst (load_ld_cache sizeof_ptr (cache_on_disk (encode_combined n1 stub libs))
                     st LD_SO_CACHE)
  = Some (0, CacheState (Z.of_nat (List.length libs)) libs).
Proof. intros Hptr. now apply load_combined. Qed.

(** One v1 entry of twelve arbitrary bytes in front of a v2 cache. *)
Lemma load_ld_cache_prefers_v2_witness :
  fst (load_ld_cache 8
         (cache_on_disk
            (encode_combined 1 (repeat xff 12)
               [LdLib "libz.so.1" "/lib/libz.so.1" 0x0303]))
         cache_initial LD_SO_CACHE)
  = Some (0, CacheState 1 [LdLib "libz.so.1" "/lib/libz.so.1" 0x0303]).
Proof.
  refine (load_ld_cache_prefers_v2
            8 cache_initial 1 (repeat xff 12)
            [LdLib "libz.so.1" "/lib/libz.so.1" 0x0303]
            (or_intror eq_refl) eq_refl eq_refl _ _).
  - vm_compute. reflexivity.
  - vm_compute. lia.
Defined.

(** X20: a v1 file that is more than 48 bytes longer than its header and
    entry array (rounded up to 8) is never parsed as v1: unless the bytes
    at that offset start with "glibc-ld.so.cache", [load_ld_cache] returns
    -1 and leaves the globals as they were, valid v1 table or not. *)
Theorem load_ld_cache_large_v1_rejected
        (sizeof_ptr : Z) (open_rdonly : string -> option cache_file)
        (st : cache_state) (f : cache_file) (entry_count : Z) :
  sizeof_ptr = 4 \/ sizeof_ptr = 8 ->
  open_rdonly LD_SO_CACHE = Some f ->
  cf_fstat_ok f = true -> cf_mmap_ok f = true ->
  16 <= Z.of_nat (List.length (cf_bytes f)) < 2 ^ 31 ->
  memcmp_eq (mmap_bytes (cf_bytes f)) CACHE1_HEADER = true ->
  load_u32 (mmap_bytes (cf_bytes f)) cache1_entry_count_off = Some entry_count ->
  round_up_8 (16 + entry_count * 12) + 48 < Z.of_nat (List.length (cf_bytes f)) ->
  memcmp_eq (skipn (Z.to_nat (round_up_8 (16 + entry_count * 12)))
                   (mmap_bytes (cf_bytes f))) CACHE2_HEADER = false ->
  fst (load_ld_cache sizeof_ptr open_rdonly st LD_SO_CACHE) = Some (-1, st).
Proof. intros Hptr. now apply load_v1_too_large. Qed.

(** A v1 table of five libraries, which [read_cache1] reads back, is
    rejected as a file. *)
Lemma load_ld_cache_large_v1_rejected_witness :
  fst (load_ld_cache 8 (cache_on_disk (encode_cache1 five_libs)) cache_initial
                     LD_SO_CACHE)
  = Some (-1, cache_initial).
Proof.
  refine (load_ld_cache_large_v1_rejected
            8 (cache_on_disk (encode_cache1 five_libs)) cache_initial
            (CacheFile true true (encode_cache1 five_libs)) 5
            (or_intror eq_refl) eq_refl eq_refl eq_refl _ eq_refl eq_refl
            _ eq_refl).
  - vm_compute. split; [discriminate|reflexivity].
  - vm_compute. reflexivity.
Defined.
